(** * Adaptive search component: rate limiter, result cache, strategies, orchestrator

  A shallow embedding of [AdvancedSearchComponent]
  (src/filter-bug/FilterPanel.tsx, third document of the file) and of the
  helpers it is built from: [createRateLimiter], [createSearchCache], the
  four [create...SearchStrategy] factories and the component's callbacks
  ([performApiSearch], [performLocalSearch], [updateStats], [performSearch],
  [handleInputChange], [handleKeyDown], [clearSearch],
  [handleStrategyChange]).

  Modelling conventions.
  - A JavaScript string is a [string]: a sequence of code units below 256.
    [length] is the [.length] of the source.
  - A JavaScript [number] that holds a time, a size or a limit is a [Z].
  - A [Map] is an association list in insertion order without duplicate
    keys: [Map.prototype.set] on an existing key keeps its position.
  - [Date.now()] is read once per run-to-completion segment and is the
    [now] argument of the functions below.
  - An [async] function is cut at its single [await] on the remote call:
    the part before it returns either a finished value or a request to
    suspend, and a [..._resume] function is the part after it. *)

From Stdlib Require Import ZArith List String Ascii Bool Lia PeanoNat.
From Stdlib Require Import DecimalString.
Import ListNotations.

Local Open Scope Z_scope.
Local Open Scope list_scope.

(* ------------------------------------------------------------------------ *)
(** ** JavaScript strings                                                     *)
(* ------------------------------------------------------------------------ *)

Module JsString.

(** [!s] is true exactly for the empty string. *)
Definition truthy (s : string) : bool :=
  match s with
  | EmptyString => false
  | String _ _ => true
  end.

(** [String.prototype.toLowerCase] on code units below 256: A-Z and the
    Latin-1 capitals (0xC0-0xDE without the multiplication sign 0xD7). *)
Definition lower_char (c : ascii) : ascii :=
  let n := nat_of_ascii c in
  if (((65 <=? n) && (n <=? 90))
      || ((192 <=? n) && (n <=? 222) && negb (n =? 215)))%nat%bool
  then ascii_of_nat (n + 32)
  else c.

Fixpoint toLowerCase (s : string) : string :=
  match s with
  | EmptyString => EmptyString
  | String c s' => String (lower_char c) (toLowerCase s')
  end.

(** White space and line terminators removed by [trim], below 256. *)
Definition is_ws (c : ascii) : bool :=
  let n := nat_of_ascii c in
  (((9 <=? n) && (n <=? 13)) || (n =? 32) || (n =? 160))%nat%bool.

Fixpoint trimStart (s : string) : string :=
  match s with
  | EmptyString => EmptyString
  | String c s' => if is_ws c then trimStart s' else s
  end.

Fixpoint trimEnd (s : string) : string :=
  match s with
  | EmptyString => EmptyString
  | String c s' =>
      let t := trimEnd s' in
      if (is_ws c && negb (truthy t))%bool then EmptyString else String c t
  end.

Definition trim (s : string) : string := trimEnd (trimStart s).

(** [s.startsWith(p)] *)
Fixpoint startsWith (s p : string) : bool :=
  match p, s with
  | EmptyString, _ => true
  | String _ _, EmptyString => false
  | String a p', String b s' => (Ascii.eqb a b && startsWith s' p')%bool
  end.

(** [s.includes(sub)] *)
Fixpoint includes (s sub : string) : bool :=
  (startsWith s sub
   || match s with
      | EmptyString => false
      | String _ s' => includes s' sub
      end)%bool.

Definition strlen (s : string) : Z := Z.of_nat (String.length s).

(** Template-literal conversion of a non-negative integer. *)
Definition ofNat (n : nat) : string :=
  NilZero.string_of_uint (Nat.to_uint n).

End JsString.

(* ------------------------------------------------------------------------ *)
(** ** JavaScript [Map<string, V>] in insertion order                         *)
(* ------------------------------------------------------------------------ *)

Module JsMap.
Section WithValue.
Context {V : Type}.

Definition t := list (string * V).

Fixpoint get (k : string) (m : t) : option V :=
  match m with
  | [] => None
  | (k', v) :: m' => if String.eqb k k' then Some v else get k m'
  end.

(** [m.set(k, v)]: overwrite in place, or append a new last entry. *)
Fixpoint set (k : string) (v : V) (m : t) : t :=
  match m with
  | [] => [(k, v)]
  | (k', v') :: m' =>
      if String.eqb k k' then (k, v) :: m' else (k', v') :: set k v m'
  end.

Fixpoint delete (k : string) (m : t) : t :=
  match m with
  | [] => []
  | (k', v') :: m' =>
      if String.eqb k k' then m' else (k', v') :: delete k m'
  end.

Definition keys (m : t) : list string := map fst m.
Definition values (m : t) : list V := map snd m.
Definition size (m : t) : Z := Z.of_nat (List.length m).

(** The representation invariant of a [Map]: no key occurs twice. *)
Definition wf (m : t) : Prop := NoDup (keys m).

End WithValue.
Arguments t : clear implicits.
End JsMap.

(* ------------------------------------------------------------------------ *)
(** ** [createRateLimiter]                                                    *)
(* ------------------------------------------------------------------------ *)

Module RateLimiter.
Section WithConfig.
Variable limit : Z.
Variable windowMs : Z.

(** The closure's [requests] array. *)
Definition t := list Z.

(** [requests.splice(i, 1)] *)
Definition splice1 (i : nat) (requests : t) : t :=
  firstn i requests ++ skipn (S i) requests.

(** The loop of [cleanup]: [n] is [i + 1], so the indices visited are
    [n - 1], ..., [0]. *)
Fixpoint cleanup_loop (cutoff : Z) (n : nat) (requests : t) : t :=
  match n with
  | O => requests
  | S i =>
      cleanup_loop cutoff i
        (if nth i requests 0 <=? cutoff then splice1 i requests
         else requests)
  end.

Definition cleanup (now : Z) (requests : t) : t :=
  let cutoff := now - windowMs in
  cleanup_loop cutoff (List.length requests) requests.

Definition isLimited (now : Z) (requests : t) : bool * t :=
  let requests := cleanup now requests in
  (Z.of_nat (List.length requests) >=? limit, requests).

Definition record (now : Z) (requests : t) : t := requests ++ [now].

Definition reset (requests : t) : t := [].

Definition remaining (now : Z) (requests : t) : Z * t :=
  let requests := cleanup now requests in
  (Z.max 0 (limit - Z.of_nat (List.length requests)), requests).

End WithConfig.
End RateLimiter.

(* ------------------------------------------------------------------------ *)
(** ** [createSearchCache]                                                    *)
(* ------------------------------------------------------------------------ *)

Record CacheEntry (T : Type) : Type := mkCacheEntry
{ entry_data : list T;
  entry_timestamp : Z }.
Arguments mkCacheEntry {T}.
Arguments entry_data {T}.
Arguments entry_timestamp {T}.

Module SearchCache.
Section WithConfig.
Context {T : Type}.
Variable duration : Z.
Variable maxSize : Z.

(** The closure's [cache] map. *)
Definition t := JsMap.t (CacheEntry T).

Definition expired (now : Z) (entry : CacheEntry T) : bool :=
  now - entry_timestamp entry >? duration.

Definition get (query : string) (now : Z) (cache : t)
  : option (list T) * t :=
  match JsMap.get query cache with
  | None => (None, cache)
  | Some entry =>
      if expired now entry then (None, JsMap.delete query cache)
      else (Some (entry_data entry), cache)
  end.

(** The eviction step of [set]: [Array.from(cache.keys())[0]] is
    [undefined] on an empty map, and [if (firstKey)] tests the key's
    truthiness. *)
Definition evict (cache : t) : t :=
  if JsMap.size cache >=? maxSize then
    match JsMap.keys cache with
    | [] => cache
    | firstKey :: _ =>
        if JsString.truthy firstKey then JsMap.delete firstKey cache
        else cache
    end
  else cache.

Definition set (query : string) (data : list T) (now : Z) (cache : t) : t :=
  JsMap.set query (mkCacheEntry data now) (evict cache).

Fixpoint fuzzyMatch_loop (lowerQuery : string) (now : Z)
    (entries : list (string * CacheEntry T)) : option (list T) :=
  match entries with
  | [] => None
  | (cachedQuery, entry) :: rest =>
      if expired now entry then fuzzyMatch_loop lowerQuery now rest
      else
        let lowerCached := JsString.toLowerCase cachedQuery in
        if (JsString.startsWith lowerQuery lowerCached
            || JsString.includes lowerCached lowerQuery)%bool
        then Some (entry_data entry)
        else fuzzyMatch_loop lowerQuery now rest
  end.

Definition fuzzyMatch (query : string) (now : Z) (cache : t)
  : option (list T) :=
  fuzzyMatch_loop (JsString.toLowerCase query) now cache.

Definition clear (cache : t) : t := [].

Definition size (cache : t) : Z := JsMap.size cache.

End WithConfig.
End SearchCache.

(* ------------------------------------------------------------------------ *)
(** ** Results, thrown values and suspension                                  *)
(* ------------------------------------------------------------------------ *)

Inductive SearchMode : Type := instant | balanced | conservative | manual.

Definition SearchMode_eqb (a b : SearchMode) : bool :=
  match a, b with
  | instant, instant | balanced, balanced
  | conservative, conservative | manual, manual => true
  | _, _ => false
  end.

(** The [source] tag of a [SearchResult]. *)
Inductive Source : Type := src_cache | src_api | src_local | src_rate_limited.

(** [error?: string] is [None] when the property is absent or [undefined]. *)
Record SearchResult (T : Type) : Type := mkResult
{ data : list T;
  source : Source;
  error : option string }.
Arguments mkResult {T}.
Arguments data {T}.
Arguments source {T}.
Arguments error {T}.

(** A value caught by [catch]: what the handlers of the source read of it. *)
Record JsError : Type := mkJsError
{ instanceofError : bool;
  err_name : string;
  err_message : string }.

(** How the promise returned by [apiSearch] settles. *)
Inductive ApiOutcome (T : Type) : Type :=
| Resolved (items : list T)
| Rejected (e : JsError).
Arguments Resolved {T}.
Arguments Rejected {T}.

(** The caller that a suspended [tryApiSearch] returns to: [execute] of the
    instant and conservative strategies returns its promise as it is, and
    [execute] of the balanced strategy awaits it and goes on. *)
Inductive Caller : Type := ReturnsIt | BalancedExecute.

(** An [async] call either finishes in the current segment or suspends at
    [await apiSearch(query)]. *)
Inductive Pending (A : Type) : Type :=
| Ready (a : A)
| AwaitApi (query : string) (caller : Caller).
Arguments Ready {A}.
Arguments AwaitApi {A}.

(** Truthiness of an optional string ([undefined] and the empty string are falsy). *)
Definition truthy_opt (s : option string) : bool :=
  match s with
  | None => false
  | Some s => JsString.truthy s
  end.

(* ------------------------------------------------------------------------ *)
(** ** The four search strategies                                             *)
(* ------------------------------------------------------------------------ *)

Module Strategy.
Section WithConfig.
Context {T : Type}.
Variable duration : Z.
Variable maxSize : Z.
Variable limit : Z.
Variable windowMs : Z.

(** The [cache] and [rateLimiter] objects shared by the strategies. *)
Record Shared : Type := mkShared
{ cache : SearchCache.t (T := T);
  requests : RateLimiter.t }.

Definition cache_get (query : string) (now : Z) (s : Shared)
  : option (list T) * Shared :=
  let (r, c) := SearchCache.get duration query now (cache s) in
  (r, mkShared c (requests s)).

Definition cache_set (query : string) (items : list T) (now : Z) (s : Shared)
  : Shared :=
  mkShared (SearchCache.set maxSize query items now (cache s)) (requests s).

Definition limiter_isLimited (now : Z) (s : Shared) : bool * Shared :=
  let (b, r) := RateLimiter.isLimited limit windowMs now (requests s) in
  (b, mkShared (cache s) r).

Definition limiter_record (now : Z) (s : Shared) : Shared :=
  mkShared (cache s) (RateLimiter.record now (requests s)).

(** [tryApiSearch] up to its [await]. The three textual copies of the
    function (one per strategy factory) are identical. *)
Definition tryApiSearch (query : string) (now : Z) (s : Shared)
  : Pending (SearchResult T) * Shared :=
  let (limited, s) := limiter_isLimited now s in
  if limited then
    (Ready (mkResult [] src_rate_limited
              (Some "Rate limit exceeded. Please slow down."%string)), s)
  else (AwaitApi query ReturnsIt, s).

(** [tryApiSearch] from its [await] on: the [try] body after the call, or
    the [catch] clause. *)
Definition tryApiSearch_resume (query : string) (o : ApiOutcome T) (now : Z)
    (s : Shared) : SearchResult T * Shared :=
  match o with
  | Resolved items =>
      let s := limiter_record now s in
      let s := cache_set query items now s in
      (mkResult items src_api None, s)
  | Rejected e =>
      (mkResult [] src_api
         (Some (if instanceofError e then err_message e
                else "Search failed"%string)), s)
  end.

(** *** Instant *)

Definition instant_execute (query : string) (now : Z) (s : Shared)
  : Pending (SearchResult T) * Shared :=
  tryApiSearch query now s.

(** *** Balanced *)

(** The statements of [execute] after [const apiResult = await ...]. *)
Definition balanced_finish (localSearch : string -> list T) (query : string)
    (apiResult : SearchResult T) : SearchResult T :=
  if (truthy_opt (error apiResult)
      && (List.length (data apiResult) =? 0)%nat)%bool then
    let localData := localSearch query in
    if (0 <? List.length localData)%nat then
      mkResult localData src_local
        (Some "Showing local results (API unavailable)"%string)
    else apiResult
  else apiResult.

Definition balanced_execute (localSearch : string -> list T) (query : string)
    (now : Z) (s : Shared) : Pending (SearchResult T) * Shared :=
  match cache_get query now s with
  | (Some cached, s) => (Ready (mkResult cached src_cache None), s)
  | (None, s) =>
      match SearchCache.fuzzyMatch duration query now (cache s) with
      | Some fuzzyMatch => (Ready (mkResult fuzzyMatch src_cache None), s)
      | None =>
          match tryApiSearch query now s with
          | (Ready apiResult, s) =>
              (Ready (balanced_finish localSearch query apiResult), s)
          | (AwaitApi q _, s) => (AwaitApi q BalancedExecute, s)
          end
      end
  end.

Definition balanced_resume (localSearch : string -> list T) (query : string)
    (o : ApiOutcome T) (now : Z) (s : Shared) : SearchResult T * Shared :=
  let (apiResult, s) := tryApiSearch_resume query o now s in
  (balanced_finish localSearch query apiResult, s).

(** *** Conservative *)

Definition conservative_execute (localSearch : string -> list T)
    (query : string) (now : Z) (s : Shared)
  : Pending (SearchResult T) * Shared :=
  if JsString.strlen query <=? 3 then
    let localData := localSearch query in
    (Ready (mkResult localData src_local
              (if (List.length localData =? 0)%nat
               then Some "Type more characters for API search"%string
               else None)), s)
  else
    let (got, s) := cache_get query now s in
    let cached :=
      match got with
      | Some items => Some items
      | None => SearchCache.fuzzyMatch duration query now (cache s)
      end in
    match cached with
    | Some items => (Ready (mkResult items src_cache None), s)
    | None =>
        let (limited, s) := limiter_isLimited now s in
        if limited then
          let localData := localSearch query in
          (Ready (mkResult localData src_rate_limited
                    (Some "Rate limited. Showing local results."%string)), s)
        else tryApiSearch query now s
    end.

(** *** Manual *)

Definition manual_execute (localSearch : string -> list T) (query : string)
    (now : Z) (s : Shared) : Pending (SearchResult T) * Shared :=
  match cache_get query now s with
  | (Some cached, s) => (Ready (mkResult cached src_cache None), s)
  | (None, s) =>
      let localData := localSearch query in
      (Ready (mkResult localData src_local
                (if (List.length localData =? 0)%nat
                 then Some "No local results. Press Enter for API search."%string
                 else None)), s)
  end.

(** *** [strategies[currentMode].execute] *)

Definition execute (mode : SearchMode) (localSearch : string -> list T)
    (query : string) (now : Z) (s : Shared)
  : Pending (SearchResult T) * Shared :=
  match mode with
  | instant => instant_execute query now s
  | balanced => balanced_execute localSearch query now s
  | conservative => conservative_execute localSearch query now s
  | manual => manual_execute localSearch query now s
  end.

(** The rest of [execute] once the awaited remote call has settled. *)
Definition execute_resume (caller : Caller) (localSearch : string -> list T)
    (query : string) (o : ApiOutcome T) (now : Z) (s : Shared)
  : SearchResult T * Shared :=
  match caller with
  | ReturnsIt => tryApiSearch_resume query o now s
  | BalancedExecute => balanced_resume localSearch query o now s
  end.

End WithConfig.
Arguments Shared : clear implicits.
Arguments mkShared {T}.
Arguments cache {T}.
Arguments requests {T}.
End Strategy.

(* ------------------------------------------------------------------------ *)
(** ** [AdvancedSearchComponent]: data                                        *)
(* ------------------------------------------------------------------------ *)

Record Company : Type := mkCompany { company_name : string }.

(** [ref] is the identity of the JavaScript object, which is what
    [Set<User>] compares; the other fields are those of the interface. *)
Record User : Type := mkUser
{ ref : nat;
  id : Z;
  name : string;
  email : string;
  company : Company }.

(** [keyof User] *)
Inductive UserKey : Type := key_id | key_name | key_email | key_company.

Record Props : Type := mkProps
{ debounceMs : Z;
  minQueryLength : Z;
  maxResults : Z;
  defaultStrategy : SearchMode;
  rateLimit : Z;
  rateLimitWindow : Z;
  cacheDuration : Z;
  maxCacheSize : Z;
  searchFields : list UserKey }.

Definition defaultProps : Props :=
  {| debounceMs := 300;
     minQueryLength := 2;
     maxResults := 50;
     defaultStrategy := balanced;
     rateLimit := 60;
     rateLimitWindow := 60000;
     cacheDuration := 5 * 60 * 1000;
     maxCacheSize := 50;
     searchFields := [key_name; key_email] |}.

Record ApiResult : Type := mkApiResult
{ isLoading : bool;
  api_error : option string;
  results : list User;
  isDropdownOpen : bool }.

Record SearchStats : Type := mkSearchStats
{ apiCalls : nat;
  cacheHits : nat;
  localSearches : nat }.

(** What a suspended promise chain goes on with once its [fetch] settles. *)
Inductive Task : Type :=
| TaskSearch (caller : Caller) (currentMode : SearchMode)
    (trimmedQuery : string)
  (** [performSearch] awaiting [strategy.execute], itself suspended in
      [tryApiSearch] on [performApiSearch(trimmedQuery)] *)
| TaskSubmit (q : string)
  (** the [.then/.catch/.finally] chain of [handleKeyDown] on
      [performApiSearch(q)] *).

Definition task_query (t : Task) : string :=
  match t with
  | TaskSearch _ _ q => q
  | TaskSubmit q => q
  end.

(** How a [fetch] settles: rejection, or a response with its [ok] flag, its
    status and the outcome of [response.json()]. *)
Inductive FetchOutcome : Type :=
| FetchRejected (e : JsError)
| FetchResponse (ok : bool) (status : nat) (json : JsError + list User).

(** The state of one mounted component: React state, refs, the memoised
    cache and rate limiter, the fetches in flight (by the number of their
    [AbortController]) and the timer of [useDebounce]. *)
Record World : Type := mkWorld
{ searchMode : SearchMode;
  currentStrategyRef : SearchMode;
  apiResult : ApiResult;
  query : string;
  searchStats : SearchStats;
  shared : Strategy.Shared User;
  recentSearches : JsMap.t (list User);
  abortControllerRef : option nat;
  nextController : nat;
  inflight : list (nat * Task);
  debounceTimer : option (string * SearchMode) }.

Definition with_mode (m : SearchMode) (w : World) : World :=
  mkWorld m m (apiResult w) (query w) (searchStats w) (shared w)
    (recentSearches w) (abortControllerRef w) (nextController w)
    (inflight w) (debounceTimer w).

(** [setApiResult(prev => f prev)] *)
Definition setApiResult (f : ApiResult -> ApiResult) (w : World) : World :=
  mkWorld (searchMode w) (currentStrategyRef w) (f (apiResult w)) (query w)
    (searchStats w) (shared w) (recentSearches w) (abortControllerRef w)
    (nextController w) (inflight w) (debounceTimer w).

Definition setQuery (q : string) (w : World) : World :=
  mkWorld (searchMode w) (currentStrategyRef w) (apiResult w) q
    (searchStats w) (shared w) (recentSearches w) (abortControllerRef w)
    (nextController w) (inflight w) (debounceTimer w).

Definition setSearchStats (f : SearchStats -> SearchStats) (w : World)
  : World :=
  mkWorld (searchMode w) (currentStrategyRef w) (apiResult w) (query w)
    (f (searchStats w)) (shared w) (recentSearches w) (abortControllerRef w)
    (nextController w) (inflight w) (debounceTimer w).

Definition with_shared (s : Strategy.Shared User) (w : World) : World :=
  mkWorld (searchMode w) (currentStrategyRef w) (apiResult w) (query w)
    (searchStats w) s (recentSearches w) (abortControllerRef w)
    (nextController w) (inflight w) (debounceTimer w).

Definition with_recentSearches (h : JsMap.t (list User)) (w : World)
  : World :=
  mkWorld (searchMode w) (currentStrategyRef w) (apiResult w) (query w)
    (searchStats w) (shared w) h (abortControllerRef w)
    (nextController w) (inflight w) (debounceTimer w).

Definition with_fetches (ctl : option nat) (next : nat)
    (fl : list (nat * Task)) (w : World) : World :=
  mkWorld (searchMode w) (currentStrategyRef w) (apiResult w) (query w)
    (searchStats w) (shared w) (recentSearches w) ctl next fl
    (debounceTimer w).

Definition with_timer (tm : option (string * SearchMode)) (w : World)
  : World :=
  mkWorld (searchMode w) (currentStrategyRef w) (apiResult w) (query w)
    (searchStats w) (shared w) (recentSearches w) (abortControllerRef w)
    (nextController w) (inflight w) tm.

Fixpoint find_task (n : nat) (fl : list (nat * Task)) : option Task :=
  match fl with
  | [] => None
  | (k, t) :: fl' => if Nat.eqb n k then Some t else find_task n fl'
  end.

Definition remove_task (n : nat) (fl : list (nat * Task))
  : list (nat * Task) :=
  filter (fun kt => negb (Nat.eqb n (fst kt))) fl.

(** [xs.slice(0, n)]; a negative [n] counts from the end. *)
Definition slice0 {A : Type} (n : Z) (xs : list A) : list A :=
  if n <? 0 then firstn (Z.to_nat (Z.of_nat (List.length xs) + n)) xs
  else firstn (Z.to_nat n) xs.

(** [result.error || null] *)
Definition or_null (s : option string) : option string :=
  if truthy_opt s then s else None.

(* ------------------------------------------------------------------------ *)
(** ** [AdvancedSearchComponent]: callbacks                                   *)
(* ------------------------------------------------------------------------ *)

Section Component.
Variable props : Props.

(** The [message] of the [DOMException] with which an aborted [fetch]
    rejects; its wording differs between browsers. *)
Variable abortMessage : string.

Definition AbortError : JsError :=
  mkJsError true "AbortError" abortMessage.

Definition initialWorld : World :=
  {| searchMode := defaultStrategy props;
     currentStrategyRef := defaultStrategy props;
     apiResult := mkApiResult false None [] false;
     query := EmptyString;
     searchStats := mkSearchStats 0 0 0;
     shared := Strategy.mkShared [] [];
     recentSearches := [];
     abortControllerRef := None;
     nextController := 0%nat;
     inflight := [];
     debounceTimer := None |}.

(** The predicate that [performApiSearch] and [performLocalSearch] pass to
    [searchFields.some]. *)
Definition fieldMatches (lowerQuery : string) (user : User) (field : UserKey)
  : bool :=
  match field with
  | key_id => false
  | key_name => JsString.includes (JsString.toLowerCase (name user)) lowerQuery
  | key_email =>
      JsString.includes (JsString.toLowerCase (email user)) lowerQuery
  | key_company =>
      existsb
        (fun v => JsString.includes (JsString.toLowerCase v) lowerQuery)
        [company_name (company user)]
  end.

Definition userMatches (searchQuery : string) (user : User) : bool :=
  let lowerQuery := JsString.toLowerCase searchQuery in
  existsb (fieldMatches lowerQuery user) (searchFields props).

(** [performApiSearch] after [await fetch(...)]. *)
Definition performApiSearch_resume (searchQuery : string) (o : FetchOutcome)
  : ApiOutcome User :=
  match o with
  | FetchRejected e => Rejected e
  | FetchResponse ok status json =>
      if negb ok then
        Rejected (mkJsError true "Error"
                    ("HTTP " ++ JsString.ofNat status)%string)
      else
        match json with
        | inl e => Rejected e
        | inr items =>
            Resolved
              (slice0 (maxResults props)
                 (filter (userMatches searchQuery) items))
        end
  end.

(** [resultsSet.add(user)] *)
Definition set_add (user : User) (resultsSet : list User) : list User :=
  if existsb (fun u => Nat.eqb (ref u) (ref user)) resultsSet then resultsSet
  else resultsSet ++ [user].

Definition performLocalSearch (recent : JsMap.t (list User))
    (searchQuery : string) : list User :=
  let resultsSet :=
    fold_left
      (fun acc users =>
         fold_left
           (fun acc user =>
              if userMatches searchQuery user then set_add user acc else acc)
           users acc)
      (JsMap.values recent) [] in
  slice0 (maxResults props) resultsSet.

Definition updateStats (src : Source) (w : World) : World :=
  setSearchStats
    (fun prev =>
       match src with
       | src_api =>
           mkSearchStats (apiCalls prev + 1) (cacheHits prev)
             (localSearches prev)
       | src_cache =>
           mkSearchStats (apiCalls prev) (cacheHits prev + 1)
             (localSearches prev)
       | src_local =>
           mkSearchStats (apiCalls prev) (cacheHits prev)
             (localSearches prev + 1)
       | src_rate_limited => prev
       end) w.

(** The write to [recentSearchesRef.current] in [performSearch]. *)
Definition history_write (trimmedQuery : string) (items : list User)
    (recent : JsMap.t (list User)) : JsMap.t (list User) :=
  let recent := JsMap.set trimmedQuery items recent in
  if JsMap.size recent >? 20 then
    match JsMap.keys recent with
    | [] => recent
    | firstKey :: _ =>
        if JsString.truthy firstKey then JsMap.delete firstKey recent
        else recent
    end
  else recent.

(** [performSearch] from the point where [strategy.execute] has settled:
    the rest of the [try] block on a result, the [catch] clause on a thrown
    value, then the [finally] clause. *)
Definition performSearch_finish (currentMode : SearchMode)
    (trimmedQuery : string) (o : JsError + SearchResult User) (w : World)
  : World :=
  let w :=
    match o with
    | inr result =>
        if negb (SearchMode_eqb (currentStrategyRef w) currentMode) then w
        else
          let w :=
            setApiResult
              (fun prev =>
                 mkApiResult (isLoading prev) (or_null (error result))
                   (data result) (isDropdownOpen prev)) w in
          let w := updateStats (source result) w in
          let w :=
            if (0 <? List.length (data result))%nat then
              with_recentSearches
                (history_write trimmedQuery (data result) (recentSearches w))
                w
            else w in
          setApiResult
            (fun prev =>
               mkApiResult (isLoading prev) (api_error prev) (results prev)
                 true) w
    | inl e =>
        if (instanceofError e
            && negb (String.eqb (err_name e) "AbortError"))%bool then
          setApiResult
            (fun prev =>
               mkApiResult (isLoading prev)
                 (Some "An unexpected error occurred"%string)
                 (results prev) (isDropdownOpen prev)) w
        else w
    end in
  setApiResult
    (fun prev =>
       mkApiResult false (api_error prev) (results prev)
         (isDropdownOpen prev)) w.

Definition strategy_execute (mode : SearchMode) (trimmedQuery : string)
    (now : Z) (w : World) : Pending (SearchResult User) * World :=
  let (p, s) :=
    Strategy.execute (cacheDuration props) (rateLimit props)
      (rateLimitWindow props) mode (performLocalSearch (recentSearches w))
      trimmedQuery now (shared w) in
  (p, with_shared s w).

Definition strategy_resume (caller : Caller) (trimmedQuery : string)
    (o : ApiOutcome User) (now : Z) (w : World)
  : SearchResult User * World :=
  let (r, s) :=
    Strategy.execute_resume (maxCacheSize props) caller
      (performLocalSearch (recentSearches w)) trimmedQuery o now (shared w) in
  (r, with_shared s w).

(** The handlers that [handleKeyDown] chains on [performApiSearch(q)]. *)
Definition submit_resume (q : string) (o : ApiOutcome User) (now : Z)
    (w : World) : World :=
  let w :=
    match o with
    | Resolved items =>
        let s := Strategy.limiter_record now (shared w) in
        let s := Strategy.cache_set (maxCacheSize props) q items now s in
        let w := with_shared s w in
        let w :=
          setApiResult
            (fun prev => mkApiResult (isLoading prev) None items true) w in
        updateStats src_api w
    | Rejected e =>
        if negb (String.eqb (err_name e) "AbortError") then
          setApiResult
            (fun prev =>
               mkApiResult (isLoading prev)
                 (Some "Search failed. Please try again."%string)
                 (results prev) (isDropdownOpen prev)) w
        else w
    end in
  setApiResult
    (fun prev =>
       mkApiResult false (api_error prev) (results prev)
         (isDropdownOpen prev)) w.

(** A suspended chain goes on with the outcome of its remote call. *)
Definition resume_task (t : Task) (o : ApiOutcome User) (now : Z)
    (w : World) : World :=
  match t with
  | TaskSearch caller currentMode trimmedQuery =>
      let (result, w) := strategy_resume caller trimmedQuery o now w in
      performSearch_finish currentMode trimmedQuery (inr result) w
  | TaskSubmit q => submit_resume q o now w
  end.

(** [abortControllerRef.current?.abort()]. A fetch still in flight on that
    controller rejects with [AbortError]; its chain runs in microtasks,
    before any other event, and the callers of [abort] make no modelled
    update between the call and the end of their segment that the chain
    reads, so the chain is run here. Aborting a settled fetch does
    nothing. *)
Definition abort (now : Z) (w : World) : World :=
  match abortControllerRef w with
  | None => w
  | Some n =>
      match find_task n (inflight w) with
      | None => w
      | Some t =>
          resume_task t (Rejected AbortError) now
            (with_fetches (abortControllerRef w) (nextController w)
               (remove_task n (inflight w)) w)
      end
  end.

(** [performApiSearch] up to [await fetch(...)], called on behalf of the
    chain [t]. *)
Definition performApiSearch (t : Task) (now : Z) (w : World) : World :=
  let w := abort now w in
  let n := nextController w in
  with_fetches (Some n) (S n) ((n, t) :: inflight w) w.

Definition performSearch (searchQuery : string) (currentMode : SearchMode)
    (now : Z) (w : World) : World :=
  let trimmedQuery := JsString.trim searchQuery in
  if (negb (JsString.truthy trimmedQuery)
      || (JsString.strlen trimmedQuery <? minQueryLength props))%bool then
    setApiResult
      (fun prev => mkApiResult (isLoading prev) None [] (isDropdownOpen prev))
      w
  else
    let w :=
      setApiResult
        (fun prev =>
           mkApiResult true None (results prev) (isDropdownOpen prev)) w in
    match strategy_execute currentMode trimmedQuery now w with
    | (Ready result, w) =>
        performSearch_finish currentMode trimmedQuery (inr result) w
    | (AwaitApi q caller, w) =>
        performApiSearch (TaskSearch caller currentMode q) now w
    end.

(** The callback returned by [useDebounce]: the pending timer, if any, is
    replaced. *)
Definition debouncedSearch (q : string) (mode : SearchMode) (w : World)
  : World :=
  with_timer (Some (q, mode)) w.

Definition handleInputChange (newQuery : string) (now : Z) (w : World)
  : World :=
  let w := setQuery newQuery w in
  let w :=
    setApiResult
      (fun prev =>
         mkApiResult (isLoading prev) None (results prev)
           (isDropdownOpen prev)) w in
  let trimmedQuery := JsString.trim newQuery in
  if negb (JsString.truthy trimmedQuery) then
    setApiResult
      (fun prev => mkApiResult (isLoading prev) (api_error prev) [] false) w
  else if SearchMode_eqb (searchMode w) manual then
    if JsString.strlen trimmedQuery >=? minQueryLength props then
      performSearch trimmedQuery (searchMode w) now w
    else
      setApiResult
        (fun prev =>
           mkApiResult (isLoading prev) (api_error prev) []
             (isDropdownOpen prev)) w
  else
    let w :=
      setApiResult
        (fun prev =>
           mkApiResult true (api_error prev) (results prev)
             (isDropdownOpen prev)) w in
    debouncedSearch newQuery (searchMode w) w.

(** [handleSelect]: of the modelled state only [query] changes (the updater
    adds two properties that nothing reads). *)
Definition handleSelect (user : User) (w : World) : World :=
  setQuery (name user) w.

(** [handleKeyDown] for the Enter key. *)
Definition handleKeyDown_Enter (now : Z) (w : World) : World :=
  if (SearchMode_eqb (searchMode w) manual
      && (JsString.strlen (JsString.trim (query w))
          >=? minQueryLength props))%bool then
    let w :=
      setApiResult
        (fun prev =>
           mkApiResult false (api_error prev) (results prev)
             (isDropdownOpen prev)) w in
    performApiSearch (TaskSubmit (JsString.trim (query w))) now w
  else
    match results (apiResult w) with
    | first :: _ => handleSelect first w
    | [] => w
    end.

Definition clearSearch (now : Z) (w : World) : World :=
  let w := setQuery EmptyString w in
  let w := setApiResult (fun prev => mkApiResult false None [] false) w in
  abort now w.

(** [handleStrategyChange]. The effect that copies [searchMode] into
    [currentStrategyRef] is taken to have run before the chain of the
    aborted fetch reads the ref. *)
Definition handleStrategyChange (mode : SearchMode) (now : Z) (w : World)
  : World :=
  let w := with_mode mode w in
  let w := abort now w in
  setApiResult
    (fun prev =>
       mkApiResult false (api_error prev) (results prev)
         (isDropdownOpen prev)) w.

(** What can happen to a mounted component. *)
Inductive Event : Type :=
| InputChange (value : string)
| DebounceFire
| KeyEnter
| ClearSearch
| StrategyChange (mode : SearchMode)
| FetchSettled (n : nat) (o : FetchOutcome).

Definition step (now : Z) (ev : Event) (w : World) : World :=
  match ev with
  | InputChange value => handleInputChange value now w
  | DebounceFire =>
      match debounceTimer w with
      | None => w
      | Some (q, mode) => performSearch q mode now (with_timer None w)
      end
  | KeyEnter => handleKeyDown_Enter now w
  | ClearSearch => clearSearch now w
  | StrategyChange mode => handleStrategyChange mode now w
  | FetchSettled n o =>
      match find_task n (inflight w) with
      | None => w
      | Some t =>
          resume_task t (performApiSearch_resume (task_query t) o) now
            (with_fetches (abortControllerRef w) (nextController w)
               (remove_task n (inflight w)) w)
      end
  end.

(** A run: timed events, oldest first. *)
Fixpoint run (evs : list (Z * Event)) (w : World) : World :=
  match evs with
  | [] => w
  | (now, ev) :: evs' => run evs' (step now ev w)
  end.

(** The worlds a mounted component can be in. *)
Inductive reachable : World -> Prop :=
| reachable_init : reachable initialWorld
| reachable_step (now : Z) (ev : Event) (w : World) :
    reachable w -> reachable (step now ev w).

End Component.

(* ------------------------------------------------------------------------ *)
(** ** Notions used in the statements                                         *)
(* ------------------------------------------------------------------------ *)

(** The timestamps that survive [cleanup]: those after the cutoff. *)
Definition retained (windowMs now : Z) (requests : list Z) : list Z :=
  filter (fun t => now - windowMs <? t) requests.

(** Every key of the map is a non-empty string. *)
Definition keys_truthy {T : Type} (cache : SearchCache.t (T := T)) : Prop :=
  Forall (fun k => JsString.truthy k = true) (JsMap.keys cache).

(** The calls a client can make on the object that [createSearchCache]
    returns. *)
Inductive CacheCall (T : Type) : Type :=
| CallGet (query : string)
| CallSet (query : string) (items : list T)
| CallFuzzyMatch (query : string)
| CallClear.
Arguments CallGet {T}.
Arguments CallSet {T}.
Arguments CallFuzzyMatch {T}.
Arguments CallClear {T}.

Definition cache_call {T : Type} (duration maxSize now : Z)
    (c : CacheCall T) (cache : SearchCache.t (T := T)) : SearchCache.t :=
  match c with
  | CallGet query => snd (SearchCache.get duration query now cache)
  | CallSet query items => SearchCache.set maxSize query items now cache
  | CallFuzzyMatch _ => cache
  | CallClear => SearchCache.clear cache
  end.

(** Timed calls, oldest first. *)
Fixpoint cache_calls {T : Type} (duration maxSize : Z)
    (cs : list (Z * CacheCall T)) (cache : SearchCache.t (T := T))
  : SearchCache.t :=
  match cs with
  | [] => cache
  | (now, c) :: cs' =>
      cache_calls duration maxSize cs' (cache_call duration maxSize now c cache)
  end.

(** No [set] of the sequence uses the empty string as its key. *)
Definition sets_nonempty {T : Type} (cs : list (Z * CacheCall T)) : Prop :=
  Forall
    (fun nc =>
       match snd nc with
       | CallSet query _ => JsString.truthy query = true
       | _ => True
       end) cs.

(** Props of a mounted component that accepts the empty query on submit:
    [minQueryLength] 0, a cache of one entry, manual mode. *)
Definition propsEmptySubmit : Props :=
  {| debounceMs := 300;
     minQueryLength := 0;
     maxResults := 50;
     defaultStrategy := manual;
     rateLimit := 60;
     rateLimitWindow := 60000;
     cacheDuration := 5 * 60 * 1000;
     maxCacheSize := 1;
     searchFields := [key_name; key_email] |}.

(** The bookkeeping of remote calls: current controller, next controller
    number and the fetches in flight. *)
Definition fetches (w : World) : option nat * nat * list (nat * Task) :=
  (abortControllerRef w, nextController w, inflight w).

(** The part of the world that no promise chain changes when it resumes. *)
Definition control (w : World)
  : SearchMode * SearchMode * option (string * SearchMode)
    * (option nat * nat * list (nat * Task)) :=
  (searchMode w, currentStrategyRef w, debounceTimer w, fetches w).

(** At most one fetch is in flight, and it is the one of the current
    controller. *)
Definition single_flight (w : World) : Prop :=
  inflight w = []
  \/ exists n t, inflight w = [(n, t)] /\ abortControllerRef w = Some n.

Definition alice : User :=
  mkUser 1 1 "Alice Smith" "alice@example.com" (mkCompany "Acme").

Definition propsWith (mode : SearchMode) (limit : Z) : Props :=
  {| debounceMs := 300;
     minQueryLength := 2;
     maxResults := 50;
     defaultStrategy := mode;
     rateLimit := limit;
     rateLimitWindow := 60000;
     cacheDuration := 5 * 60 * 1000;
     maxCacheSize := 50;
     searchFields := [key_name; key_email] |}.

(* ------------------------------------------------------------------------ *)
(** ** [FilterPanel] and [Table] (first two documents of the file)            *)
(* ------------------------------------------------------------------------ *)

(** The value of a property of a table row, as far as [===] against a
    string can tell. *)
Inductive JsValue : Type :=
| VString (s : string)
| VNumber (n : Z)
| VOther.

(** A [Filters] object: its own properties in insertion order (the keys of
    the interface are names, none of them an array index, so no property is
    moved to the front). A property that is present but [undefined] behaves
    like the empty string in everything below (both are falsy) and is not
    modelled apart. *)
Definition Filters : Type := JsMap.t string.

(** A row of [data]: own properties only; an inherited property is never a
    string, so it compares like a missing one. *)
Definition Item : Type := JsMap.t JsValue.

(** [item[key] === value] *)
Definition strictEqualsString (v : option JsValue) (value : string) : bool :=
  match v with
  | Some (VString s) => String.eqb s value
  | _ => false
  end.

(** The callback of [data.filter] in [Table]. *)
Definition rowMatches (appliedFilters : Filters) (item : Item) : bool :=
  forallb
    (fun kv =>
       if negb (JsString.truthy (snd kv)) then true
       else strictEqualsString (JsMap.get (fst kv) item) (snd kv))
    appliedFilters.

Definition filteredData (appliedFilters : Filters) (rows : list Item)
  : list Item :=
  filter (rowMatches appliedFilters) rows.

(** The context value and the local state of [FilterPanel]. *)
Record FilterState : Type := mkFilterState
{ appliedFilters : Filters;
  localFilters : Filters }.

Definition handleApply (st : FilterState) : FilterState :=
  mkFilterState (localFilters st) (localFilters st).

Definition handleDelete (key : string) (st : FilterState) : FilterState :=
  let updated := JsMap.delete key (appliedFilters st) in
  mkFilterState updated updated.

(** The [onChange] handler of the category dropdown. *)
Definition selectCategory (value : string) (st : FilterState) : FilterState :=
  mkFilterState (appliedFilters st)
    (JsMap.set "category"%string value (localFilters st)).

(* ------------------------------------------------------------------------ *)
(** ** Further notions used in the statements                                 *)
(* ------------------------------------------------------------------------ *)

(** The list holds at most [m] users. *)
Definition within (m : Z) (items : list User) : Prop :=
  Z.of_nat (List.length items) <= m.

(** The shown results, every cached list and every remembered list hold at
    most [maxResults] users. *)
Definition lists_within (props : Props) (w : World) : Prop :=
  within (maxResults props) (results (apiResult w))
  /\ Forall (fun e => within (maxResults props) (entry_data e))
       (JsMap.values (Strategy.cache (shared w)))
  /\ Forall (within (maxResults props)) (JsMap.values (recentSearches w)).

(** The local history has at most 20 entries, none under the empty key, and
    every search in flight is for a non-empty query. *)
Definition history_kept (w : World) : Prop :=
  Forall (fun k => JsString.truthy k = true) (JsMap.keys (recentSearches w))
  /\ JsMap.size (recentSearches w) <= 20
  /\ Forall
       (fun nt =>
          match snd nt with
          | TaskSearch _ _ q => JsString.truthy q = true
          | TaskSubmit _ => True
          end) (inflight w).

(** The event is not a fetch settling with a good response (the only event
    after which [cache.set] runs). *)
Definition stores_nothing (ev : Event) : Prop :=
  match ev with
  | FetchSettled _ (FetchResponse true _ (inr _)) => False
  | _ => True
  end.

(** Each event of the run happens no later than [duration] ms after
    [since] and stores nothing in the cache. *)
Definition quiet_run (since duration : Z) (evs : list (Z * Event)) : Prop :=
  Forall (fun te => fst te - since <= duration /\ stores_nothing (snd te))
    evs.

(** One event changes the statistics by at most one count of one counter. *)
Definition stats_step (s s' : SearchStats) : Prop :=
  s' = s
  \/ s' = mkSearchStats (apiCalls s + 1) (cacheHits s) (localSearches s)
  \/ s' = mkSearchStats (apiCalls s) (cacheHits s + 1) (localSearches s)
  \/ s' = mkSearchStats (apiCalls s) (cacheHits s) (localSearches s + 1).

(** No counter has gone down. *)
Definition stats_le (s s' : SearchStats) : Prop :=
  (apiCalls s <= apiCalls s')%nat
  /\ (cacheHits s <= cacheHits s')%nat
  /\ (localSearches s <= localSearches s')%nat.

(** The state of the component apart from the fetch bookkeeping. *)
Definition modes (w : World)
  : SearchMode * SearchMode * option (string * SearchMode) :=
  (searchMode w, currentStrategyRef w, debounceTimer w).

(** The spinner is switched on: the update that [performSearch] makes before
    it calls the strategy. *)
Definition loading (w : World) : World :=
  setApiResult
    (fun prev => mkApiResult true None (results prev) (isDropdownOpen prev))
    w.

(* ======================================================================== *)
(** * Properties                                                              *)
(* ======================================================================== *)

Ltac case_branches :=
  repeat match goal with
    | |- context [if ?b then _ else _] => destruct b
    | |- context [match ?x with _ => _ end] => destruct x
    end.


(* ------------------------------------------------------------------------ *)
(** ** Insertion-ordered maps                                                 *)
(* ------------------------------------------------------------------------ *)

Section JsMapFacts.
Context {V : Type}.
Implicit Types (m : JsMap.t V) (k : string) (v : V).

Lemma JsMap_get_In_keys k v m :
  JsMap.get k m = Some v -> In k (JsMap.keys m).
Proof.
  induction m as [|[k' v'] m IH]; simpl; [discriminate|].
  destruct (String.eqb_spec k k') as [->|Hne]; auto.
Qed.

Lemma JsMap_get_not_In k m :
  ~ In k (JsMap.keys m) -> JsMap.get k m = None.
Proof.
  induction m as [|[k' v'] m IH]; simpl; [reflexivity|].
  intros Hn. destruct (String.eqb_spec k k') as [->|Hne].
  - exfalso. apply Hn. now left.
  - apply IH. intros Hin. apply Hn. now right.
Qed.

Lemma JsMap_keys_delete_incl k m :
  incl (JsMap.keys (JsMap.delete k m)) (JsMap.keys m).
Proof.
  induction m as [|[k' v'] m IH]; simpl; [apply incl_refl|].
  destruct (String.eqb k k').
  - apply incl_tl, incl_refl.
  - simpl. apply incl_cons; [now left|]. now apply incl_tl.
Qed.

Lemma JsMap_wf_delete k m : JsMap.wf m -> JsMap.wf (JsMap.delete k m).
Proof.
  unfold JsMap.wf.
  induction m as [|[k' v'] m IH]; simpl; intros Hwf; [assumption|].
  inversion Hwf as [|? ? Hnin Hnd]; subst.
  destruct (String.eqb k k'); [assumption|].
  simpl. constructor; [|now apply IH].
  intros Hin. apply Hnin. now apply (JsMap_keys_delete_incl k m).
Qed.

Lemma JsMap_get_delete_same k m :
  JsMap.wf m -> JsMap.get k (JsMap.delete k m) = None.
Proof.
  unfold JsMap.wf.
  induction m as [|[k' v'] m IH]; simpl; intros Hwf; [reflexivity|].
  inversion Hwf as [|? ? Hnin Hnd]; subst.
  destruct (String.eqb_spec k k') as [->|Hne].
  - now apply JsMap_get_not_In.
  - simpl. destruct (String.eqb_spec k k'); [contradiction|]. now apply IH.
Qed.

Lemma JsMap_get_delete_other k k' m :
  k <> k' -> JsMap.get k' (JsMap.delete k m) = JsMap.get k' m.
Proof.
  intros Hne. induction m as [|[k0 v0] m IH]; simpl; [reflexivity|].
  destruct (String.eqb_spec k k0) as [->|Hne0].
  - destruct (String.eqb_spec k' k0) as [->|]; [congruence|reflexivity].
  - simpl. now rewrite IH.
Qed.

Lemma JsMap_delete_length k v m :
  JsMap.get k m = Some v ->
  S (List.length (JsMap.delete k m)) = List.length m.
Proof.
  induction m as [|[k' v'] m IH]; simpl; [discriminate|].
  destruct (String.eqb k k'); [reflexivity|].
  intros Hg. simpl. now rewrite IH.
Qed.

Lemma JsMap_delete_length_le k m :
  (List.length (JsMap.delete k m) <= List.length m)%nat.
Proof.
  induction m as [|[k' v'] m IH]; simpl; [lia|].
  destruct (String.eqb k k'); simpl; lia.
Qed.

Lemma JsMap_get_set_same k v m : JsMap.get k (JsMap.set k v m) = Some v.
Proof.
  induction m as [|[k' v'] m IH]; simpl.
  - now rewrite String.eqb_refl.
  - destruct (String.eqb_spec k k') as [->|Hne]; simpl.
    + now rewrite String.eqb_refl.
    + destruct (String.eqb_spec k k'); [contradiction|assumption].
Qed.

Lemma JsMap_set_length k v m :
  List.length (JsMap.set k v m)
  = match JsMap.get k m with
    | Some _ => List.length m
    | None => S (List.length m)
    end.
Proof.
  induction m as [|[k' v'] m IH]; simpl; [reflexivity|].
  destruct (String.eqb k k'); simpl; [reflexivity|].
  rewrite IH. now destruct (JsMap.get k m).
Qed.

Lemma JsMap_keys_set k v m :
  JsMap.keys (JsMap.set k v m)
  = match JsMap.get k m with
    | Some _ => JsMap.keys m
    | None => JsMap.keys m ++ [k]
    end.
Proof.
  induction m as [|[k' v'] m IH]; simpl; [reflexivity|].
  destruct (String.eqb_spec k k') as [->|Hne]; simpl; [reflexivity|].
  rewrite IH. now destruct (JsMap.get k m).
Qed.

Lemma JsMap_wf_set k v m : JsMap.wf m -> JsMap.wf (JsMap.set k v m).
Proof.
  unfold JsMap.wf. intros Hwf. rewrite JsMap_keys_set.
  destruct (JsMap.get k m) eqn:Hg; [assumption|].
  apply NoDup_app; [assumption|repeat constructor; intros []|].
  intros x Hx [Hk|[]]. subst x.
  assert (Hex : exists v0, JsMap.get k m = Some v0).
  { clear Hg Hwf. induction m as [|[k' v'] m IH]; simpl in *; [easy|].
    destruct (String.eqb_spec k k'); [eauto|].
    destruct Hx as [Hx|Hx]; [congruence|auto]. }
  destruct Hex as [v0 Hv0]. congruence.
Qed.

End JsMapFacts.

(* ------------------------------------------------------------------------ *)
(** ** The rate limiter                                                       *)
(* ------------------------------------------------------------------------ *)

Lemma firstn_snoc_nth (i : nat) (xs : list Z) :
  (i < List.length xs)%nat ->
  firstn (S i) xs = firstn i xs ++ [nth i xs 0].
Proof.
  revert i. induction xs as [|x xs IH]; intros i Hi; cbn [List.length] in Hi.
  - lia.
  - destruct i as [|i]; [reflexivity|].
    cbn [firstn nth app]. f_equal. apply IH. lia.
Qed.

Lemma skipn_cons_nth (i : nat) (xs : list Z) :
  (i < List.length xs)%nat ->
  skipn i xs = nth i xs 0 :: skipn (S i) xs.
Proof.
  revert i. induction xs as [|x xs IH]; intros i Hi; cbn [List.length] in Hi.
  - lia.
  - destruct i as [|i]; [reflexivity|].
    cbn [skipn nth]. apply IH. lia.
Qed.

Lemma splice1_firstn (i : nat) (xs : list Z) :
  (i < List.length xs)%nat ->
  firstn i (RateLimiter.splice1 i xs) = firstn i xs
  /\ skipn i (RateLimiter.splice1 i xs) = skipn (S i) xs
  /\ (i <= List.length (RateLimiter.splice1 i xs))%nat.
Proof.
  intros Hi. unfold RateLimiter.splice1.
  assert (Hlen : List.length (firstn i xs) = i)
    by (rewrite length_firstn; lia).
  repeat split.
  - rewrite firstn_app, Hlen, Nat.sub_diag, firstn_O, app_nil_r.
    rewrite <- Hlen at 1. apply firstn_all.
  - rewrite skipn_app, Hlen, Nat.sub_diag. cbn [skipn].
    rewrite <- Hlen at 1. now rewrite skipn_all.
  - rewrite length_app, Hlen. lia.
Qed.

Lemma cleanup_loop_filter cutoff n requests :
  (n <= List.length requests)%nat ->
  RateLimiter.cleanup_loop cutoff n requests
  = filter (fun t => cutoff <? t) (firstn n requests) ++ skipn n requests.
Proof.
  revert requests. induction n as [|i IH]; intros requests Hn.
  - reflexivity.
  - cbn [RateLimiter.cleanup_loop].
    rewrite (firstn_snoc_nth i requests) by lia.
    rewrite filter_app. cbn [filter].
    destruct (Z.leb_spec (nth i requests 0) cutoff) as [Hle|Hgt].
    + destruct (splice1_firstn i requests) as (Hf & Hs & Hl); [lia|].
      rewrite IH by exact Hl. rewrite Hf, Hs.
      destruct (Z.ltb_spec cutoff (nth i requests 0)); [lia|].
      now rewrite app_nil_r.
    + rewrite IH by lia. rewrite (skipn_cons_nth i requests) by lia.
      destruct (Z.ltb_spec cutoff (nth i requests 0)); [|lia].
      now rewrite <- app_assoc.
Qed.

Lemma cleanup_retained windowMs now requests :
  RateLimiter.cleanup windowMs now requests = retained windowMs now requests.
Proof.
  unfold RateLimiter.cleanup, retained.
  rewrite cleanup_loop_filter by lia.
  now rewrite firstn_all, skipn_all, app_nil_r.
Qed.

Lemma retained_idempotent windowMs now requests :
  retained windowMs now (retained windowMs now requests)
  = retained windowMs now requests.
Proof.
  unfold retained. induction requests as [|x xs IH]; simpl; [reflexivity|].
  destruct (now - windowMs <? x) eqn:E; simpl; [rewrite E|]; now rewrite ?IH.
Qed.

Lemma isLimited_retained limit windowMs now requests :
  RateLimiter.isLimited limit windowMs now requests
  = (Z.of_nat (List.length (retained windowMs now requests)) >=? limit,
     retained windowMs now requests).
Proof. unfold RateLimiter.isLimited. now rewrite cleanup_retained. Qed.

(** C7. With limit 3 and a window of 1000 ms, three [record()] calls at
    t=0 make [isLimited()] true at t=500 and false at t=1500. In general
    [isLimited()] first drops every timestamp at or before [now - windowMs],
    keeps the others in order, and answers true exactly when the number
    kept is at least the limit. *)
Theorem C7_rate_limiter_sliding_window :
  (let requests :=
     RateLimiter.record 0 (RateLimiter.record 0 (RateLimiter.record 0 [])) in
   fst (RateLimiter.isLimited 3 1000 500 requests) = true
   /\ fst (RateLimiter.isLimited 3 1000 1500 requests) = false)
  /\ (forall limit windowMs now requests,
        RateLimiter.isLimited limit windowMs now requests
        = (Z.of_nat (List.length (retained windowMs now requests)) >=? limit,
           retained windowMs now requests))
  /\ (forall limit windowMs now requests,
        fst (RateLimiter.isLimited limit windowMs now requests) = true
        <-> limit <= Z.of_nat (List.length (retained windowMs now requests))).
Proof.
  split; [split; reflexivity|].
  split; [exact isLimited_retained|].
  intros. rewrite isLimited_retained. simpl. rewrite Z.geb_le. reflexivity.
Qed.

(* ------------------------------------------------------------------------ *)
(** ** The result cache                                                       *)
(* ------------------------------------------------------------------------ *)

Section CacheFacts.
Context {T : Type}.
Implicit Types (cache : SearchCache.t (T := T)) (entry : CacheEntry T).

Lemma cache_get_fresh duration query now cache entry :
  JsMap.get query cache = Some entry ->
  now - entry_timestamp entry <= duration ->
  SearchCache.get duration query now cache = (Some (entry_data entry), cache).
Proof.
  intros Hg Hle. unfold SearchCache.get, SearchCache.expired. rewrite Hg.
  destruct (Z.gtb_spec (now - entry_timestamp entry) duration); [lia|].
  reflexivity.
Qed.

Lemma cache_get_stale duration query now cache entry :
  JsMap.get query cache = Some entry ->
  now - entry_timestamp entry > duration ->
  SearchCache.get duration query now cache
  = (None, JsMap.delete query cache).
Proof.
  intros Hg Hgt. unfold SearchCache.get, SearchCache.expired. rewrite Hg.
  destruct (Z.gtb_spec (now - entry_timestamp entry) duration); [|lia].
  reflexivity.
Qed.

Lemma cache_get_size duration query now cache :
  SearchCache.size (snd (SearchCache.get duration query now cache))
  <= SearchCache.size cache.
Proof.
  unfold SearchCache.get, SearchCache.size, JsMap.size.
  destruct (JsMap.get query cache) as [entry|]; [|simpl; lia].
  destruct (SearchCache.expired duration now entry); simpl; [|lia].
  pose proof (JsMap_delete_length_le query cache). lia.
Qed.

Lemma cache_get_wf duration query now cache :
  JsMap.wf cache -> JsMap.wf (snd (SearchCache.get duration query now cache)).
Proof.
  intros Hwf. unfold SearchCache.get.
  destruct (JsMap.get query cache) as [entry|]; [|assumption].
  destruct (SearchCache.expired duration now entry); simpl; [|assumption].
  now apply JsMap_wf_delete.
Qed.

Lemma keys_truthy_delete k cache :
  keys_truthy cache -> keys_truthy (JsMap.delete k cache).
Proof.
  unfold keys_truthy. rewrite !Forall_forall. intros H x Hx.
  apply H. now apply (JsMap_keys_delete_incl k cache).
Qed.

Lemma keys_truthy_set k entry cache :
  JsString.truthy k = true ->
  keys_truthy cache -> keys_truthy (JsMap.set k entry cache).
Proof.
  unfold keys_truthy. intros Hk H. rewrite JsMap_keys_set.
  destruct (JsMap.get k cache); [assumption|].
  apply Forall_app. split; [assumption|]. now constructor.
Qed.

(** With non-empty keys only, a full cache loses its oldest entry in
    [evict]. *)
Lemma evict_makes_room maxSize cache :
  1 <= maxSize ->
  keys_truthy cache ->
  SearchCache.size cache <= maxSize ->
  SearchCache.size (SearchCache.evict maxSize cache) <= maxSize - 1
  /\ keys_truthy (SearchCache.evict maxSize cache).
Proof.
  intros Hmax Hkeys Hsize. unfold SearchCache.evict, SearchCache.size in *.
  destruct (Z.geb_spec (JsMap.size cache) maxSize) as [Hfull|Hroom].
  - destruct cache as [|[k entry] cache'].
    + unfold JsMap.size in *. simpl in *. lia.
    + cbn [JsMap.keys map fst]. unfold keys_truthy in Hkeys.
      cbn [JsMap.keys map fst] in Hkeys.
      inversion Hkeys as [|? ? Hk Hrest]; subst. rewrite Hk.
      cbn [JsMap.delete]. rewrite String.eqb_refl.
      split; [|exact Hrest].
      unfold JsMap.size in *. cbn [List.length] in *. lia.
  - split; [lia|assumption].
Qed.

(** The bound of the cache holds as long as no key is the empty string. *)
Lemma cache_set_bound_nonempty_keys maxSize query items now cache :
  1 <= maxSize ->
  JsString.truthy query = true ->
  keys_truthy cache ->
  SearchCache.size cache <= maxSize ->
  SearchCache.size (SearchCache.set maxSize query items now cache) <= maxSize
  /\ keys_truthy (SearchCache.set maxSize query items now cache).
Proof.
  intros Hmax Hq Hkeys Hsize.
  destruct (evict_makes_room maxSize cache Hmax Hkeys Hsize) as [Hroom Hk'].
  unfold SearchCache.set. split; [|now apply keys_truthy_set].
  unfold SearchCache.size, JsMap.size in *. rewrite JsMap_set_length.
  destruct (JsMap.get query (SearchCache.evict maxSize cache)); lia.
Qed.

Lemma cache_call_bound_nonempty_keys duration maxSize now
    (c : CacheCall T) cache :
  1 <= maxSize ->
  match c with
  | CallSet query _ => JsString.truthy query = true
  | _ => True
  end ->
  keys_truthy cache ->
  SearchCache.size cache <= maxSize ->
  SearchCache.size (cache_call duration maxSize now c cache) <= maxSize
  /\ keys_truthy (cache_call duration maxSize now c cache).
Proof.
  intros Hmax Hc Hkeys Hsize. destruct c as [q|q items|q|]; cbn [cache_call].
  - split.
    + pose proof (cache_get_size duration q now cache). lia.
    + unfold SearchCache.get.
      destruct (JsMap.get q cache) as [entry|]; [|assumption].
      destruct (SearchCache.expired duration now entry); [|assumption].
      now apply keys_truthy_delete.
  - now apply cache_set_bound_nonempty_keys.
  - now split.
  - split; [unfold SearchCache.size, JsMap.size; simpl; lia|constructor].
Qed.

(** Starting from the empty cache, the bound holds after every call of a
    sequence whose [set] keys are all non-empty. *)
Lemma cache_calls_bound_nonempty_keys duration maxSize
    (cs : list (Z * CacheCall T)) :
  1 <= maxSize ->
  sets_nonempty cs ->
  SearchCache.size (cache_calls duration maxSize cs []) <= maxSize.
Proof.
  intros Hmax Hcs.
  assert (Hgen : forall cache,
             keys_truthy cache -> SearchCache.size cache <= maxSize ->
             SearchCache.size (cache_calls duration maxSize cs cache)
             <= maxSize).
  { induction Hcs as [|[now c] cs Hc _ IH]; intros cache Hk Hs; [exact Hs|].
    cbn [cache_calls].
    destruct (cache_call_bound_nonempty_keys duration maxSize now c cache
                Hmax Hc Hk Hs) as [Hs' Hk'].
    now apply IH. }
  apply Hgen; [constructor|].
  unfold SearchCache.size, JsMap.size. simpl. lia.
Qed.

End CacheFacts.

(** C5, as the code has it. An entry is expired once
    [now > timestamp + cacheDuration]: [get] then answers absent and removes
    the entry, so the size drops by one and a later lookup misses. At
    [now <= timestamp + cacheDuration], the boundary included, [get] answers
    the entry's data and leaves the cache as it is. *)
Theorem C5_cache_ttl_strict (T : Type) (duration now : Z) (query : string)
    (cache : SearchCache.t (T := T)) (entry : CacheEntry T) :
  JsMap.wf cache ->
  JsMap.get query cache = Some entry ->
  (now > entry_timestamp entry + duration ->
   fst (SearchCache.get duration query now cache) = None
   /\ JsMap.get query (snd (SearchCache.get duration query now cache)) = None
   /\ SearchCache.size (snd (SearchCache.get duration query now cache))
      = SearchCache.size cache - 1)
  /\ (now <= entry_timestamp entry + duration ->
      SearchCache.get duration query now cache
      = (Some (entry_data entry), cache)).
Proof.
  intros Hwf Hg. split.
  - intros Hgt. rewrite (cache_get_stale duration query now cache entry Hg)
      by lia.
    cbn [fst snd]. repeat split.
    + now apply JsMap_get_delete_same.
    + unfold SearchCache.size, JsMap.size.
      rewrite <- (JsMap_delete_length query entry cache Hg). lia.
  - intros Hle. apply cache_get_fresh; [assumption|lia].
Qed.

(** C5 on a cache holding one entry written at t=0, with a duration of
    100 ms: expired at t=101, still served at t=100. *)
Lemma C5_cache_ttl_strict_witness :
  let cache := SearchCache.set 50 "q"%string [7%nat] 0 [] in
  (fst (SearchCache.get 100 "q"%string 101 cache) = None
   /\ JsMap.get "q"%string (snd (SearchCache.get 100 "q"%string 101 cache))
      = None
   /\ SearchCache.size (snd (SearchCache.get 100 "q"%string 101 cache))
      = SearchCache.size cache - 1)
  /\ SearchCache.get 100 "q"%string 100 cache = (Some [7%nat], cache).
Proof.
  cbv zeta.
  assert (Hwf : JsMap.wf (SearchCache.set 50 "q"%string [7%nat] 0 [])).
  { repeat constructor. intros []. }
  split.
  - refine (proj1 (C5_cache_ttl_strict nat 100 101 "q"%string
                     (SearchCache.set 50 "q"%string [7%nat] 0 [])
                     (mkCacheEntry [7%nat] 0) Hwf eq_refl) _).
    simpl. lia.
  - refine (proj2 (C5_cache_ttl_strict nat 100 100 "q"%string
                     (SearchCache.set 50 "q"%string [7%nat] 0 [])
                     (mkCacheEntry [7%nat] 0) Hwf eq_refl) _).
    simpl. lia.
Defined.

(** C5 as stated fails at the boundary: an entry written at t=0 with a
    duration of 100 ms is still returned by [get] at t=100, where
    [now >= timestamp + cacheDuration] holds. *)
Lemma C5_counterexample :
  exists (cache : SearchCache.t (T := nat)) (entry : CacheEntry nat),
    JsMap.get "q"%string cache = Some entry
    /\ 100 >= entry_timestamp entry + 100
    /\ SearchCache.get 100 "q"%string 100 cache = (Some [7%nat], cache).
Proof.
  exists (SearchCache.set 50 "q"%string [7%nat] 0 []), (mkCacheEntry [7%nat] 0).
  repeat split. simpl. lia.
Qed.

(** C6, evaluated where it fails. With [maxCacheSize] 1, [set] of the empty
    key followed by [set("a", [])] leaves two entries: at capacity the
    first key is the empty string, [if (firstKey)] is false for it, and
    nothing is evicted before the insertion. The component reaches the same state with
    [minQueryLength] 0 in manual mode: Enter on the empty input caches the
    response under the empty key, and the next submitted query is cached
    beside it. (When no key is empty the bound holds after every call:
    [cache_calls_bound_nonempty_keys].) *)
Theorem C6_cache_bound_broken_by_empty_key :
  (let c1 := SearchCache.set (T := User) 1 EmptyString [] 0 [] in
   let c2 := SearchCache.set 1 "a"%string [] 1 c1 in
   SearchCache.size c1 = 1
   /\ SearchCache.evict 1 c1 = c1
   /\ SearchCache.size c2 = 2
   /\ c2
      = cache_calls 300000 1
          [(0, CallSet EmptyString []); (1, CallSet "a"%string [])] [])
  /\ (let w :=
        run propsEmptySubmit "aborted"%string
          [(0, KeyEnter);
           (100, FetchSettled 0 (FetchResponse true 200 (inr [])));
           (200, InputChange "ab"%string);
           (300, KeyEnter);
           (400, FetchSettled 1 (FetchResponse true 200 (inr [])))]
          (initialWorld propsEmptySubmit) in
      JsMap.keys (Strategy.cache (shared w)) = [EmptyString; "ab"%string]
      /\ SearchCache.size (Strategy.cache (shared w)) = 2
      /\ maxCacheSize propsEmptySubmit = 1).
Proof.
  split; [repeat split|]; vm_compute; repeat split; reflexivity.
Qed.

(* ------------------------------------------------------------------------ *)
(** ** The strategies                                                         *)
(* ------------------------------------------------------------------------ *)

Section StrategyFacts.
Context {T : Type}.
Variables duration maxSize limit windowMs : Z.
Implicit Types (s : Strategy.Shared T) (localSearch : string -> list T).

(** An expired entry is invisible to [fuzzyMatch], so the deletion that
    [get] makes on its way does not change the fuzzy lookup after it. *)
Lemma fuzzyMatch_after_get query now (cache : SearchCache.t (T := T)) :
  SearchCache.fuzzyMatch duration query now
    (snd (SearchCache.get duration query now cache))
  = SearchCache.fuzzyMatch duration query now cache.
Proof.
  unfold SearchCache.get, SearchCache.fuzzyMatch.
  destruct (JsMap.get query cache) as [entry|] eqn:Hg; [|reflexivity].
  destruct (SearchCache.expired duration now entry) eqn:Hexp; [|reflexivity].
  cbn [snd]. generalize (JsString.toLowerCase query) as lq. intros lq.
  induction cache as [|[k v] cache IH]; [reflexivity|].
  cbn [JsMap.get] in Hg. cbn [JsMap.delete].
  destruct (String.eqb query k).
  - injection Hg as ->. cbn [SearchCache.fuzzyMatch_loop]. now rewrite Hexp.
  - cbn [SearchCache.fuzzyMatch_loop]. now rewrite (IH Hg).
Qed.

Lemma tryApiSearch_limited query now s :
  fst (RateLimiter.isLimited limit windowMs now (Strategy.requests s)) = true ->
  Strategy.tryApiSearch limit windowMs query now s
  = (Ready (mkResult [] src_rate_limited
              (Some "Rate limit exceeded. Please slow down."%string)),
     Strategy.mkShared (Strategy.cache s)
       (retained windowMs now (Strategy.requests s))).
Proof.
  unfold Strategy.tryApiSearch, Strategy.limiter_isLimited.
  rewrite isLimited_retained. cbn [fst].
  now intros ->.
Qed.

(** A rejected remote call leaves the cache and the rate limiter alone,
    whichever [execute] awaited it. *)
Lemma execute_resume_rejected caller localSearch query e now s :
  snd (Strategy.execute_resume maxSize caller localSearch query
         (Rejected e) now s) = s.
Proof. destruct caller; reflexivity. Qed.

(** A resolved one is recorded at the time of resolution. *)
Lemma execute_resume_resolved caller localSearch query items now s :
  Strategy.requests
    (snd (Strategy.execute_resume maxSize caller localSearch query
            (Resolved items) now s))
  = Strategy.requests s ++ [now].
Proof. destruct caller; reflexivity. Qed.

Lemma balanced_execute_masks localSearch query now s :
  fst (SearchCache.get duration query now (Strategy.cache s)) = None ->
  SearchCache.fuzzyMatch duration query now (Strategy.cache s) = None ->
  fst (RateLimiter.isLimited limit windowMs now (Strategy.requests s)) = true ->
  localSearch query <> [] ->
  Strategy.balanced_execute duration limit windowMs localSearch query now s
  = (Ready (mkResult (localSearch query) src_local
              (Some "Showing local results (API unavailable)"%string)),
     Strategy.mkShared
       (snd (SearchCache.get duration query now (Strategy.cache s)))
       (retained windowMs now (Strategy.requests s))).
Proof.
  intros Hget Hfuzzy Hlim Hlocal.
  unfold Strategy.balanced_execute, Strategy.cache_get.
  rewrite <- (fuzzyMatch_after_get query now) in Hfuzzy.
  destruct (SearchCache.get duration query now (Strategy.cache s))
    as [got cache'] eqn:Hg.
  cbn [fst snd] in *. subst got. cbn [Strategy.cache]. rewrite Hfuzzy.
  rewrite tryApiSearch_limited by exact Hlim.
  cbn [Strategy.cache Strategy.requests].
  unfold Strategy.balanced_finish. cbn.
  destruct (localSearch query); [contradiction|reflexivity].
Qed.

Lemma conservative_execute_short localSearch query now s :
  JsString.strlen query <= 3 ->
  Strategy.conservative_execute duration limit windowMs localSearch query
    now s
  = (Ready (mkResult (localSearch query) src_local
              (if (List.length (localSearch query) =? 0)%nat
               then Some "Type more characters for API search"%string
               else None)), s).
Proof.
  intros Hshort. unfold Strategy.conservative_execute.
  destruct (Z.leb_spec (JsString.strlen query) 3); [reflexivity|lia].
Qed.

Lemma conservative_execute_cached localSearch query now s items :
  JsString.strlen query > 3 ->
  fst (SearchCache.get duration query now (Strategy.cache s)) = Some items ->
  Strategy.conservative_execute duration limit windowMs localSearch query
    now s
  = (Ready (mkResult items src_cache None), s).
Proof.
  intros Hlong Hget. unfold Strategy.conservative_execute.
  destruct (Z.leb_spec (JsString.strlen query) 3); [lia|].
  unfold Strategy.cache_get. destruct s as [cache requests].
  cbn [Strategy.cache Strategy.requests] in *.
  unfold SearchCache.get in *.
  destruct (JsMap.get query cache) as [entry|]; [|discriminate].
  destruct (SearchCache.expired duration now entry); [discriminate|].
  cbn [fst] in Hget. injection Hget as <-. reflexivity.
Qed.

End StrategyFacts.

(* ------------------------------------------------------------------------ *)
(** ** The component: what each callback leaves alone                         *)
(* ------------------------------------------------------------------------ *)

Section ComponentFacts.
Variable props : Props.
Variable abortMessage : string.

Lemma performSearch_finish_control mode q o w :
  control (performSearch_finish mode q o w) = control w
  /\ shared (performSearch_finish mode q o w) = shared w
  /\ query (performSearch_finish mode q o w) = query w.
Proof.
  unfold performSearch_finish, control, fetches.
  destruct o as [e|result]; case_branches; repeat split.
Qed.

Lemma strategy_resume_frame caller q o now w :
  control (snd (strategy_resume props caller q o now w)) = control w
  /\ recentSearches (snd (strategy_resume props caller q o now w))
     = recentSearches w
  /\ apiResult (snd (strategy_resume props caller q o now w)) = apiResult w
  /\ searchStats (snd (strategy_resume props caller q o now w))
     = searchStats w
  /\ shared (snd (strategy_resume props caller q o now w))
     = snd (Strategy.execute_resume (maxCacheSize props) caller
              (performLocalSearch props (recentSearches w)) q o now
              (shared w)).
Proof.
  unfold strategy_resume.
  destruct (Strategy.execute_resume (maxCacheSize props) caller
              (performLocalSearch props (recentSearches w)) q o now
              (shared w)) as [r s].
  repeat split.
Qed.

Lemma submit_resume_control q o now w :
  control (submit_resume props q o now w) = control w.
Proof.
  unfold submit_resume, control, fetches.
  destruct o as [items|e]; case_branches; reflexivity.
Qed.

Lemma resume_task_control t o now w :
  control (resume_task props t o now w) = control w.
Proof.
  destruct t as [caller mode q|q]; cbn [resume_task].
  - destruct (strategy_resume props caller q o now w) as [r w1] eqn:E.
    destruct (performSearch_finish_control mode q (inr r) w1) as (-> & _).
    pose proof (strategy_resume_frame caller q o now w) as (H & _).
    now rewrite E in H.
  - apply submit_resume_control.
Qed.

(** C10, the core: a chain that resumes with a rejection leaves the rate
    limiter's timestamps as they are. *)
Lemma resume_task_rejected_requests t e now w :
  Strategy.requests (shared (resume_task props t (Rejected e) now w))
  = Strategy.requests (shared w).
Proof.
  destruct t as [caller mode q|q]; cbn [resume_task].
  - destruct (strategy_resume props caller q (Rejected e) now w)
      as [r w1] eqn:E.
    destruct (performSearch_finish_control mode q (inr r) w1) as (_ & -> & _).
    pose proof (strategy_resume_frame caller q (Rejected e) now w)
      as (_ & _ & _ & _ & H).
    rewrite E in H. cbn [snd] in H. rewrite H.
    now rewrite execute_resume_rejected.
  - unfold submit_resume. case_branches; reflexivity.
Qed.

Lemma resume_task_resolved_requests t items now w :
  Strategy.requests (shared (resume_task props t (Resolved items) now w))
  = Strategy.requests (shared w) ++ [now].
Proof.
  destruct t as [caller mode q|q]; cbn [resume_task].
  - destruct (strategy_resume props caller q (Resolved items) now w)
      as [r w1] eqn:E.
    destruct (performSearch_finish_control mode q (inr r) w1) as (_ & -> & _).
    pose proof (strategy_resume_frame caller q (Resolved items) now w)
      as (_ & _ & _ & _ & H).
    rewrite E in H. cbn [snd] in H. rewrite H.
    now rewrite execute_resume_resolved.
  - reflexivity.
Qed.

Lemma abort_requests now w :
  Strategy.requests (shared (abort props abortMessage now w))
  = Strategy.requests (shared w).
Proof.
  unfold abort. destruct (abortControllerRef w) as [n|]; [|reflexivity].
  destruct (find_task n (inflight w)) as [t|]; [|reflexivity].
  now rewrite resume_task_rejected_requests.
Qed.

End ComponentFacts.

Section RequestsFacts.
Variable props : Props.
Variable abortMessage : string.

Lemma tryApiSearch_requests (T : Type) limit windowMs query now
    (s : Strategy.Shared T) :
  Strategy.requests (snd (Strategy.tryApiSearch limit windowMs query now s))
  = retained windowMs now (Strategy.requests s)
  /\ Strategy.cache (snd (Strategy.tryApiSearch limit windowMs query now s))
     = Strategy.cache s.
Proof.
  unfold Strategy.tryApiSearch, Strategy.limiter_isLimited.
  rewrite isLimited_retained.
  destruct (Z.of_nat _ >=? limit); split; reflexivity.
Qed.

(** Before its remote call a strategy at most purges old timestamps. *)
Lemma execute_requests (T : Type) duration limit windowMs mode
    (localSearch : string -> list T) query now (s : Strategy.Shared T) :
  let s' :=
    snd (Strategy.execute duration limit windowMs mode localSearch query
           now s) in
  Strategy.requests s' = Strategy.requests s
  \/ Strategy.requests s' = retained windowMs now (Strategy.requests s).
Proof.
  cbv zeta. destruct mode; cbn [Strategy.execute].
  - right. unfold Strategy.instant_execute. apply tryApiSearch_requests.
  - unfold Strategy.balanced_execute, Strategy.cache_get.
    destruct (SearchCache.get duration query now (Strategy.cache s))
      as [[cached|] c]; [now left|].
    cbn [Strategy.cache].
    destruct (SearchCache.fuzzyMatch duration query now c); [now left|].
    right.
    pose proof (tryApiSearch_requests T limit windowMs query now
                  (Strategy.mkShared c (Strategy.requests s))) as [H _].
    destruct (Strategy.tryApiSearch limit windowMs query now
                (Strategy.mkShared c (Strategy.requests s)))
      as [[r|q caller] s']; exact H.
  - unfold Strategy.conservative_execute, Strategy.cache_get.
    destruct (JsString.strlen query <=? 3); [now left|].
    destruct (SearchCache.get duration query now (Strategy.cache s))
      as [got c].
    cbn [Strategy.cache].
    destruct (match got with
              | Some items => Some items
              | None => SearchCache.fuzzyMatch duration query now c
              end); [now left|].
    right. unfold Strategy.limiter_isLimited. cbn [Strategy.requests].
    rewrite isLimited_retained.
    destruct (Z.of_nat _ >=? limit); [reflexivity|].
    rewrite (proj1 (tryApiSearch_requests T limit windowMs query now _)).
    apply retained_idempotent.
  - left. unfold Strategy.manual_execute, Strategy.cache_get.
    destruct (SearchCache.get duration query now (Strategy.cache s))
      as [[cached|] c]; reflexivity.
Qed.

Lemma performApiSearch_requests t now w :
  Strategy.requests (shared (performApiSearch props abortMessage t now w))
  = Strategy.requests (shared w).
Proof. unfold performApiSearch. cbn. apply abort_requests. Qed.

Lemma performSearch_requests q mode now w :
  let w' := performSearch props abortMessage q mode now w in
  Strategy.requests (shared w') = Strategy.requests (shared w)
  \/ Strategy.requests (shared w')
     = retained (rateLimitWindow props) now (Strategy.requests (shared w)).
Proof.
  cbv zeta. unfold performSearch.
  destruct (negb _ || _)%bool; [now left|].
  unfold strategy_execute. cbn [recentSearches shared setApiResult].
  pose proof (execute_requests User (cacheDuration props) (rateLimit props)
                (rateLimitWindow props) mode
                (performLocalSearch props (recentSearches w))
                (JsString.trim q) now (shared w)) as H.
  cbv zeta in H.
  destruct (Strategy.execute (cacheDuration props) (rateLimit props)
              (rateLimitWindow props) mode
              (performLocalSearch props (recentSearches w))
              (JsString.trim q) now (shared w)) as [[r|q' caller] s'];
    cbn [snd] in H.
  - destruct (performSearch_finish_control mode (JsString.trim q) (inr r)
                (with_shared s'
                   (setApiResult
                      (fun prev =>
                         mkApiResult true None (results prev)
                           (isDropdownOpen prev)) w))) as (_ & -> & _).
    exact H.
  - rewrite performApiSearch_requests. exact H.
Qed.

(** Only a fetch that settles with a good response adds a timestamp: every
    other event leaves the sequence as it is or purges it. *)
Lemma step_requests now ev w :
  let w' := step props abortMessage now ev w in
  Strategy.requests (shared w') = Strategy.requests (shared w)
  \/ Strategy.requests (shared w')
     = retained (rateLimitWindow props) now (Strategy.requests (shared w))
  \/ (exists n status items t,
         ev = FetchSettled n (FetchResponse true status (inr items))
         /\ find_task n (inflight w) = Some t
         /\ Strategy.requests (shared w')
            = Strategy.requests (shared w) ++ [now]).
Proof.
  cbv zeta. destruct ev as [value| | | |mode|n o]; cbn [step].
  - unfold handleInputChange.
    destruct (negb _); [now left|].
    cbn [searchMode setApiResult setQuery].
    destruct (SearchMode_eqb (searchMode w) manual); [|now left].
    destruct (_ >=? _); [|now left].
    match goal with
    | |- context [performSearch _ _ ?q ?m ?n ?w0] =>
        destruct (performSearch_requests q m n w0) as [H|H]
    end; [left|right; left]; exact H.
  - destruct (debounceTimer w) as [[q mode]|]; [|now left].
    destruct (performSearch_requests q mode now (with_timer None w))
      as [H|H]; [left|right; left]; exact H.
  - left. unfold handleKeyDown_Enter.
    destruct (_ && _)%bool.
    + now rewrite performApiSearch_requests.
    + destruct (results (apiResult w)); reflexivity.
  - left. unfold clearSearch. now rewrite abort_requests.
  - left. unfold handleStrategyChange. cbn. now rewrite abort_requests.
  - destruct (find_task n (inflight w)) as [t|] eqn:Hfind; [|now left].
    destruct o as [e|ok status [e|items]]; cbn [performApiSearch_resume].
    + left. now rewrite resume_task_rejected_requests.
    + left. destruct (negb ok); now rewrite resume_task_rejected_requests.
    + destruct ok; cbn [negb].
      * right; right. exists n, status, items, t.
        split; [reflexivity|]. split; [exact Hfind|].
        rewrite resume_task_resolved_requests. reflexivity.
      * left. now rewrite resume_task_rejected_requests.
Qed.

End RequestsFacts.

(** C10. A remote call that rejects does not reach [rateLimiter.record()]:
    whichever chain awaited it (a strategy's [tryApiSearch], alone or under
    the balanced [execute], or the submit handlers of [handleKeyDown]), the
    timestamp sequence is the same after the rejection as before, and so are
    the answers of [isLimited()] and [remaining()] at any later time. This
    covers a [fetch] that rejects, a response that is not [ok], a body that
    fails to parse and an abort. A timestamp is appended only when a fetch
    in flight settles with a good response; every other event leaves the
    sequence alone or purges it. *)
Theorem C10_rejected_remote_call_keeps_rate_budget (props : Props)
    (abortMessage : string) :
  (forall t e now w,
      Strategy.requests (shared (resume_task props t (Rejected e) now w))
      = Strategy.requests (shared w))
  /\ (forall t e now later w,
         let w' := resume_task props t (Rejected e) now w in
         RateLimiter.isLimited (rateLimit props) (rateLimitWindow props)
           later (Strategy.requests (shared w'))
         = RateLimiter.isLimited (rateLimit props) (rateLimitWindow props)
             later (Strategy.requests (shared w))
         /\ RateLimiter.remaining (rateLimit props) (rateLimitWindow props)
              later (Strategy.requests (shared w'))
            = RateLimiter.remaining (rateLimit props) (rateLimitWindow props)
                later (Strategy.requests (shared w)))
  /\ (forall n now w e status json,
         let unchanged o :=
           Strategy.requests
             (shared (step props abortMessage now (FetchSettled n o) w))
           = Strategy.requests (shared w) in
         unchanged (FetchRejected e)
         /\ unchanged (FetchResponse false status json)
         /\ unchanged (FetchResponse true status (inl e)))
  /\ (forall now w,
         Strategy.requests (shared (abort props abortMessage now w))
         = Strategy.requests (shared w))
  /\ (forall now ev w,
         let w' := step props abortMessage now ev w in
         Strategy.requests (shared w') = Strategy.requests (shared w)
         \/ Strategy.requests (shared w')
            = retained (rateLimitWindow props) now
                (Strategy.requests (shared w))
         \/ (exists n status items t,
                ev = FetchSettled n (FetchResponse true status (inr items))
                /\ find_task n (inflight w) = Some t
                /\ Strategy.requests (shared w')
                   = Strategy.requests (shared w) ++ [now])).
Proof.
  split; [apply resume_task_rejected_requests|].
  split.
  { intros t e now later w w'. subst w'.
    now rewrite resume_task_rejected_requests. }
  split.
  { intros n now w e status json. cbv zeta. cbn [step].
    destruct (find_task n (inflight w)) as [t|]; [|repeat split].
    cbn [performApiSearch_resume negb].
    now rewrite !resume_task_rejected_requests. }
  split; [apply abort_requests|apply step_requests].
Qed.

(* ------------------------------------------------------------------------ *)
(** ** Single flight                                                          *)
(* ------------------------------------------------------------------------ *)

Section SingleFlight.
Variable props : Props.
Variable abortMessage : string.

Lemma execute_await_query (T : Type) duration limit windowMs mode
    (localSearch : string -> list T) query now (s : Strategy.Shared T)
    q caller s' :
  Strategy.execute duration limit windowMs mode localSearch query now s
  = (AwaitApi q caller, s') ->
  q = query.
Proof.
  assert (Htry : forall (s0 : Strategy.Shared T) q0 c0 s1,
             Strategy.tryApiSearch limit windowMs query now s0
             = (AwaitApi q0 c0, s1) -> q0 = query).
  { intros s0 q0 c0 s1. unfold Strategy.tryApiSearch.
    destruct (Strategy.limiter_isLimited limit windowMs now s0) as [[|] s2];
      [discriminate|]. now intros [= <- _ _]. }
  destruct mode; cbn [Strategy.execute].
  - apply Htry.
  - unfold Strategy.balanced_execute.
    destruct (Strategy.cache_get duration query now s) as [[cached|] s0];
      [discriminate|].
    destruct (SearchCache.fuzzyMatch duration query now (Strategy.cache s0));
      [discriminate|].
    destruct (Strategy.tryApiSearch limit windowMs query now s0)
      as [[r|q0 c0] s1] eqn:E; [discriminate|].
    intros [= <- _ _]. exact (Htry _ _ _ _ E).
  - unfold Strategy.conservative_execute.
    destruct (JsString.strlen query <=? 3); [discriminate|].
    destruct (Strategy.cache_get duration query now s) as [got s0].
    destruct (match got with
              | Some items => Some items
              | None =>
                  SearchCache.fuzzyMatch duration query now (Strategy.cache s0)
              end); [discriminate|].
    destruct (Strategy.limiter_isLimited limit windowMs now s0) as [[|] s1];
      [discriminate|]. apply Htry.
  - unfold Strategy.manual_execute.
    destruct (Strategy.cache_get duration query now s) as [[cached|] s0];
      discriminate.
Qed.

Lemma strategy_execute_frame mode q now w :
  control (snd (strategy_execute props mode q now w)) = control w
  /\ recentSearches (snd (strategy_execute props mode q now w))
     = recentSearches w
  /\ apiResult (snd (strategy_execute props mode q now w)) = apiResult w
  /\ searchStats (snd (strategy_execute props mode q now w)) = searchStats w.
Proof.
  unfold strategy_execute.
  destruct (Strategy.execute (cacheDuration props) (rateLimit props)
              (rateLimitWindow props) mode
              (performLocalSearch props (recentSearches w)) q now (shared w))
    as [p s].
  repeat split.
Qed.

Lemma control_fetches w w' : control w' = control w -> fetches w' = fetches w.
Proof. intros H. exact (f_equal snd H). Qed.

Lemma find_task_single n m t :
  find_task n [(m, t)] = (if Nat.eqb n m then Some t else None).
Proof. reflexivity. Qed.

Lemma single_flight_of_fetches w w' :
  single_flight w ->
  fetches w' = fetches w
  \/ (exists t n next, fetches w' = (Some n, next, [(n, t)]))
  \/ (exists ctl next, fetches w' = (ctl, next, [])) ->
  single_flight w'.
Proof.
  unfold fetches, single_flight.
  intros Hsf [H|[(t & n & next & H)|(ctl & next & H)]];
    injection H as Hr Hn Hi; rewrite ?Hi, ?Hr.
  - exact Hsf.
  - right. now exists n, t.
  - now left.
Qed.

Lemma abort_fetches now w :
  single_flight w ->
  fetches (abort props abortMessage now w)
  = (abortControllerRef w, nextController w, []).
Proof.
  intros Hsf. unfold abort.
  destruct (abortControllerRef w) as [n|] eqn:Href.
  - destruct (find_task n (inflight w)) as [t|] eqn:Hfind.
    + pose proof (resume_task_control props t (Rejected (AbortError abortMessage))
                    now
                    (with_fetches (Some n) (nextController w)
                       (remove_task n (inflight w)) w)) as Hc.
      rewrite (control_fetches _ _ Hc).
      unfold fetches. cbn. f_equal.
      destruct Hsf as [Hnil|(m & t' & Hsingle & Hm)].
      * now rewrite Hnil.
      * rewrite Hsingle. assert (m = n) by congruence. subst m.
        cbn. now rewrite Nat.eqb_refl.
    + unfold fetches. rewrite Href. f_equal.
      destruct Hsf as [Hnil|(m & t' & Hsingle & Hm)]; [assumption|].
      assert (m = n) by congruence. subst m.
      rewrite Hsingle, find_task_single, Nat.eqb_refl in Hfind. discriminate.
  - unfold fetches. rewrite Href. f_equal.
    destruct Hsf as [Hnil|(m & t' & _ & Hm)]; [assumption|congruence].
Qed.

Lemma performApiSearch_fetches t now w :
  single_flight w ->
  fetches (performApiSearch props abortMessage t now w)
  = (Some (nextController w), S (nextController w), [(nextController w, t)]).
Proof.
  intros Hsf. pose proof (abort_fetches now w Hsf) as Ha.
  unfold fetches in *. injection Ha as _ Hnext Hfl.
  unfold performApiSearch. cbn. now rewrite Hnext, Hfl.
Qed.

(** A dispatched search either finishes without a remote call and leaves
    the fetch bookkeeping alone, or issues the only fetch in flight. *)
Lemma performSearch_fetches q mode now w :
  single_flight w ->
  let w' := performSearch props abortMessage q mode now w in
  fetches w' = fetches w
  \/ exists caller,
       fetches w'
       = (Some (nextController w), S (nextController w),
          [(nextController w, TaskSearch caller mode (JsString.trim q))]).
Proof.
  intros Hsf. cbv zeta. unfold performSearch.
  destruct (negb _ || _)%bool; [now left|].
  set (w0 := setApiResult _ w).
  assert (Hsf0 : single_flight w0) by exact Hsf.
  pose proof (strategy_execute_frame mode (JsString.trim q) now w0)
    as (Hc & _).
  destruct (strategy_execute props mode (JsString.trim q) now w0)
    as [[r|q' caller] w1] eqn:E; cbn [snd] in Hc.
  - left.
    destruct (performSearch_finish_control mode (JsString.trim q) (inr r) w1)
      as (Hf & _).
    now rewrite (control_fetches _ _ Hf), (control_fetches _ _ Hc).
  - right. exists caller.
    assert (q' = JsString.trim q).
    { unfold strategy_execute in E.
      destruct (Strategy.execute (cacheDuration props) (rateLimit props)
                  (rateLimitWindow props) mode
                  (performLocalSearch props (recentSearches w0))
                  (JsString.trim q) now (shared w0)) as [p s] eqn:E'.
      injection E as -> _. now apply execute_await_query in E'. }
    subst q'.
    assert (Hsf1 : single_flight w1).
    { apply (single_flight_of_fetches w); [assumption|]. left.
      exact (control_fetches _ _ Hc). }
    rewrite (performApiSearch_fetches _ now w1 Hsf1).
    apply control_fetches in Hc. unfold fetches in Hc.
    injection Hc as _ Hn _. now rewrite Hn.
Qed.

Lemma performSearch_single_flight q mode now w :
  single_flight w ->
  single_flight (performSearch props abortMessage q mode now w).
Proof.
  intros Hsf. apply (single_flight_of_fetches w); [assumption|].
  destruct (performSearch_fetches q mode now w Hsf) as [H|[caller H]].
  - now left.
  - right; left. eauto.
Qed.

Lemma step_single_flight now ev w :
  single_flight w -> single_flight (step props abortMessage now ev w).
Proof.
  intros Hsf. destruct ev as [value| | | |mode|n o]; cbn [step].
  - unfold handleInputChange.
    destruct (negb _); [exact Hsf|].
    destruct (SearchMode_eqb _ manual); [|exact Hsf].
    destruct (_ >=? _); [|exact Hsf].
    now apply performSearch_single_flight.
  - destruct (debounceTimer w) as [[q mode]|]; [|exact Hsf].
    now apply performSearch_single_flight.
  - unfold handleKeyDown_Enter.
    destruct (_ && _)%bool.
    + apply (single_flight_of_fetches w); [assumption|]. right; left.
      eexists _, _, _. now apply performApiSearch_fetches.
    + destruct (results (apiResult w)); exact Hsf.
  - apply (single_flight_of_fetches w); [assumption|]. right; right.
    eexists _, _. unfold clearSearch.
    now apply abort_fetches.
  - apply (single_flight_of_fetches w); [assumption|]. right; right.
    eexists _, _. unfold handleStrategyChange.
    change (fetches (setApiResult ?f ?x)) with (fetches x).
    now apply abort_fetches.
  - destruct (find_task n (inflight w)) as [t|] eqn:Hfind; [|exact Hsf].
    apply (single_flight_of_fetches w); [assumption|]. right; right.
    pose proof (resume_task_control props t
                  (performApiSearch_resume props (task_query t) o) now
                  (with_fetches (abortControllerRef w) (nextController w)
                     (remove_task n (inflight w)) w)) as Hc.
    exists (abortControllerRef w), (nextController w).
    rewrite (control_fetches _ _ Hc).
    unfold fetches. cbn. f_equal.
    destruct Hsf as [Hnil|(m & t' & Hsingle & Hm)].
    + now rewrite Hnil.
    + rewrite Hsingle in *. rewrite find_task_single in Hfind. cbn.
      destruct (Nat.eqb n m); [reflexivity|discriminate].
Qed.

Lemma reachable_single_flight w :
  reachable props abortMessage w -> single_flight w.
Proof.
  induction 1 as [|now ev w _ IH]; [now left|].
  now apply step_single_flight.
Qed.

(** A settlement that names no fetch in flight changes nothing. *)
Lemma step_settle_unknown n o now w :
  find_task n (inflight w) = None ->
  step props abortMessage now (FetchSettled n o) w = w.
Proof. intros H. cbn [step]. now rewrite H. Qed.

End SingleFlight.

(** A dispatched search whose strategy finishes in its own segment issues
    no fetch, and leaves the shared cache and limiter as the strategy left
    them. *)
Lemma performSearch_ready props abortMessage q mode now w r s :
  Strategy.execute (cacheDuration props) (rateLimit props)
    (rateLimitWindow props) mode
    (performLocalSearch props (recentSearches w)) (JsString.trim q) now
    (shared w) = (Ready r, s) ->
  fetches (performSearch props abortMessage q mode now w) = fetches w
  /\ (shared (performSearch props abortMessage q mode now w) = shared w
      \/ shared (performSearch props abortMessage q mode now w) = s).
Proof.
  intros Hexec. unfold performSearch.
  destruct (negb _ || _)%bool; [split; [reflexivity|now left]|].
  unfold strategy_execute. cbn [recentSearches shared setApiResult].
  rewrite Hexec.
  match goal with
  | |- context [performSearch_finish ?m ?tq ?o ?w0] =>
      destruct (performSearch_finish_control m tq o w0) as (Hc & Hs & _)
  end.
  split; [exact (control_fetches _ _ Hc)|right; exact Hs].
Qed.

(** C4. The conservative strategy resolves a query of length at most 3 from
    the local search alone, with source [local] (and the hint to type more
    when nothing matched); for a longer query that the cache holds fresh
    under the exact key, it returns the cached data with source [cache].
    In both cases [execute] finishes without suspending on the remote call
    and leaves the cache and the rate limiter as they were; in the
    component, [performSearch] in conservative mode then issues no fetch
    and records no request. *)
Theorem C4_conservative_short_or_cached :
  (forall (T : Type) (duration limit windowMs now : Z)
          (localSearch : string -> list T) (query : string)
          (s : Strategy.Shared T),
      JsString.strlen query <= 3 ->
      Strategy.conservative_execute duration limit windowMs localSearch query
        now s
      = (Ready (mkResult (localSearch query) src_local
                  (if (List.length (localSearch query) =? 0)%nat
                   then Some "Type more characters for API search"%string
                   else None)), s))
  /\ (forall (T : Type) (duration limit windowMs now : Z)
             (localSearch : string -> list T) (query : string)
             (s : Strategy.Shared T) (items : list T),
         JsString.strlen query > 3 ->
         fst (SearchCache.get duration query now (Strategy.cache s))
         = Some items ->
         Strategy.conservative_execute duration limit windowMs localSearch
           query now s
         = (Ready (mkResult items src_cache None), s))
  /\ (forall (props : Props) (abortMessage q : string) (now : Z) (w : World),
         JsString.strlen (JsString.trim q) <= 3
         \/ (exists items,
                fst (SearchCache.get (cacheDuration props) (JsString.trim q)
                       now (Strategy.cache (shared w))) = Some items) ->
         let w' := performSearch props abortMessage q conservative now w in
         fetches w' = fetches w /\ shared w' = shared w).
Proof.
  split; [|split].
  - intros. now apply conservative_execute_short.
  - intros. now apply conservative_execute_cached.
  - intros props abortMessage q now w Hcase w'. subst w'.
    assert (Hexec : exists r,
               Strategy.execute (cacheDuration props) (rateLimit props)
                 (rateLimitWindow props) conservative
                 (performLocalSearch props (recentSearches w))
                 (JsString.trim q) now (shared w) = (Ready r, shared w)).
    { cbn [Strategy.execute].
      destruct (Z.leb_spec (JsString.strlen (JsString.trim q)) 3)
        as [Hshort|Hlong].
      - eexists. now apply conservative_execute_short.
      - destruct Hcase as [Hshort|[items Hget]]; [lia|].
        eexists. apply conservative_execute_cached; [lia|exact Hget]. }
    destruct Hexec as [r Hexec].
    destruct (performSearch_ready props abortMessage q conservative now w r
                (shared w) Hexec) as [Hf [Hs|Hs]]; now split.
Qed.

(** C4 at "ab" with a local match, at "abcd" with a fresh cache entry, and
    in a mounted component that has cached "smith". *)
Lemma C4_conservative_short_or_cached_witness :
  Strategy.conservative_execute 300000 60 60000 (fun _ => [5%nat])
    "ab"%string 10 (Strategy.mkShared [] [])
  = (Ready (mkResult [5%nat] src_local None), Strategy.mkShared [] [])
  /\ (let s :=
        Strategy.mkShared
          (SearchCache.set 50 "abcd"%string [7%nat] 0 []) [] in
      Strategy.conservative_execute 300000 60 60000 (fun _ => [5%nat])
        "abcd"%string 10 s
      = (Ready (mkResult [7%nat] src_cache None), s))
  /\ (let props := propsWith conservative 60 in
      let w :=
        run props "aborted"%string
          [(0, InputChange "smith"%string); (300, DebounceFire);
           (400, FetchSettled 0 (FetchResponse true 200 (inr [alice])))]
          (initialWorld props) in
      let w' :=
        performSearch props "aborted"%string "smith"%string conservative 500
          w in
      fetches w' = fetches w /\ shared w' = shared w).
Proof.
  destruct C4_conservative_short_or_cached as (Hshort & Hcached & Hcomp).
  split; [|split].
  - apply (Hshort nat 300000 60 60000 10 (fun _ => [5%nat]) "ab"%string
             (Strategy.mkShared [] [])).
    vm_compute. discriminate.
  - cbv zeta.
    apply (Hcached nat 300000 60 60000 10 (fun _ => [5%nat]) "abcd"%string
             (Strategy.mkShared
                (SearchCache.set 50 "abcd"%string [7%nat] 0 []) [])
             [7%nat]).
    + vm_compute. reflexivity.
    + reflexivity.
  - cbv zeta. apply Hcomp. right. exists [alice]. reflexivity.
Defined.

Lemma SearchMode_eqb_eq (a b : SearchMode) :
  SearchMode_eqb a b = true <-> a = b.
Proof. destruct a, b; simpl; split; congruence. Qed.

(** A result that arrives under another strategy than the one it was
    dispatched with is dropped: only the spinner is switched off. *)
Lemma performSearch_finish_superseded mode q result w :
  currentStrategyRef w <> mode ->
  performSearch_finish mode q (inr result) w
  = setApiResult
      (fun prev =>
         mkApiResult false (api_error prev) (results prev)
           (isDropdownOpen prev)) w.
Proof.
  intros Hne. unfold performSearch_finish.
  destruct (SearchMode_eqb (currentStrategyRef w) mode) eqn:E; [|reflexivity].
  apply SearchMode_eqb_eq in E. contradiction.
Qed.

(** C1, as the code has it. In every world the component can reach, at
    most one fetch is in flight and it belongs to the current controller.
    A search that is dispatched either finishes without a remote call, and
    then leaves the fetch bookkeeping untouched (an earlier fetch stays in
    flight), or issues a remote call, and then its own fetch is the only
    one in flight: the earlier fetch was aborted, and a response that
    arrives for it later changes nothing. A result that comes back under a
    changed strategy is dropped. *)
Theorem C1_single_flight_on_remote_dispatch (props : Props)
    (abortMessage : string) (w : World) :
  reachable props abortMessage w ->
  single_flight w
  /\ (forall q mode now,
         let w' := performSearch props abortMessage q mode now w in
         fetches w' = fetches w
         \/ exists caller,
              inflight w'
              = [(nextController w,
                  TaskSearch caller mode (JsString.trim q))]
              /\ forall n o later,
                   n <> nextController w ->
                   step props abortMessage later (FetchSettled n o) w' = w')
  /\ (forall mode q result,
         currentStrategyRef w <> mode ->
         performSearch_finish mode q (inr result) w
         = setApiResult
             (fun prev =>
                mkApiResult false (api_error prev) (results prev)
                  (isDropdownOpen prev)) w).
Proof.
  intros Hreach.
  pose proof (reachable_single_flight props abortMessage w Hreach) as Hsf.
  split; [exact Hsf|]. split.
  - intros q mode now w'. subst w'.
    destruct (performSearch_fetches props abortMessage q mode now w Hsf)
      as [H|[caller H]]; [now left|].
    right. exists caller. unfold fetches in H. injection H as _ _ Hi.
    split; [exact Hi|].
    intros n o later Hn. apply step_settle_unknown.
    rewrite Hi, find_task_single.
    destruct (Nat.eqb_spec n (nextController w)); [contradiction|reflexivity].
  - intros mode q result. apply performSearch_finish_superseded.
Qed.

(** C1 in instant mode with the fetch of "smith" in flight. *)
Lemma C1_single_flight_on_remote_dispatch_witness :
  let props := propsWith instant 60 in
  let w :=
    run props "aborted"%string
      [(0, InputChange "smith"%string); (300, DebounceFire)]
      (initialWorld props) in
  (inflight w = [(0%nat, TaskSearch ReturnsIt instant "smith"%string)]
   /\ single_flight w)
  /\ (forall q mode now,
         let w' := performSearch props "aborted"%string q mode now w in
         fetches w' = fetches w
         \/ exists caller,
              inflight w'
              = [(nextController w,
                  TaskSearch caller mode (JsString.trim q))]
              /\ forall n o later,
                   n <> nextController w ->
                   step props "aborted"%string later (FetchSettled n o) w'
                   = w')
  /\ (forall mode q result,
         currentStrategyRef w <> mode ->
         performSearch_finish mode q (inr result) w
         = setApiResult
             (fun prev =>
                mkApiResult false (api_error prev) (results prev)
                  (isDropdownOpen prev)) w).
Proof.
  cbv zeta.
  pose proof
    (C1_single_flight_on_remote_dispatch (propsWith instant 60)
       "aborted"%string _
       (reachable_step _ _ 300 DebounceFire _
          (reachable_step _ _ 0 (InputChange "smith"%string) _
             (reachable_init (propsWith instant 60) "aborted"%string))))
    as (Hsf & Hdispatch & Hdrop).
  split; [split; [reflexivity|exact Hsf]|].
  split; [exact Hdispatch|exact Hdrop].
Defined.

(** C1 as stated fails when search B needs no remote call. Conservative
    mode: search A for "smith" goes remote (fetch 0); before it resolves,
    search B for "smi" is resolved from the empty local history and shows
    its hint; nothing aborted fetch 0, and when its response arrives under
    the unchanged strategy, A's data replace B's result and clear B's
    message. *)
Lemma C1_counterexample :
  let props := propsWith conservative 60 in
  let wA :=
    run props "aborted"%string
      [(0, InputChange "smith"%string); (300, DebounceFire)]
      (initialWorld props) in
  let wB :=
    run props "aborted"%string
      [(400, InputChange "smi"%string); (700, DebounceFire)] wA in
  let w :=
    step props "aborted"%string 800
      (FetchSettled 0 (FetchResponse true 200 (inr [alice]))) wB in
  inflight wA = [(0%nat, TaskSearch ReturnsIt conservative "smith"%string)]
  /\ inflight wB = inflight wA
  /\ results (apiResult wB) = []
  /\ api_error (apiResult wB)
     = Some "Type more characters for API search"%string
  /\ currentStrategyRef wA = conservative
  /\ currentStrategyRef w = conservative
  /\ results (apiResult w) = [alice]
  /\ api_error (apiResult w) = None
  /\ apiCalls (searchStats w) = 1%nat.
Proof. vm_compute. repeat split. Qed.

(** C2, evaluated where it fails. Instant mode. A first search has shown
    Alice. Search A for "alice" goes remote (fetch 1); search B for "acme"
    is dispatched before it resolves and aborts it. [tryApiSearch] catches
    the [AbortError] like any other rejection and returns an [api] result
    with no data and the abort message, and [performSearch] applies it: the
    shown results are cleared, the abort message becomes the visible error,
    the dropdown opens, [apiCalls] counts the aborted call and the spinner
    stops although B's fetch is in flight. The [catch] clause of
    [performSearch] that tests for ["AbortError"] is never reached: a
    rejection always comes back from the strategy as a result. The submit
    handlers of [handleKeyDown] do swallow the abort: they only stop the
    spinner. *)
Theorem C2_aborted_search_is_delivered (abortMessage : string) :
  let props := propsWith instant 60 in
  let wA :=
    run props abortMessage
      [(0, InputChange "smith"%string); (300, DebounceFire);
       (350, FetchSettled 0 (FetchResponse true 200 (inr [alice])));
       (400, InputChange "alice"%string); (700, DebounceFire)]
      (initialWorld props) in
  let w :=
    run props abortMessage
      [(800, InputChange "acme"%string); (1100, DebounceFire)] wA in
  (inflight wA = [(1%nat, TaskSearch ReturnsIt instant "alice"%string)]
   /\ results (apiResult wA) = [alice]
   /\ apiCalls (searchStats wA) = 1%nat)
  /\ (inflight w = [(2%nat, TaskSearch ReturnsIt instant "acme"%string)]
      /\ results (apiResult w) = []
      /\ api_error (apiResult w)
         = (if JsString.truthy abortMessage then Some abortMessage else None)
      /\ isDropdownOpen (apiResult w) = true
      /\ isLoading (apiResult w) = false
      /\ apiCalls (searchStats w) = 2%nat)
  /\ (forall mode q e w0,
         exists r,
           resume_task props (TaskSearch ReturnsIt mode q)
             (Rejected e) 1100 w0
           = performSearch_finish mode q (inr r) w0
           /\ source r = src_api /\ data r = [])
  /\ (forall q w0,
         resume_task props (TaskSubmit q)
           (Rejected (AbortError abortMessage)) 1100 w0
         = setApiResult
             (fun prev =>
                mkApiResult false (api_error prev) (results prev)
                  (isDropdownOpen prev)) w0).
Proof.
  cbv zeta. split; [|split; [|split]].
  - vm_compute. repeat split.
  - vm_compute. repeat split.
  - intros mode q e w0. eexists. split; [|split].
    + cbn [resume_task]. unfold strategy_resume. cbn.
      destruct w0. reflexivity.
    + reflexivity.
    + reflexivity.
  - intros q w0. reflexivity.
Qed.

(* ------------------------------------------------------------------------ *)
(** ** Local history                                                          *)
(* ------------------------------------------------------------------------ *)

Lemma history_write_get q items (recent : JsMap.t (list User)) :
  JsMap.size recent <= 20 ->
  JsMap.get q (history_write q items recent) = Some items.
Proof.
  intros Hsize. unfold history_write.
  destruct (Z.gtb_spec (JsMap.size (JsMap.set q items recent)) 20)
    as [Hover|_]; [|apply JsMap_get_set_same].
  unfold JsMap.size in *. rewrite JsMap_set_length in Hover.
  destruct recent as [|[k0 v0] recent'].
  - cbn in Hover. lia.
  - cbn [JsMap.get JsMap.set] in *.
    destruct (String.eqb_spec q k0) as [->|Hne].
    + cbn [List.length] in *. lia.
    + cbn [JsMap.keys map fst].
      destruct (JsString.truthy k0).
      * cbn [JsMap.delete]. rewrite String.eqb_refl.
        apply JsMap_get_set_same.
      * cbn [JsMap.get]. destruct (String.eqb_spec q k0); [contradiction|].
        apply JsMap_get_set_same.
Qed.

(** C3, as the code has it. A result that [performSearch] applies (the
    strategy is unchanged) is written to the local history under the
    trimmed query exactly when its data are non-empty, whatever its source
    tag; with at most 20 entries before, the entry is found afterwards.
    Empty data leave the history as it is, and so does a result dropped
    because the strategy changed. This is what happens to every search of
    a strategy: one that comes back from its remote call goes on in
    [performSearch] with the strategy's result, the history and the active
    strategy being as the chain found them. The submit handlers of
    [handleKeyDown] show their data and count them, but never write the
    history, whatever the remote call gave. *)
Theorem C3_history_written_iff_data_nonempty (mode : SearchMode)
    (q : string) (result : SearchResult User) (w : World) :
  let w' := performSearch_finish mode q (inr result) w in
  (currentStrategyRef w = mode ->
   data result <> [] ->
   recentSearches w' = history_write q (data result) (recentSearches w)
   /\ (JsMap.size (recentSearches w) <= 20 ->
       JsMap.get q (recentSearches w') = Some (data result)))
  /\ (currentStrategyRef w = mode ->
      data result = [] ->
      recentSearches w' = recentSearches w)
  /\ (currentStrategyRef w <> mode ->
      recentSearches w' = recentSearches w)
  /\ (forall props caller o now,
         exists r w1,
           resume_task props (TaskSearch caller mode q) o now w
           = performSearch_finish mode q (inr r) w1
           /\ recentSearches w1 = recentSearches w
           /\ currentStrategyRef w1 = currentStrategyRef w)
  /\ (forall props submitted o now,
         recentSearches (resume_task props (TaskSubmit submitted) o now w)
         = recentSearches w)
  /\ (forall props submitted items now,
         let shown :=
           resume_task props (TaskSubmit submitted) (Resolved items) now w in
         results (apiResult shown) = items
         /\ apiCalls (searchStats shown) = (apiCalls (searchStats w) + 1)%nat
         /\ recentSearches shown = recentSearches w).
Proof.
  cbv zeta. split; [|split; [|split; [|split; [|split]]]].
  - intros Hmode Hdata.
    assert (Hw : recentSearches (performSearch_finish mode q (inr result) w)
                 = history_write q (data result) (recentSearches w)).
    { unfold performSearch_finish.
      rewrite (proj2 (SearchMode_eqb_eq _ _) Hmode). cbn [negb].
      destruct (data result) as [|x xs]; [contradiction|]. reflexivity. }
    split; [exact Hw|].
    intros Hsize. rewrite Hw. now apply history_write_get.
  - intros Hmode Hdata. unfold performSearch_finish.
    rewrite (proj2 (SearchMode_eqb_eq _ _) Hmode), Hdata. reflexivity.
  - intros Hne. now rewrite performSearch_finish_superseded.
  - intros props caller o now. cbn [resume_task].
    pose proof (strategy_resume_frame props caller q o now w)
      as (Hc & Hr & _).
    destruct (strategy_resume props caller q o now w) as [r w1].
    cbn [snd] in Hc, Hr. exists r, w1.
    split; [reflexivity|]. split; [exact Hr|].
    exact (f_equal (fun c => snd (fst (fst c))) Hc).
  - intros props submitted o now. cbn [resume_task]. unfold submit_resume.
    destruct o as [items|e]; [reflexivity|].
    destruct (negb (String.eqb (err_name e) "AbortError")); reflexivity.
  - intros props submitted items now. repeat split.
Qed.

(** C3 on the initial world in conservative mode: a [rate_limited] result
    with data is written, one without data is not, and neither is a result
    dispatched under another strategy; and in manual mode a submitted
    query that the remote source answers with Alice is shown and not
    written. *)
Lemma C3_history_written_iff_data_nonempty_witness :
  let w := initialWorld (propsWith conservative 1) in
  let message := Some "Rate limited. Showing local results."%string in
  let full := mkResult [alice] src_rate_limited message in
  let empty := mkResult [] src_api None in
  (recentSearches
     (performSearch_finish conservative "alice"%string (inr full) w)
   = history_write "alice"%string [alice] (recentSearches w)
   /\ JsMap.get "alice"%string
        (recentSearches
           (performSearch_finish conservative "alice"%string (inr full) w))
      = Some [alice])
  /\ recentSearches
       (performSearch_finish conservative "alice"%string (inr empty) w)
     = recentSearches w
  /\ recentSearches
       (performSearch_finish instant "alice"%string (inr full) w)
     = recentSearches w
  /\ (let shown :=
        resume_task (propsWith manual 60) (TaskSubmit "smith"%string)
          (Resolved [alice]) 400 (initialWorld (propsWith manual 60)) in
      results (apiResult shown) = [alice]
      /\ apiCalls (searchStats shown) = 1%nat
      /\ recentSearches shown = []).
Proof.
  cbv zeta. split; [|split; [|split]].
  - destruct (proj1 (C3_history_written_iff_data_nonempty conservative
                       "alice"%string
                       (mkResult [alice] src_rate_limited
                          (Some "Rate limited. Showing local results."%string))
                       (initialWorld (propsWith conservative 1)))
                eq_refl ltac:(discriminate)) as [Hw Hget].
    split; [exact Hw|]. apply Hget. vm_compute. discriminate.
  - exact (proj1 (proj2 (C3_history_written_iff_data_nonempty conservative
                           "alice"%string (mkResult [] src_api None)
                           (initialWorld (propsWith conservative 1))))
             eq_refl eq_refl).
  - refine (proj1 (proj2 (proj2 (C3_history_written_iff_data_nonempty instant
                            "alice"%string
                            (mkResult [alice] src_rate_limited
                               (Some "Rate limited. Showing local results."%string))
                            (initialWorld (propsWith conservative 1))))) _).
    discriminate.
  - exact (proj2 (proj2 (proj2 (proj2 (proj2
             (C3_history_written_iff_data_nonempty manual "smith"%string
                (mkResult [] src_api None)
                (initialWorld (propsWith manual 60)))))))
             (propsWith manual 60) "smith"%string [alice] 400).
Defined.

(** C3 as stated fails for a [rate_limited] result with data. Conservative
    mode with a limit of one call per minute: "smith" is answered by the
    remote source with Alice, which uses up the budget; "alice" then misses
    the cache, the limiter reports limited, and the strategy returns the
    local match tagged [rate_limited]. [performSearch] writes it to the
    local history under "alice" all the same, and counts nothing. *)
Lemma C3_counterexample :
  let props := propsWith conservative 1 in
  let w1 :=
    run props "aborted"%string
      [(0, InputChange "smith"%string); (300, DebounceFire);
       (400, FetchSettled 0 (FetchResponse true 200 (inr [alice])));
       (500, InputChange "alice"%string)]
      (initialWorld props) in
  let w2 := step props "aborted"%string 800 DebounceFire w1 in
  fst (strategy_execute props conservative "alice"%string 800 w1)
  = Ready (mkResult [alice] src_rate_limited
             (Some "Rate limited. Showing local results."%string))
  /\ JsMap.get "alice"%string (recentSearches w1) = None
  /\ JsMap.get "alice"%string (recentSearches w2) = Some [alice]
  /\ results (apiResult w2) = [alice]
  /\ searchStats w2 = searchStats w1.
Proof. vm_compute. repeat split. Qed.

(* ------------------------------------------------------------------------ *)
(** ** Query validation                                                       *)
(* ------------------------------------------------------------------------ *)

(** C8, as the code has it. For a query whose trimmed length is below
    [minQueryLength], [performSearch] calls no strategy: it only clears the
    result set and the error, at once, and changes nothing else. Typing
    such a query surfaces no message either, whether the trimmed text is
    empty or not: [handleInputChange] clears the error, reads no cache,
    rate limiter or history and issues no fetch; it clears the results
    itself when the trimmed text is empty or the mode is manual, and
    otherwise arms the debounce timer, whose firing clears them, again
    without a message. Enter on such a query issues no remote call. *)
Theorem C8_short_query_cleared_without_message (props : Props)
    (abortMessage : string) (q : string) (mode : SearchMode) (now : Z)
    (w : World) :
  JsString.strlen (JsString.trim q) < minQueryLength props ->
  performSearch props abortMessage q mode now w
  = setApiResult
      (fun prev => mkApiResult (isLoading prev) None [] (isDropdownOpen prev))
      w
  /\ (let w' := handleInputChange props abortMessage q now w in
      api_error (apiResult w') = None
      /\ shared w' = shared w
      /\ searchStats w' = searchStats w
      /\ recentSearches w' = recentSearches w
      /\ fetches w' = fetches w
      /\ (results (apiResult w') = []
          \/ (debounceTimer w' = Some (q, searchMode w)
              /\ forall later,
                   let w'' := step props abortMessage later DebounceFire w' in
                   results (apiResult w'') = []
                   /\ api_error (apiResult w'') = None
                   /\ shared w'' = shared w
                   /\ fetches w'' = fetches w)))
  /\ (forall w0,
         query w0 = q ->
         fetches (handleKeyDown_Enter props abortMessage now w0) = fetches w0
         /\ shared (handleKeyDown_Enter props abortMessage now w0)
            = shared w0
         /\ apiResult (handleKeyDown_Enter props abortMessage now w0)
            = apiResult w0).
Proof.
  intros Hshort.
  assert (Hps : forall m n w0,
             performSearch props abortMessage q m n w0
             = setApiResult
                 (fun prev =>
                    mkApiResult (isLoading prev) None []
                      (isDropdownOpen prev)) w0).
  { intros m n w0. unfold performSearch.
    destruct (Z.ltb_spec (JsString.strlen (JsString.trim q))
                (minQueryLength props)); [|lia].
    now rewrite orb_true_r. }
  split; [apply Hps|].
  split.
  2:{ intros w0 Hq. unfold handleKeyDown_Enter. rewrite Hq.
      destruct (Z.geb_spec (JsString.strlen (JsString.trim q))
                  (minQueryLength props)); [lia|].
      rewrite andb_false_r.
      destruct (results (apiResult w0)); repeat split. }
  cbv zeta. unfold handleInputChange.
  destruct (negb (JsString.truthy (JsString.trim q))).
  { repeat split. now left. }
  cbn [searchMode setApiResult setQuery].
  destruct (SearchMode_eqb (searchMode w) manual).
  - destruct (Z.geb_spec (JsString.strlen (JsString.trim q))
                (minQueryLength props)); [lia|].
    repeat split. now left.
  - repeat split. right. split; [reflexivity|].
    intros later. cbn [step debouncedSearch with_timer debounceTimer].
    rewrite Hps. repeat split.
Qed.

(** C8 with the default props ([minQueryLength] 2) on the input " a ". *)
Lemma C8_short_query_cleared_without_message_witness :
  let w := initialWorld defaultProps in
  performSearch defaultProps "aborted"%string " a "%string balanced 0 w
  = setApiResult
      (fun prev => mkApiResult (isLoading prev) None [] (isDropdownOpen prev))
      w
  /\ (let w' := handleInputChange defaultProps "aborted"%string " a "%string 0 w in
      api_error (apiResult w') = None
      /\ shared w' = shared w
      /\ searchStats w' = searchStats w
      /\ recentSearches w' = recentSearches w
      /\ fetches w' = fetches w
      /\ (results (apiResult w') = []
          \/ (debounceTimer w' = Some (" a "%string, searchMode w)
              /\ forall later,
                   let w'' :=
                     step defaultProps "aborted"%string later DebounceFire w' in
                   results (apiResult w'') = []
                   /\ api_error (apiResult w'') = None
                   /\ shared w'' = shared w
                   /\ fetches w'' = fetches w)))
  /\ (forall w0,
         query w0 = " a "%string ->
         fetches (handleKeyDown_Enter defaultProps "aborted"%string 0 w0)
         = fetches w0
         /\ shared (handleKeyDown_Enter defaultProps "aborted"%string 0 w0)
            = shared w0
         /\ apiResult (handleKeyDown_Enter defaultProps "aborted"%string 0 w0)
            = apiResult w0).
Proof.
  refine (C8_short_query_cleared_without_message defaultProps
            "aborted"%string " a "%string balanced 0
            (initialWorld defaultProps) _).
  vm_compute. reflexivity.
Defined.

(** C8 as stated fails for a query that is too short but not empty: no
    message is surfaced. With [minQueryLength] 2, typing "a" leaves the
    error empty after the keystroke and after the debounced [performSearch],
    in balanced mode as in manual mode. *)
Lemma C8_counterexample :
  let typed :=
    step defaultProps "aborted"%string 0 (InputChange "a"%string)
      (initialWorld defaultProps) in
  let fired := step defaultProps "aborted"%string 300 DebounceFire typed in
  let typedManual :=
    step (propsWith manual 60) "aborted"%string 0 (InputChange "a"%string)
      (initialWorld (propsWith manual 60)) in
  JsString.trim "a"%string = "a"%string
  /\ 0 < JsString.strlen (JsString.trim "a"%string)
     < minQueryLength defaultProps
  /\ api_error (apiResult typed) = None
  /\ debounceTimer typed = Some ("a"%string, balanced)
  /\ api_error (apiResult fired) = None
  /\ results (apiResult fired) = []
  /\ api_error (apiResult typedManual) = None
  /\ results (apiResult typedManual) = [].
Proof. vm_compute. repeat split. Qed.

(* ------------------------------------------------------------------------ *)
(** ** Balanced mode under a rate limit                                       *)
(* ------------------------------------------------------------------------ *)

(** C9. In balanced mode, when the exact and the fuzzy cache lookup miss,
    the rate limiter reports limited and the local search finds something,
    [execute] returns the local data with source [local] and the message of
    the degraded mode. [performSearch] never sees the [rate_limited] tag:
    it shows the local data with that message, counts one local search and
    no API call or cache hit, and issues no fetch. *)
Theorem C9_balanced_masks_rate_limit (props : Props) (abortMessage : string)
    (q : string) (now : Z) (w : World) :
  let tq := JsString.trim q in
  let localData := performLocalSearch props (recentSearches w) tq in
  let message := "Showing local results (API unavailable)"%string in
  JsString.truthy tq = true ->
  minQueryLength props <= JsString.strlen tq ->
  currentStrategyRef w = balanced ->
  fst (SearchCache.get (cacheDuration props) tq now
         (Strategy.cache (shared w))) = None ->
  SearchCache.fuzzyMatch (cacheDuration props) tq now
    (Strategy.cache (shared w)) = None ->
  fst (RateLimiter.isLimited (rateLimit props) (rateLimitWindow props) now
         (Strategy.requests (shared w))) = true ->
  localData <> [] ->
  fst (strategy_execute props balanced tq now w)
  = Ready (mkResult localData src_local (Some message))
  /\ (let w' := performSearch props abortMessage q balanced now w in
      results (apiResult w') = localData
      /\ api_error (apiResult w') = Some message
      /\ searchStats w'
         = mkSearchStats (apiCalls (searchStats w))
             (cacheHits (searchStats w))
             (localSearches (searchStats w) + 1)
      /\ fetches w' = fetches w).
Proof.
  intros tq localData message Htruthy Hmin Hmode Hget Hfuzzy Hlim Hlocal.
  pose proof (balanced_execute_masks (cacheDuration props) (rateLimit props)
                (rateLimitWindow props)
                (performLocalSearch props (recentSearches w)) tq now
                (shared w) Hget Hfuzzy Hlim Hlocal) as Hexec.
  fold localData in Hexec.
  split.
  - unfold strategy_execute. cbn [Strategy.execute]. now rewrite Hexec.
  - cbv zeta. unfold performSearch. fold tq. rewrite Htruthy. cbn [negb orb].
    destruct (Z.ltb_spec (JsString.strlen tq) (minQueryLength props)); [lia|].
    unfold strategy_execute.
    cbn [Strategy.execute recentSearches shared setApiResult].
    rewrite Hexec. unfold performSearch_finish.
    cbn [currentStrategyRef with_shared setApiResult].
    rewrite Hmode. cbn [SearchMode_eqb negb data source error].
    fold localData.
    destruct localData as [|x xs] eqn:El; [contradiction|].
    repeat split.
Qed.

(** C9 with a limit of one call per minute, used up by "smith"; "alice"
    then misses the cache and matches Alice in the local history. *)
Lemma C9_balanced_masks_rate_limit_witness :
  let props := propsWith balanced 1 in
  let w :=
    run props "aborted"%string
      [(0, InputChange "smith"%string); (300, DebounceFire);
       (400, FetchSettled 0 (FetchResponse true 200 (inr [alice])));
       (500, InputChange "alice"%string)]
      (initialWorld props) in
  let w' := performSearch props "aborted"%string "alice"%string balanced 800 w in
  fst (strategy_execute props balanced "alice"%string 800 w)
  = Ready (mkResult [alice] src_local
             (Some "Showing local results (API unavailable)"%string))
  /\ results (apiResult w') = [alice]
  /\ api_error (apiResult w')
     = Some "Showing local results (API unavailable)"%string
  /\ searchStats w' = mkSearchStats 1 0 1
  /\ fetches w' = fetches w.
Proof.
  cbv zeta.
  refine (C9_balanced_masks_rate_limit (propsWith balanced 1)
            "aborted"%string "alice"%string 800
            (run (propsWith balanced 1) "aborted"%string
               [(0, InputChange "smith"%string); (300, DebounceFire);
                (400, FetchSettled 0 (FetchResponse true 200 (inr [alice])));
                (500, InputChange "alice"%string)]
               (initialWorld (propsWith balanced 1)))
            _ _ _ _ _ _ _).
  - reflexivity.
  - vm_compute. discriminate.
  - reflexivity.
  - reflexivity.
  - reflexivity.
  - reflexivity.
  - vm_compute. discriminate.
Defined.

(* ======================================================================== *)
(** * Further properties of the code                                          *)
(* ======================================================================== *)

(* ------------------------------------------------------------------------ *)
(** ** Rate limiter: [remaining], [reset] and the window                      *)
(* ------------------------------------------------------------------------ *)

(** X1. [remaining()] and [isLimited()] agree: at any time both purge the
    same timestamps, [remaining()] lies between 0 and the limit (0 when the
    limit is not positive), and it is 0 exactly when [isLimited()] is
    true. *)
Theorem X1_remaining_zero_iff_limited (limit windowMs now : Z)
    (requests : RateLimiter.t) :
  snd (RateLimiter.remaining limit windowMs now requests)
  = snd (RateLimiter.isLimited limit windowMs now requests)
  /\ 0 <= fst (RateLimiter.remaining limit windowMs now requests)
     <= Z.max 0 limit
  /\ (fst (RateLimiter.remaining limit windowMs now requests) = 0
      <-> fst (RateLimiter.isLimited limit windowMs now requests) = true).
Proof.
  unfold RateLimiter.remaining. rewrite isLimited_retained.
  rewrite cleanup_retained. cbn [fst snd].
  split; [reflexivity|]. split; [lia|].
  rewrite Z.geb_le. lia.
Qed.

(** X2. Once every recorded request is at least one window old, the next
    [isLimited()] forgets them all: the sequence is empty afterwards, the
    full budget is back, and the answer is "limited" only for a limit that
    is not positive. [reset()] has the same effect at once. *)
Theorem X2_quiet_window_restores_budget (limit windowMs now : Z)
    (requests : RateLimiter.t) :
  (forall t, In t requests -> t + windowMs <= now) ->
  RateLimiter.isLimited limit windowMs now requests = (limit <=? 0, [])
  /\ RateLimiter.remaining limit windowMs now requests = (Z.max 0 limit, [])
  /\ RateLimiter.isLimited limit windowMs now (RateLimiter.reset requests)
     = (limit <=? 0, []).
Proof.
  intros Hold.
  assert (Hnil : retained windowMs now requests = []).
  { unfold retained. induction requests as [|t ts IH]; [reflexivity|].
    cbn [filter].
    destruct (Z.ltb_spec (now - windowMs) t) as [Hlt|_].
    - specialize (Hold t (or_introl eq_refl)). lia.
    - apply IH. intros t' Ht'. apply Hold. now right. }
  assert (Hgeb : (0 >=? limit) = (limit <=? 0)).
  { destruct (Z.geb_spec 0 limit), (Z.leb_spec limit 0); lia || reflexivity. }
  unfold RateLimiter.remaining. rewrite !isLimited_retained.
  rewrite cleanup_retained, Hnil. cbn. rewrite Hgeb.
  repeat split. f_equal. lia.
Qed.

(** X2 on three requests recorded at t=0, seen at t=1000 with a window of
    1000 ms. *)
Lemma X2_quiet_window_restores_budget_witness :
  RateLimiter.isLimited 3 1000 1000 [0; 0; 0] = (false, [])
  /\ RateLimiter.remaining 3 1000 1000 [0; 0; 0] = (3, [])
  /\ RateLimiter.isLimited 3 1000 1000 (RateLimiter.reset [0; 0; 0])
     = (false, []).
Proof.
  apply (X2_quiet_window_restores_budget 3 1000 1000 [0; 0; 0]).
  intros t [<-|[<-|[<-|[]]]]; lia.
Defined.

(* ------------------------------------------------------------------------ *)
(** ** Cache: round trip, eviction order, fuzzy lookup                        *)
(* ------------------------------------------------------------------------ *)

Section CacheMore.
Context {T : Type}.
Implicit Types (cache : SearchCache.t (T := T)) (entry : CacheEntry T).

Lemma startsWith_refl (s : string) : JsString.startsWith s s = true.
Proof.
  induction s as [|c s IH]; [reflexivity|].
  cbn [JsString.startsWith]. now rewrite Ascii.eqb_refl, IH.
Qed.

Lemma fuzzyMatch_loop_sound duration lq now cache items :
  SearchCache.fuzzyMatch_loop duration lq now cache = Some items ->
  exists k entry,
    In (k, entry) cache
    /\ SearchCache.expired duration now entry = false
    /\ items = entry_data entry
    /\ (JsString.startsWith lq (JsString.toLowerCase k)
        || JsString.includes (JsString.toLowerCase k) lq)%bool = true.
Proof.
  induction cache as [|[k entry] cache IH]; cbn [SearchCache.fuzzyMatch_loop];
    [discriminate|].
  destruct (SearchCache.expired duration now entry) eqn:Hexp.
  - intros H. destruct (IH H) as (k' & e' & Hin & Hrest).
    exists k', e'. split; [now right|exact Hrest].
  - destruct (JsString.startsWith lq (JsString.toLowerCase k)
              || JsString.includes (JsString.toLowerCase k) lq)%bool eqn:Hm.
    + intros [= <-]. exists k, entry. repeat split; [now left|assumption..].
    + intros H. destruct (IH H) as (k' & e' & Hin & Hrest).
      exists k', e'. split; [now right|exact Hrest].
Qed.

Lemma fuzzyMatch_loop_exact duration query now cache entry :
  JsMap.get query cache = Some entry ->
  SearchCache.expired duration now entry = false ->
  SearchCache.fuzzyMatch_loop duration (JsString.toLowerCase query) now cache
  <> None.
Proof.
  induction cache as [|[k e] cache IH]; cbn [JsMap.get]; [discriminate|].
  intros Hget Hfresh. cbn [SearchCache.fuzzyMatch_loop].
  destruct (String.eqb_spec query k) as [->|Hne].
  - injection Hget as ->. rewrite Hfresh, startsWith_refl. discriminate.
  - destruct (SearchCache.expired duration now e); [now apply IH|].
    destruct (_ || _)%bool; [discriminate|now apply IH].
Qed.

End CacheMore.

(** X3. Round trip of the cache: what [set] stores under a key, [get]
    returns for that key as long as no more than [duration] ms have passed,
    whatever the capacity and whatever was evicted on the way; that [get]
    leaves the cache as it is. *)
Theorem X3_cache_set_then_get (T : Type) (duration maxSize now later : Z)
    (query : string) (items : list T) (cache : SearchCache.t (T := T)) :
  later - now <= duration ->
  SearchCache.get duration query later
    (SearchCache.set maxSize query items now cache)
  = (Some items, SearchCache.set maxSize query items now cache).
Proof.
  intros Hfresh. unfold SearchCache.set.
  apply (cache_get_fresh duration query later _ (mkCacheEntry items now)).
  - apply JsMap_get_set_same.
  - exact Hfresh.
Qed.

(** X3 on a full cache of one entry. *)
Lemma X3_cache_set_then_get_witness :
  SearchCache.get 100 "b"%string 100
    (SearchCache.set 1 "b"%string [2%nat] 0
       (SearchCache.set 1 "a"%string [1%nat] 0 []))
  = (Some [2%nat],
     SearchCache.set 1 "b"%string [2%nat] 0
       (SearchCache.set 1 "a"%string [1%nat] 0 [])).
Proof.
  apply (X3_cache_set_then_get nat 100 1 0 100 "b"%string [2%nat]
           (SearchCache.set 1 "a"%string [1%nat] 0 [])).
  lia.
Defined.

(** X4. Eviction is first in, first out. A [set] of a new key on a cache at
    or over capacity whose oldest key is not the empty string drops exactly
    that oldest entry and appends the new one last; the other entries keep
    their order. *)
Theorem X4_cache_evicts_oldest_first (T : Type) (maxSize now : Z)
    (query oldest : string) (items : list T) (first : CacheEntry T)
    (rest : SearchCache.t (T := T)) :
  SearchCache.size ((oldest, first) :: rest) >= maxSize ->
  JsString.truthy oldest = true ->
  JsMap.get query ((oldest, first) :: rest) = None ->
  SearchCache.set maxSize query items now ((oldest, first) :: rest)
  = rest ++ [(query, mkCacheEntry items now)].
Proof.
  intros Hfull Holdest Hnew. unfold SearchCache.set, SearchCache.evict.
  unfold SearchCache.size in Hfull.
  destruct (Z.geb_spec (JsMap.size ((oldest, first) :: rest)) maxSize);
    [|lia].
  cbn [JsMap.keys map fst]. rewrite Holdest.
  cbn [JsMap.delete]. rewrite String.eqb_refl.
  cbn [JsMap.get] in Hnew.
  destruct (String.eqb query oldest); [discriminate|].
  clear - Hnew. induction rest as [|[k e] rest IH]; [reflexivity|].
  cbn [JsMap.get JsMap.set app] in *.
  destruct (String.eqb query k); [discriminate|]. now rewrite IH.
Qed.

(** X4 on a cache of two entries at capacity 2. *)
Lemma X4_cache_evicts_oldest_first_witness :
  SearchCache.set 2 "c"%string [3%nat] 9
    [("a"%string, mkCacheEntry [1%nat] 0);
     ("b"%string, mkCacheEntry [2%nat] 5)]
  = [("b"%string, mkCacheEntry [2%nat] 5);
     ("c"%string, mkCacheEntry [3%nat] 9)].
Proof.
  apply (X4_cache_evicts_oldest_first nat 2 9 "c"%string "a"%string [3%nat]
           (mkCacheEntry [1%nat] 0) [("b"%string, mkCacheEntry [2%nat] 5)]).
  - vm_compute. discriminate.
  - reflexivity.
  - reflexivity.
Defined.

(** X5. Overwriting does not count as use. A [set] of a key that the cache
    already holds, on a cache at capacity and under another, non-empty
    oldest key, still drops the oldest entry: the cache shrinks by one, and
    the overwritten key keeps its place in the eviction order with the new
    data and time. *)
Theorem X5_cache_overwrite_at_capacity_shrinks (T : Type)
    (maxSize now : Z) (query oldest : string) (items : list T)
    (first : CacheEntry T) (rest : SearchCache.t (T := T))
    (old : CacheEntry T) :
  SearchCache.size ((oldest, first) :: rest) >= maxSize ->
  JsString.truthy oldest = true ->
  query <> oldest ->
  JsMap.get query rest = Some old ->
  let cache' :=
    SearchCache.set maxSize query items now ((oldest, first) :: rest) in
  SearchCache.size cache' = SearchCache.size ((oldest, first) :: rest) - 1
  /\ JsMap.keys cache' = JsMap.keys rest
  /\ JsMap.get query cache' = Some (mkCacheEntry items now).
Proof.
  intros Hfull Holdest Hne Hold. cbv zeta.
  unfold SearchCache.set, SearchCache.evict.
  unfold SearchCache.size in Hfull.
  destruct (Z.geb_spec (JsMap.size ((oldest, first) :: rest)) maxSize);
    [|lia].
  cbn [JsMap.keys map fst]. rewrite Holdest.
  cbn [JsMap.delete]. rewrite String.eqb_refl.
  split; [|split].
  - unfold SearchCache.size, JsMap.size. rewrite JsMap_set_length, Hold.
    cbn [List.length]. lia.
  - fold (JsMap.keys rest). now rewrite JsMap_keys_set, Hold.
  - apply JsMap_get_set_same.
Qed.

(** X5 on a cache of two entries at capacity 2, overwriting the newer. *)
Lemma X5_cache_overwrite_at_capacity_shrinks_witness :
  let cache :=
    [("a"%string, mkCacheEntry [1%nat] 0);
     ("b"%string, mkCacheEntry [2%nat] 5)] in
  let cache' := SearchCache.set 2 "b"%string [3%nat] 9 cache in
  SearchCache.size cache' = SearchCache.size cache - 1
  /\ JsMap.keys cache' = ["b"%string]
  /\ JsMap.get "b"%string cache' = Some (mkCacheEntry [3%nat] 9).
Proof.
  cbv zeta.
  apply (X5_cache_overwrite_at_capacity_shrinks nat 2 9 "b"%string "a"%string
           [3%nat] (mkCacheEntry [1%nat] 0)
           [("b"%string, mkCacheEntry [2%nat] 5)] (mkCacheEntry [2%nat] 5)).
  - vm_compute. discriminate.
  - reflexivity.
  - discriminate.
  - reflexivity.
Defined.

(** X6. [fuzzyMatch] answers only with the data of an entry that is in the
    cache, has not expired, and whose key, in lower case, is a prefix of the
    lower-cased query or contains it; and it never misses when the cache
    holds a fresh entry under the query itself. *)
Theorem X6_fuzzyMatch_sound_and_covers_exact (T : Type) (duration now : Z)
    (query : string) (cache : SearchCache.t (T := T)) :
  (forall items,
      SearchCache.fuzzyMatch duration query now cache = Some items ->
      exists k entry,
        In (k, entry) cache
        /\ now - entry_timestamp entry <= duration
        /\ items = entry_data entry
        /\ (JsString.startsWith (JsString.toLowerCase query)
              (JsString.toLowerCase k) = true
            \/ JsString.includes (JsString.toLowerCase k)
                 (JsString.toLowerCase query) = true))
  /\ (forall items,
         fst (SearchCache.get duration query now cache) = Some items ->
         SearchCache.fuzzyMatch duration query now cache <> None).
Proof.
  split.
  - intros items H. unfold SearchCache.fuzzyMatch in H.
    destruct (fuzzyMatch_loop_sound duration _ now cache items H)
      as (k & entry & Hin & Hexp & Hdata & Hm).
    exists k, entry. repeat split; try assumption.
    + unfold SearchCache.expired in Hexp.
      destruct (Z.gtb_spec (now - entry_timestamp entry) duration);
        [discriminate|lia].
    + now apply orb_true_iff in Hm.
  - intros items Hget. unfold SearchCache.get in Hget.
    destruct (JsMap.get query cache) as [entry|] eqn:Hg; [|discriminate].
    destruct (SearchCache.expired duration now entry) eqn:Hexp;
      [discriminate|].
    now apply (fuzzyMatch_loop_exact duration query now cache entry).
Qed.

(** X6 on a cache that holds "smith": the query "Smi" is answered from it,
    and so is "smith" itself. *)
Lemma X6_fuzzyMatch_sound_and_covers_exact_witness :
  let cache := SearchCache.set 50 "smith"%string [1%nat] 0 [] in
  (exists k entry,
      In (k, entry) cache
      /\ 10 - entry_timestamp entry <= 100
      /\ [1%nat] = entry_data entry
      /\ (JsString.startsWith (JsString.toLowerCase "Smi"%string)
            (JsString.toLowerCase k) = true
          \/ JsString.includes (JsString.toLowerCase k)
               (JsString.toLowerCase "Smi"%string) = true))
  /\ SearchCache.fuzzyMatch 100 "smith"%string 10 cache <> None.
Proof.
  cbv zeta. split.
  - apply (proj1 (X6_fuzzyMatch_sound_and_covers_exact nat 100 10
                    "Smi"%string
                    (SearchCache.set 50 "smith"%string [1%nat] 0 []))
             [1%nat]).
    reflexivity.
  - apply (proj2 (X6_fuzzyMatch_sound_and_covers_exact nat 100 10
                    "smith"%string
                    (SearchCache.set 50 "smith"%string [1%nat] 0 []))
             [1%nat]).
    reflexivity.
Defined.

(* ------------------------------------------------------------------------ *)
(** ** Dispatching a search                                                   *)
(* ------------------------------------------------------------------------ *)

Lemma trimEnd_idempotent (s : string) :
  JsString.trimEnd (JsString.trimEnd s) = JsString.trimEnd s.
Proof.
  induction s as [|c s IH]; [reflexivity|].
  cbn [JsString.trimEnd].
  destruct (JsString.is_ws c && negb (JsString.truthy (JsString.trimEnd s)))
    eqn:E; [reflexivity|].
  cbn [JsString.trimEnd]. now rewrite IH, E.
Qed.

Lemma trimStart_head (s : string) (c : ascii) (s' : string) :
  JsString.trimStart s = String c s' -> JsString.is_ws c = false.
Proof.
  induction s as [|a s IH]; cbn [JsString.trimStart]; [discriminate|].
  destruct (JsString.is_ws a) eqn:E; [exact IH|].
  now intros [= <- _].
Qed.

Lemma trimEnd_head (c : ascii) (s : string) :
  JsString.is_ws c = false ->
  JsString.trimEnd (String c s) = String c (JsString.trimEnd s).
Proof. intros H. cbn [JsString.trimEnd]. now rewrite H. Qed.

Lemma trim_idempotent (s : string) :
  JsString.trim (JsString.trim s) = JsString.trim s.
Proof.
  unfold JsString.trim.
  destruct (JsString.trimStart s) as [|c s'] eqn:E; [reflexivity|].
  pose proof (trimStart_head s c s' E) as Hc.
  rewrite (trimEnd_head c s' Hc).
  cbn [JsString.trimStart]. rewrite Hc.
  rewrite (trimEnd_head c _ Hc). now rewrite trimEnd_idempotent.
Qed.

Section DispatchFacts.
Variable props : Props.
Variable abortMessage : string.

(** The three ways through [performSearch]. *)
Lemma performSearch_dispatched q mode now w :
  JsString.truthy (JsString.trim q) = true ->
  minQueryLength props <= JsString.strlen (JsString.trim q) ->
  performSearch props abortMessage q mode now w
  = match
      Strategy.execute (cacheDuration props) (rateLimit props)
        (rateLimitWindow props) mode
        (performLocalSearch props (recentSearches w)) (JsString.trim q) now
        (shared w)
    with
    | (Ready result, s) =>
        performSearch_finish mode (JsString.trim q) (inr result)
          (with_shared s (loading w))
    | (AwaitApi q' caller, s) =>
        performApiSearch props abortMessage (TaskSearch caller mode q') now
          (with_shared s (loading w))
    end.
Proof.
  intros Htruthy Hmin. unfold performSearch. rewrite Htruthy.
  destruct (Z.ltb_spec (JsString.strlen (JsString.trim q))
              (minQueryLength props)); [lia|].
  cbn [negb orb]. unfold strategy_execute.
  cbn [recentSearches shared setApiResult].
  destruct (Strategy.execute _ _ _ _ _ _ _ _) as [[r|q' caller] s];
    reflexivity.
Qed.

Lemma performSearch_finish_applied mode q (r : SearchResult User) w :
  currentStrategyRef w = mode ->
  let w' := performSearch_finish mode q (inr r) w in
  results (apiResult w') = data r
  /\ api_error (apiResult w') = or_null (error r)
  /\ isDropdownOpen (apiResult w') = true
  /\ isLoading (apiResult w') = false
  /\ searchStats w' = searchStats (updateStats (source r) w).
Proof.
  intros Hmode. cbv zeta. unfold performSearch_finish.
  rewrite (proj2 (SearchMode_eqb_eq _ _) Hmode). cbn [negb].
  destruct (0 <? List.length (data r))%nat; repeat split.
Qed.

Lemma performSearch_finish_stats mode q o w :
  stats_step (searchStats w) (searchStats (performSearch_finish mode q o w)).
Proof.
  unfold performSearch_finish, stats_step.
  destruct o as [e|r].
  - left. case_branches; reflexivity.
  - destruct (negb (SearchMode_eqb (currentStrategyRef w) mode));
      [now left|].
    destruct (source r); destruct (0 <? List.length (data r))%nat; cbn;
      first [ left; reflexivity
            | right; left; reflexivity
            | right; right; left; reflexivity
            | right; right; right; reflexivity ].
Qed.

Lemma performSearch_finish_apiCalls mode q (r : SearchResult User) w :
  source r <> src_api ->
  apiCalls (searchStats (performSearch_finish mode q (inr r) w))
  = apiCalls (searchStats w).
Proof.
  intros Hsrc. unfold performSearch_finish.
  destruct (negb (SearchMode_eqb (currentStrategyRef w) mode));
    [reflexivity|].
  destruct (source r); try contradiction;
    destruct (0 <? List.length (data r))%nat; reflexivity.
Qed.

Lemma cache_get_hit (T : Type) duration query now
    (cache : SearchCache.t (T := T)) items :
  fst (SearchCache.get duration query now cache) = Some items ->
  SearchCache.get duration query now cache = (Some items, cache).
Proof.
  unfold SearchCache.get.
  destruct (JsMap.get query cache) as [entry|]; [|discriminate].
  destruct (SearchCache.expired duration now entry); [discriminate|].
  cbn [fst]. now intros [= ->].
Qed.

Lemma manual_execute_ready (T : Type) duration
    (localSearch : string -> list T) query now (s : Strategy.Shared T) :
  exists r s',
    Strategy.manual_execute duration localSearch query now s = (Ready r, s')
    /\ Strategy.requests s' = Strategy.requests s
    /\ source r <> src_api.
Proof.
  unfold Strategy.manual_execute, Strategy.cache_get.
  destruct (SearchCache.get duration query now (Strategy.cache s))
    as [[cached|] c]; eexists _, _; repeat split; discriminate.
Qed.

End DispatchFacts.

(** X7. White space around the query does not matter to a search:
    [performSearch] does the same on a query and on its trimmed form
    (trimming twice is trimming once). *)
Theorem X7_performSearch_ignores_surrounding_space (props : Props)
    (abortMessage q : string) (mode : SearchMode) (now : Z) (w : World) :
  JsString.trim (JsString.trim q) = JsString.trim q
  /\ performSearch props abortMessage (JsString.trim q) mode now w
     = performSearch props abortMessage q mode now w.
Proof.
  split; [apply trim_idempotent|].
  unfold performSearch. now rewrite trim_idempotent.
Qed.

(** X8. Typing in manual mode never reaches the remote source: whatever is
    typed, [handleInputChange] issues no fetch, arms no timer, leaves the
    rate limiter's timestamps alone and counts no API call. *)
Theorem X8_manual_typing_stays_local (props : Props)
    (abortMessage value : string) (now : Z) (w : World) :
  searchMode w = manual ->
  let w' := handleInputChange props abortMessage value now w in
  fetches w' = fetches w
  /\ debounceTimer w' = debounceTimer w
  /\ Strategy.requests (shared w') = Strategy.requests (shared w)
  /\ apiCalls (searchStats w') = apiCalls (searchStats w).
Proof.
  intros Hmanual. cbv zeta. unfold handleInputChange.
  destruct (JsString.truthy (JsString.trim value)) eqn:Htruthy;
    cbn [negb]; [|repeat split].
  cbn [searchMode setApiResult setQuery]. rewrite Hmanual. cbn [SearchMode_eqb].
  destruct (Z.geb_spec (JsString.strlen (JsString.trim value))
              (minQueryLength props)) as [Hmin|Hshort]; [|repeat split].
  rewrite performSearch_dispatched;
    rewrite ?trim_idempotent; [|assumption|lia].
  cbn [Strategy.execute recentSearches shared].
  match goal with
  | |- context [Strategy.manual_execute ?d ?l ?q ?n ?s] =>
      destruct (manual_execute_ready User d l q n s)
        as (r & s' & -> & Hreq & Hsrc)
  end.
  match goal with
  | |- context [performSearch_finish ?m ?tq ?o ?w0] =>
      destruct (performSearch_finish_control m tq o w0) as (Hc & Hs & _)
  end.
  split; [exact (control_fetches _ _ Hc)|].
  split; [exact (f_equal (fun c => snd (fst c)) Hc)|].
  split; [rewrite Hs; exact Hreq|].
  now rewrite performSearch_finish_apiCalls.
Qed.

(** X8 on the initial world of a component in manual mode. *)
Lemma X8_manual_typing_stays_local_witness :
  let w := initialWorld (propsWith manual 60) in
  let w' :=
    handleInputChange (propsWith manual 60) "aborted"%string "alice"%string 0
      w in
  fetches w' = fetches w
  /\ debounceTimer w' = debounceTimer w
  /\ Strategy.requests (shared w') = Strategy.requests (shared w)
  /\ apiCalls (searchStats w') = apiCalls (searchStats w).
Proof.
  apply (X8_manual_typing_stays_local (propsWith manual 60) "aborted"%string
           "alice"%string 0 (initialWorld (propsWith manual 60))).
  reflexivity.
Defined.

Section StrategyOutcomes.
Variable props : Props.
Variable abortMessage : string.

Lemma resume_task_rejected_shared t e now w :
  shared (resume_task props t (Rejected e) now w) = shared w.
Proof.
  destruct t as [caller mode q|q]; cbn [resume_task].
  - destruct (strategy_resume props caller q (Rejected e) now w)
      as [r w1] eqn:E.
    destruct (performSearch_finish_control mode q (inr r) w1) as (_ & -> & _).
    pose proof (strategy_resume_frame props caller q (Rejected e) now w)
      as (_ & _ & _ & _ & H).
    rewrite E in H. cbn [snd] in H. rewrite H.
    apply execute_resume_rejected.
  - unfold submit_resume. case_branches; reflexivity.
Qed.

Lemma resume_task_resolved_shared t items now w :
  shared (resume_task props t (Resolved items) now w)
  = Strategy.cache_set (maxCacheSize props) (task_query t) items now
      (Strategy.limiter_record now (shared w)).
Proof.
  destruct t as [caller mode q|q]; cbn [resume_task task_query].
  - destruct (strategy_resume props caller q (Resolved items) now w)
      as [r w1] eqn:E.
    destruct (performSearch_finish_control mode q (inr r) w1) as (_ & -> & _).
    pose proof (strategy_resume_frame props caller q (Resolved items) now w)
      as (_ & _ & _ & _ & H).
    rewrite E in H. cbn [snd] in H. rewrite H.
    destruct caller; reflexivity.
  - reflexivity.
Qed.

Lemma abort_shared now w :
  shared (abort props abortMessage now w) = shared w.
Proof.
  unfold abort. destruct (abortControllerRef w) as [n|]; [|reflexivity].
  destruct (find_task n (inflight w)) as [t|]; [|reflexivity].
  now rewrite resume_task_rejected_shared.
Qed.

Lemma abort_modes now w :
  modes (abort props abortMessage now w) = modes w.
Proof.
  unfold abort. destruct (abortControllerRef w) as [n|]; [|reflexivity].
  destruct (find_task n (inflight w)) as [t|]; [|reflexivity].
  match goal with
  | |- context [resume_task props t ?o now ?w0] =>
      pose proof (resume_task_control props t o now w0) as Hc
  end.
  exact (f_equal fst Hc).
Qed.

(** A fresh entry under the query itself is what every strategy but the
    instant one answers with (the conservative one for queries longer than
    3). *)
Lemma execute_exact_hit mode (localSearch : string -> list User) query now
    (s : Strategy.Shared User) items :
  mode <> instant ->
  (mode = conservative -> JsString.strlen query > 3) ->
  fst (SearchCache.get (cacheDuration props) query now (Strategy.cache s))
  = Some items ->
  Strategy.execute (cacheDuration props) (rateLimit props)
    (rateLimitWindow props) mode localSearch query now s
  = (Ready (mkResult items src_cache None), s).
Proof.
  intros Hmode Hlong Hget.
  destruct mode; cbn [Strategy.execute]; [contradiction| | |].
  - unfold Strategy.balanced_execute, Strategy.cache_get.
    rewrite (cache_get_hit User _ _ _ _ _ Hget). now destruct s.
  - apply conservative_execute_cached; [now apply Hlong|exact Hget].
  - unfold Strategy.manual_execute, Strategy.cache_get.
    rewrite (cache_get_hit User _ _ _ _ _ Hget). now destruct s.
Qed.

Lemma performSearch_cache_hit q mode now w items :
  JsString.truthy (JsString.trim q) = true ->
  minQueryLength props <= JsString.strlen (JsString.trim q) ->
  mode <> instant ->
  (mode = conservative -> JsString.strlen (JsString.trim q) > 3) ->
  currentStrategyRef w = mode ->
  fst (SearchCache.get (cacheDuration props) (JsString.trim q) now
         (Strategy.cache (shared w))) = Some items ->
  let w' := performSearch props abortMessage q mode now w in
  results (apiResult w') = items
  /\ api_error (apiResult w') = None
  /\ searchStats w'
     = mkSearchStats (apiCalls (searchStats w))
         (cacheHits (searchStats w) + 1) (localSearches (searchStats w))
  /\ fetches w' = fetches w
  /\ shared w' = shared w.
Proof.
  intros Htruthy Hmin Hmode Hlong Href Hget. cbv zeta.
  rewrite (performSearch_dispatched props abortMessage q mode now w
             Htruthy Hmin).
  rewrite (execute_exact_hit mode _ _ now (shared w) items Hmode Hlong Hget).
  match goal with
  | |- context [performSearch_finish ?m ?tq ?o ?w0] =>
      destruct (performSearch_finish_control m tq o w0) as (Hc & Hs & _);
      destruct (performSearch_finish_applied m tq
                  (mkResult items src_cache None) w0 Href)
        as (Hres & Herr & _ & _ & Hstats)
  end.
  split; [exact Hres|]. split; [exact Herr|]. split; [exact Hstats|].
  split; [exact (control_fetches _ _ Hc)|].
  rewrite Hs. now destruct w as [? ? ? ? ? []].
Qed.

End StrategyOutcomes.

(** X9. The instant strategy decides by the rate limiter alone. When the
    limiter reports limited, a dispatched search shows no results and the
    message of the rate limit, counts nothing, issues no fetch and leaves
    the cache as it is. When it does not, the search goes remote, whatever
    the cache holds: its fetch is then the one in flight. *)
Theorem X9_instant_decides_by_rate_limiter (props : Props)
    (abortMessage q : string) (now : Z) (w : World) :
  JsString.truthy (JsString.trim q) = true ->
  minQueryLength props <= JsString.strlen (JsString.trim q) ->
  let w' := performSearch props abortMessage q instant now w in
  (fst (RateLimiter.isLimited (rateLimit props) (rateLimitWindow props) now
          (Strategy.requests (shared w))) = true ->
   currentStrategyRef w = instant ->
   results (apiResult w') = []
   /\ api_error (apiResult w')
      = Some "Rate limit exceeded. Please slow down."%string
   /\ searchStats w' = searchStats w
   /\ fetches w' = fetches w
   /\ Strategy.cache (shared w') = Strategy.cache (shared w))
  /\ (fst (RateLimiter.isLimited (rateLimit props) (rateLimitWindow props)
             now (Strategy.requests (shared w))) = false ->
      single_flight w ->
      inflight w'
      = [(nextController w, TaskSearch ReturnsIt instant (JsString.trim q))]
      /\ Strategy.cache (shared w') = Strategy.cache (shared w)).
Proof.
  intros Htruthy Hmin w'. subst w'.
  rewrite (performSearch_dispatched props abortMessage q instant now w
             Htruthy Hmin).
  cbn [Strategy.execute]. unfold Strategy.instant_execute.
  unfold Strategy.tryApiSearch, Strategy.limiter_isLimited.
  destruct (RateLimiter.isLimited (rateLimit props) (rateLimitWindow props)
              now (Strategy.requests (shared w))) as [limited reqs].
  cbn [fst]. split; intros -> H.
  - match goal with
    | |- context [performSearch_finish ?m ?tq (inr ?r) ?w0] =>
        destruct (performSearch_finish_control m tq (inr r) w0)
          as (Hc & Hs & _);
        destruct (performSearch_finish_applied m tq r w0 H)
          as (Hres & Herr & _ & _ & Hstats)
    end.
    split; [exact Hres|]. split; [exact Herr|]. split; [exact Hstats|].
    split; [exact (control_fetches _ _ Hc)|]. now rewrite Hs.
  - match goal with
    | |- context [performApiSearch props abortMessage ?t now ?w0] =>
        assert (Hsf : single_flight w0)
          by (apply (single_flight_of_fetches w); [assumption|now left]);
        pose proof (performApiSearch_fetches props abortMessage t now w0 Hsf)
          as Hf
    end.
    split; [exact (f_equal snd Hf)|].
    unfold performApiSearch. cbn [shared with_fetches].
    now rewrite abort_shared.
Qed.

(** X9 on a component whose budget of one call per minute is used up, and
    on a fresh one whose cache is empty. *)
Lemma X9_instant_decides_by_rate_limiter_witness :
  let props := propsWith instant 1 in
  let used :=
    run props "aborted"%string
      [(0, InputChange "smith"%string); (300, DebounceFire);
       (400, FetchSettled 0 (FetchResponse true 200 (inr [alice])))]
      (initialWorld props) in
  let w' := performSearch props "aborted"%string "smith"%string instant 500
              used in
  (results (apiResult w') = []
   /\ api_error (apiResult w')
      = Some "Rate limit exceeded. Please slow down."%string
   /\ searchStats w' = searchStats used
   /\ fetches w' = fetches used
   /\ Strategy.cache (shared w') = Strategy.cache (shared used))
  /\ inflight
       (performSearch props "aborted"%string "smith"%string instant 0
          (initialWorld props))
     = [(0%nat, TaskSearch ReturnsIt instant "smith"%string)].
Proof.
  cbv zeta. split.
  - apply (proj1 (X9_instant_decides_by_rate_limiter (propsWith instant 1)
                    "aborted"%string "smith"%string 500
                    (run (propsWith instant 1) "aborted"%string
                       [(0, InputChange "smith"%string); (300, DebounceFire);
                        (400,
                         FetchSettled 0
                           (FetchResponse true 200 (inr [alice])))]
                       (initialWorld (propsWith instant 1)))
                    eq_refl ltac:(vm_compute; discriminate)));
      reflexivity.
  - apply (proj2 (X9_instant_decides_by_rate_limiter (propsWith instant 1)
                    "aborted"%string "smith"%string 0
                    (initialWorld (propsWith instant 1))
                    eq_refl ltac:(vm_compute; discriminate)));
      [reflexivity|now left].
Defined.

(** X10. A query that the cache holds fresh under its exact text is served
    from the cache in balanced and manual mode, and in conservative mode
    when it is longer than 3: the cached list is shown without a message,
    one cache hit is counted and nothing else, no fetch is issued, and cache
    and rate limiter stay as they are. *)
Theorem X10_fresh_exact_hit_served_from_cache (props : Props)
    (abortMessage q : string) (mode : SearchMode) (now : Z) (w : World)
    (items : list User) :
  JsString.truthy (JsString.trim q) = true ->
  minQueryLength props <= JsString.strlen (JsString.trim q) ->
  mode <> instant ->
  (mode = conservative -> JsString.strlen (JsString.trim q) > 3) ->
  currentStrategyRef w = mode ->
  fst (SearchCache.get (cacheDuration props) (JsString.trim q) now
         (Strategy.cache (shared w))) = Some items ->
  let w' := performSearch props abortMessage q mode now w in
  results (apiResult w') = items
  /\ api_error (apiResult w') = None
  /\ searchStats w'
     = mkSearchStats (apiCalls (searchStats w))
         (cacheHits (searchStats w) + 1) (localSearches (searchStats w))
  /\ fetches w' = fetches w
  /\ shared w' = shared w.
Proof.
  intros Htruthy Hmin Hmode Hlong Href Hget.
  destruct (performSearch_cache_hit props abortMessage q mode now w items
              Htruthy Hmin Hmode Hlong Href Hget)
    as (Hres & Herr & Hstats & Hfetches & Hshared).
  repeat split; assumption.
Qed.

(** X10 in balanced mode after "smith" was answered by the remote source. *)
Lemma X10_fresh_exact_hit_served_from_cache_witness :
  let props := propsWith balanced 60 in
  let w :=
    run props "aborted"%string
      [(0, InputChange "smith"%string); (300, DebounceFire);
       (400, FetchSettled 0 (FetchResponse true 200 (inr [alice])))]
      (initialWorld props) in
  let w' := performSearch props "aborted"%string " smith"%string balanced 500
              w in
  results (apiResult w') = [alice]
  /\ api_error (apiResult w') = None
  /\ searchStats w' = mkSearchStats 1 1 0
  /\ fetches w' = fetches w
  /\ shared w' = shared w.
Proof.
  cbv zeta.
  apply (X10_fresh_exact_hit_served_from_cache (propsWith balanced 60)
           "aborted"%string " smith"%string balanced 500
           (run (propsWith balanced 60) "aborted"%string
              [(0, InputChange "smith"%string); (300, DebounceFire);
               (400, FetchSettled 0 (FetchResponse true 200 (inr [alice])))]
              (initialWorld (propsWith balanced 60)))
           [alice]).
  - reflexivity.
  - vm_compute. discriminate.
  - discriminate.
  - discriminate.
  - reflexivity.
  - reflexivity.
Defined.

Section CacheKept.
Variable props : Props.
Variable abortMessage : string.
Variable q : string.
Variable entry : CacheEntry User.

(** An entry that has not expired survives a [get], of its own key or of
    another. *)
Lemma cache_get_keeps query now (cache : SearchCache.t (T := User)) :
  JsMap.get q cache = Some entry ->
  now - entry_timestamp entry <= cacheDuration props ->
  JsMap.get q (snd (SearchCache.get (cacheDuration props) query now cache))
  = Some entry.
Proof.
  intros Hq Hfresh. unfold SearchCache.get.
  destruct (JsMap.get query cache) as [e|] eqn:Hg; [|exact Hq].
  destruct (SearchCache.expired (cacheDuration props) now e) eqn:Hexp;
    [|exact Hq].
  cbn [snd]. destruct (String.eqb_spec query q) as [->|Hne].
  - assert (e = entry) by congruence. subst e.
    unfold SearchCache.expired in Hexp.
    destruct (Z.gtb_spec (now - entry_timestamp entry) (cacheDuration props));
      [lia|discriminate].
  - now rewrite JsMap_get_delete_other.
Qed.

(** Before its remote call a strategy changes the cache at most by the
    [get] of its query. *)
Lemma execute_cache mode (localSearch : string -> list User) query now
    (s : Strategy.Shared User) :
  let s' :=
    snd (Strategy.execute (cacheDuration props) (rateLimit props)
           (rateLimitWindow props) mode localSearch query now s) in
  Strategy.cache s' = Strategy.cache s
  \/ Strategy.cache s'
     = snd (SearchCache.get (cacheDuration props) query now
              (Strategy.cache s)).
Proof.
  cbv zeta. destruct mode; cbn [Strategy.execute].
  - left. unfold Strategy.instant_execute. apply tryApiSearch_requests.
  - right. unfold Strategy.balanced_execute, Strategy.cache_get.
    destruct (SearchCache.get (cacheDuration props) query now
                (Strategy.cache s)) as [[cached|] c]; [reflexivity|].
    cbn [Strategy.cache snd].
    destruct (SearchCache.fuzzyMatch (cacheDuration props) query now c);
      [reflexivity|].
    pose proof (tryApiSearch_requests User (rateLimit props)
                  (rateLimitWindow props) query now
                  (Strategy.mkShared c (Strategy.requests s))) as [_ H].
    destruct (Strategy.tryApiSearch (rateLimit props) (rateLimitWindow props)
                query now (Strategy.mkShared c (Strategy.requests s)))
      as [[r|q' caller] s']; exact H.
  - unfold Strategy.conservative_execute, Strategy.cache_get.
    destruct (JsString.strlen query <=? 3); [now left|]. right.
    destruct (SearchCache.get (cacheDuration props) query now
                (Strategy.cache s)) as [got c].
    cbn [Strategy.cache snd].
    destruct (match got with
              | Some items => Some items
              | None =>
                  SearchCache.fuzzyMatch (cacheDuration props) query now c
              end); [reflexivity|].
    unfold Strategy.limiter_isLimited. cbn [Strategy.requests Strategy.cache].
    destruct (RateLimiter.isLimited (rateLimit props) (rateLimitWindow props)
                now (Strategy.requests s)) as [[|] reqs]; [reflexivity|].
    apply (tryApiSearch_requests User).
  - right. unfold Strategy.manual_execute, Strategy.cache_get.
    destruct (SearchCache.get (cacheDuration props) query now
                (Strategy.cache s)) as [[cached|] c]; reflexivity.
Qed.

Lemma performSearch_keeps query mode now w :
  JsMap.get q (Strategy.cache (shared w)) = Some entry ->
  now - entry_timestamp entry <= cacheDuration props ->
  JsMap.get q
    (Strategy.cache (shared (performSearch props abortMessage query mode now w)))
  = Some entry.
Proof.
  intros Hq Hfresh. unfold performSearch.
  destruct (negb _ || _)%bool; [exact Hq|].
  unfold strategy_execute. cbn [recentSearches shared setApiResult].
  pose proof (execute_cache mode (performLocalSearch props (recentSearches w))
                (JsString.trim query) now (shared w)) as Hcache.
  cbv zeta in Hcache.
  destruct (Strategy.execute _ _ _ _ _ _ _ _) as [[r|q' caller] s'];
    cbn [snd] in Hcache.
  - match goal with
    | |- context [performSearch_finish ?m ?tq ?o ?w0] =>
        destruct (performSearch_finish_control m tq o w0) as (_ & -> & _)
    end.
    cbn [shared with_shared].
    destruct Hcache as [->| ->]; [exact Hq|now apply cache_get_keeps].
  - unfold performApiSearch. cbn [shared with_fetches].
    rewrite abort_shared. cbn [shared with_shared].
    destruct Hcache as [->| ->]; [exact Hq|now apply cache_get_keeps].
Qed.

Lemma step_keeps now ev w :
  stores_nothing ev ->
  JsMap.get q (Strategy.cache (shared w)) = Some entry ->
  now - entry_timestamp entry <= cacheDuration props ->
  JsMap.get q (Strategy.cache (shared (step props abortMessage now ev w)))
  = Some entry.
Proof.
  intros Hev Hq Hfresh. destruct ev as [value| | | |mode|n o]; cbn [step].
  - unfold handleInputChange.
    destruct (negb _); [exact Hq|].
    destruct (SearchMode_eqb _ manual); [|exact Hq].
    destruct (_ >=? _); [|exact Hq].
    now apply performSearch_keeps.
  - destruct (debounceTimer w) as [[query mode]|]; [|exact Hq].
    now apply performSearch_keeps.
  - unfold handleKeyDown_Enter. destruct (_ && _)%bool.
    + unfold performApiSearch. cbn [shared with_fetches].
      now rewrite abort_shared.
    + destruct (results (apiResult w)); exact Hq.
  - unfold clearSearch. now rewrite abort_shared.
  - unfold handleStrategyChange. cbn [shared setApiResult].
    now rewrite abort_shared.
  - destruct (find_task n (inflight w)) as [t|]; [|exact Hq].
    destruct o as [e|ok status [e|body]]; cbn [performApiSearch_resume].
    + now rewrite resume_task_rejected_shared.
    + destruct (negb ok); now rewrite resume_task_rejected_shared.
    + destruct ok; [contradiction|]. cbn [negb].
      now rewrite resume_task_rejected_shared.
Qed.

Lemma run_keeps evs w :
  quiet_run (entry_timestamp entry) (cacheDuration props) evs ->
  JsMap.get q (Strategy.cache (shared w)) = Some entry ->
  JsMap.get q (Strategy.cache (shared (run props abortMessage evs w)))
  = Some entry.
Proof.
  intros Hquiet. revert w.
  induction Hquiet as [|[now ev] evs [Htime Hev] _ IH]; intros w Hq;
    cbn [run]; [exact Hq|].
  apply IH. now apply step_keeps.
Qed.

End CacheKept.

(** X11. What the remote source answered is reused until it expires or
    another answer is stored. Once a chain (a strategy's search or a manual
    submit) has resumed with the data of its remote call, the cache holds
    them under the chain's query through every run of events that happen
    within [cacheDuration] ms of the answer and among which no fetch
    settles with a good response; a search for that query dispatched after
    such a run, still within [cacheDuration] ms, in any mode but instant
    (in conservative mode for a query longer than 3), shows the same data
    from the cache, counts one cache hit and issues no fetch. *)
Theorem X11_remote_result_is_reused (props : Props) (abortMessage : string)
    (t : Task) (items : list User) (mode : SearchMode) (now later : Z)
    (evs : list (Z * Event)) (w : World) :
  let q := task_query t in
  let w1 := resume_task props t (Resolved items) now w in
  let w2 := run props abortMessage evs w1 in
  quiet_run now (cacheDuration props) evs ->
  later - now <= cacheDuration props ->
  JsString.trim q = q ->
  JsString.truthy q = true ->
  minQueryLength props <= JsString.strlen q ->
  mode <> instant ->
  (mode = conservative -> JsString.strlen q > 3) ->
  currentStrategyRef w2 = mode ->
  JsMap.get q (Strategy.cache (shared w2)) = Some (mkCacheEntry items now)
  /\ fst (SearchCache.get (cacheDuration props) q later
            (Strategy.cache (shared w2))) = Some items
  /\ (let w3 := performSearch props abortMessage q mode later w2 in
      results (apiResult w3) = items
      /\ cacheHits (searchStats w3) = (cacheHits (searchStats w2) + 1)%nat
      /\ apiCalls (searchStats w3) = apiCalls (searchStats w2)
      /\ fetches w3 = fetches w2).
Proof.
  intros q w1 w2 Hquiet Hfresh Htrim Htruthy Hmin Hmode Hlong Href.
  assert (Hstored : JsMap.get q (Strategy.cache (shared w1))
                    = Some (mkCacheEntry items now)).
  { subst w1. rewrite resume_task_resolved_shared. fold q.
    cbn [Strategy.cache_set Strategy.cache Strategy.limiter_record].
    unfold SearchCache.set. apply JsMap_get_set_same. }
  assert (Hkept : JsMap.get q (Strategy.cache (shared w2))
                  = Some (mkCacheEntry items now)).
  { subst w2.
    apply (run_keeps props abortMessage q (mkCacheEntry items now));
      assumption. }
  assert (Hget : fst (SearchCache.get (cacheDuration props) q later
                        (Strategy.cache (shared w2))) = Some items).
  { rewrite (cache_get_fresh (cacheDuration props) q later _
               (mkCacheEntry items now) Hkept); [reflexivity|exact Hfresh]. }
  split; [exact Hkept|]. split; [exact Hget|]. cbv zeta.
  destruct (performSearch_cache_hit props abortMessage q mode later w2 items)
    as (Hres & _ & Hstats & Hf & _); rewrite ?Htrim; try assumption.
  rewrite Hstats. repeat split; assumption.
Qed.

(** X11 in manual mode: "smith" is submitted with Enter and answered;
    "jones" is typed and cleared; then "smith" is typed again. *)
Lemma X11_remote_result_is_reused_witness :
  let props := propsWith manual 60 in
  let w1 :=
    resume_task props (TaskSubmit "smith"%string) (Resolved [alice]) 400
      (initialWorld props) in
  let w2 :=
    run props "aborted"%string
      [(450, InputChange "jones"%string); (470, ClearSearch)] w1 in
  JsMap.get "smith"%string (Strategy.cache (shared w2))
  = Some (mkCacheEntry [alice] 400)
  /\ fst (SearchCache.get (cacheDuration props) "smith"%string 500
            (Strategy.cache (shared w2))) = Some [alice]
  /\ (let w3 := performSearch props "aborted"%string "smith"%string manual
                  500 w2 in
      results (apiResult w3) = [alice]
      /\ cacheHits (searchStats w3) = (cacheHits (searchStats w2) + 1)%nat
      /\ apiCalls (searchStats w3) = apiCalls (searchStats w2)
      /\ fetches w3 = fetches w2).
Proof.
  cbv zeta.
  apply (X11_remote_result_is_reused (propsWith manual 60) "aborted"%string
           (TaskSubmit "smith"%string) [alice] manual 400 500
           [(450, InputChange "jones"%string); (470, ClearSearch)]
           (initialWorld (propsWith manual 60))).
  - repeat constructor; vm_compute; discriminate.
  - vm_compute. discriminate.
  - reflexivity.
  - reflexivity.
  - vm_compute. discriminate.
  - discriminate.
  - discriminate.
  - reflexivity.
Defined.

(** X12. A failed remote call in balanced mode. When the call that the
    balanced strategy awaits rejects (with a message that is not empty) and
    the strategy is still the active one, local history takes over if it
    has a match: the matches are shown with the message of the degraded
    mode and one local search is counted. Without a local match the list is
    empty, the error of the call is shown, and the failed call is counted
    as an API call. Cache and rate limiter are untouched either way. *)
Theorem X12_balanced_failure_falls_back_to_history (props : Props)
    (q : string) (e : JsError) (now : Z) (w : World) :
  let message :=
    if instanceofError e then err_message e else "Search failed"%string in
  let localData := performLocalSearch props (recentSearches w) q in
  let w' :=
    resume_task props (TaskSearch BalancedExecute balanced q) (Rejected e)
      now w in
  currentStrategyRef w = balanced ->
  JsString.truthy message = true ->
  (localData <> [] ->
   results (apiResult w') = localData
   /\ api_error (apiResult w')
      = Some "Showing local results (API unavailable)"%string
   /\ searchStats w'
      = mkSearchStats (apiCalls (searchStats w)) (cacheHits (searchStats w))
          (localSearches (searchStats w) + 1))
  /\ (localData = [] ->
      results (apiResult w') = []
      /\ api_error (apiResult w') = Some message
      /\ searchStats w'
         = mkSearchStats (apiCalls (searchStats w) + 1)
             (cacheHits (searchStats w)) (localSearches (searchStats w)))
  /\ shared w' = shared w.
Proof.
  intros message localData w' Href Hmsg.
  split; [|split]; [| |apply resume_task_rejected_shared].
  - intros Hlocal. subst w'. cbn [resume_task]. unfold strategy_resume.
    cbn [Strategy.execute_resume Strategy.balanced_resume
           Strategy.tryApiSearch_resume].
    unfold Strategy.balanced_finish. cbn [error data truthy_opt].
    fold message localData. rewrite Hmsg. cbn [List.length Nat.eqb andb].
    destruct localData as [|u us] eqn:El; [contradiction|].
    cbn [List.length Nat.ltb Nat.leb].
    match goal with
    | |- context [performSearch_finish ?m ?tq (inr ?r) ?w0] =>
        destruct (performSearch_finish_applied m tq r w0 Href)
          as (Hres & Herr & _ & _ & Hstats)
    end.
    repeat split; assumption.
  - intros Hlocal. subst w'. cbn [resume_task]. unfold strategy_resume.
    cbn [Strategy.execute_resume Strategy.balanced_resume
           Strategy.tryApiSearch_resume].
    unfold Strategy.balanced_finish. cbn [error data truthy_opt].
    fold message localData. rewrite Hmsg, Hlocal.
    cbn [List.length Nat.eqb andb Nat.ltb Nat.leb].
    match goal with
    | |- context [performSearch_finish ?m ?tq (inr ?r) ?w0] =>
        destruct (performSearch_finish_applied m tq r w0 Href)
          as (Hres & Herr & _ & _ & Hstats)
    end.
    split; [exact Hres|]. split; [|exact Hstats].
    rewrite Herr. unfold or_null. cbn [error truthy_opt]. now rewrite Hmsg.
Qed.

(** X12 with Alice in the local history, for a query that matches her and
    for one that matches nothing. *)
Lemma X12_balanced_failure_falls_back_to_history_witness :
  let props := propsWith balanced 60 in
  let w :=
    run props "aborted"%string
      [(0, InputChange "smith"%string); (300, DebounceFire);
       (400, FetchSettled 0 (FetchResponse true 200 (inr [alice])))]
      (initialWorld props) in
  let failed := mkJsError true "TypeError" "Failed to fetch" in
  results
    (apiResult
       (resume_task props (TaskSearch BalancedExecute balanced "alice"%string)
          (Rejected failed) 900 w)) = [alice]
  /\ api_error
       (apiResult
          (resume_task props (TaskSearch BalancedExecute balanced "bob"%string)
             (Rejected failed) 900 w)) = Some "Failed to fetch"%string.
Proof.
  cbv zeta. split.
  - apply (proj1 (X12_balanced_failure_falls_back_to_history
                    (propsWith balanced 60) "alice"%string
                    (mkJsError true "TypeError" "Failed to fetch") 900
                    (run (propsWith balanced 60) "aborted"%string
                       [(0, InputChange "smith"%string); (300, DebounceFire);
                        (400,
                         FetchSettled 0
                           (FetchResponse true 200 (inr [alice])))]
                       (initialWorld (propsWith balanced 60)))
                    eq_refl eq_refl)).
    vm_compute. discriminate.
  - apply (proj1 (proj2 (X12_balanced_failure_falls_back_to_history
                    (propsWith balanced 60) "bob"%string
                    (mkJsError true "TypeError" "Failed to fetch") 900
                    (run (propsWith balanced 60) "aborted"%string
                       [(0, InputChange "smith"%string); (300, DebounceFire);
                        (400,
                         FetchSettled 0
                           (FetchResponse true 200 (inr [alice])))]
                       (initialWorld (propsWith balanced 60)))
                    eq_refl eq_refl))).
    reflexivity.
Defined.

(** X13. Enter in manual mode always goes remote. With a query of at least
    [minQueryLength] characters after trimming, [handleKeyDown] issues the
    fetch for the trimmed query without asking the rate limiter or the
    cache, and leaves both as they are; when the fetch resolves, its data
    are shown without a message, one API call is counted and the time is
    recorded with the rate limiter. *)
Theorem X13_manual_submit_always_fetches (props : Props)
    (abortMessage : string) (now : Z) (w : World) :
  searchMode w = manual ->
  minQueryLength props <= JsString.strlen (JsString.trim (query w)) ->
  single_flight w ->
  let q := JsString.trim (query w) in
  let w' := handleKeyDown_Enter props abortMessage now w in
  inflight w' = [(nextController w, TaskSubmit q)]
  /\ shared w' = shared w
  /\ (forall items later,
         let w'' := resume_task props (TaskSubmit q) (Resolved items) later
                      w' in
         results (apiResult w'') = items
         /\ api_error (apiResult w'') = None
         /\ apiCalls (searchStats w'') = (apiCalls (searchStats w') + 1)%nat
         /\ Strategy.requests (shared w'')
            = Strategy.requests (shared w) ++ [later]).
Proof.
  intros Hmanual Hmin Hsf q w'. subst q w'.
  unfold handleKeyDown_Enter. rewrite Hmanual. cbn [SearchMode_eqb andb].
  destruct (Z.geb_spec (JsString.strlen (JsString.trim (query w)))
              (minQueryLength props)); [|lia].
  cbn [query setApiResult].
  match goal with
  | |- context [performApiSearch props abortMessage ?t now ?w0] =>
      assert (Hsf0 : single_flight w0)
        by (apply (single_flight_of_fetches w); [assumption|now left]);
      pose proof (performApiSearch_fetches props abortMessage t now w0 Hsf0)
        as Hf;
      assert (Hsh : shared (performApiSearch props abortMessage t now w0)
                    = shared w)
        by (unfold performApiSearch; cbn [shared with_fetches];
            now rewrite abort_shared)
  end.
  split; [exact (f_equal snd Hf)|]. split; [exact Hsh|].
  intros items later. cbv zeta.
  rewrite resume_task_resolved_requests, Hsh.
  repeat split.
Qed.

(** X13 on a component in manual mode whose input holds " smith ". *)
Lemma X13_manual_submit_always_fetches_witness :
  let props := propsWith manual 0 in
  let w :=
    handleInputChange props "aborted"%string " smith "%string 0
      (initialWorld props) in
  inflight (handleKeyDown_Enter props "aborted"%string 10 w)
  = [(0%nat, TaskSubmit "smith"%string)]
  /\ shared (handleKeyDown_Enter props "aborted"%string 10 w) = shared w.
Proof.
  cbv zeta.
  destruct (X13_manual_submit_always_fetches (propsWith manual 0)
              "aborted"%string 10
              (handleInputChange (propsWith manual 0) "aborted"%string
                 " smith "%string 0 (initialWorld (propsWith manual 0))))
    as (Hi & Hs & _).
  - reflexivity.
  - vm_compute. discriminate.
  - now left.
  - split; [exact Hi|exact Hs].
Defined.

(* ------------------------------------------------------------------------ *)
(** ** Statistics                                                             *)
(* ------------------------------------------------------------------------ *)

Section StatsFacts.
Variable props : Props.
Variable abortMessage : string.

Lemma stats_step_le s s' : stats_step s s' -> stats_le s s'.
Proof.
  unfold stats_step, stats_le.
  intros [H|[H|[H|H]]]; subst s'; cbn; repeat split; lia.
Qed.

Lemma resume_task_stats t o now w :
  stats_step (searchStats w) (searchStats (resume_task props t o now w)).
Proof.
  destruct t as [caller mode q|q]; cbn [resume_task].
  - destruct (strategy_resume props caller q o now w) as [r w1] eqn:E.
    pose proof (strategy_resume_frame props caller q o now w)
      as (_ & _ & _ & Hs & _).
    rewrite E in Hs. cbn [snd] in Hs. rewrite <- Hs.
    apply performSearch_finish_stats.
  - unfold submit_resume, stats_step.
    destruct o as [items|e].
    + right; left. reflexivity.
    + left. case_branches; reflexivity.
Qed.

Lemma abort_stats now w :
  stats_step (searchStats w) (searchStats (abort props abortMessage now w)).
Proof.
  unfold abort. destruct (abortControllerRef w) as [n|]; [|now left].
  destruct (find_task n (inflight w)) as [t|]; [|now left].
  match goal with
  | |- context [resume_task props t ?o now ?w0] =>
      exact (resume_task_stats t o now w0)
  end.
Qed.

Lemma performApiSearch_stats t now w :
  stats_step (searchStats w)
    (searchStats (performApiSearch props abortMessage t now w)).
Proof. unfold performApiSearch. cbn. apply abort_stats. Qed.

Lemma performSearch_stats q mode now w :
  stats_step (searchStats w)
    (searchStats (performSearch props abortMessage q mode now w)).
Proof.
  unfold performSearch.
  destruct (negb _ || _)%bool; [now left|].
  unfold strategy_execute. cbn [recentSearches shared setApiResult].
  destruct (Strategy.execute _ _ _ _ _ _ _ _) as [[r|q' caller] s].
  - match goal with
    | |- context [performSearch_finish ?m ?tq ?o ?w0] =>
        exact (performSearch_finish_stats m tq o w0)
    end.
  - match goal with
    | |- context [performApiSearch props abortMessage ?t now ?w0] =>
        exact (performApiSearch_stats t now w0)
    end.
Qed.

Lemma step_stats now ev w :
  stats_step (searchStats w) (searchStats (step props abortMessage now ev w)).
Proof.
  destruct ev as [value| | | |mode|n o]; cbn [step].
  - unfold handleInputChange.
    destruct (negb _); [now left|].
    destruct (SearchMode_eqb _ manual); [|now left].
    destruct (_ >=? _); [|now left].
    match goal with
    | |- context [performSearch props abortMessage ?q ?m now ?w0] =>
        exact (performSearch_stats q m now w0)
    end.
  - destruct (debounceTimer w) as [[q mode]|]; [|now left].
    exact (performSearch_stats q mode now (with_timer None w)).
  - unfold handleKeyDown_Enter. destruct (_ && _)%bool.
    + match goal with
      | |- context [performApiSearch props abortMessage ?t now ?w0] =>
          exact (performApiSearch_stats t now w0)
      end.
    + left. destruct (results (apiResult w)); reflexivity.
  - unfold clearSearch.
    match goal with
    | |- context [abort props abortMessage now ?w0] =>
        exact (abort_stats now w0)
    end.
  - unfold handleStrategyChange. cbn [searchStats setApiResult].
    exact (abort_stats now (with_mode mode w)).
  - destruct (find_task n (inflight w)) as [t|]; [|now left].
    match goal with
    | |- context [resume_task props t ?o now ?w0] =>
        exact (resume_task_stats t o now w0)
    end.
Qed.

End StatsFacts.

(** X14. The statistics only count up, and by one at a time: each event
    (keystroke, timer, Enter, clear, strategy change, settled fetch)
    leaves the three counters as they are or adds one to exactly one of
    them; so along any run no counter ever goes down. *)
Theorem X14_stats_count_up_one_at_a_time (props : Props)
    (abortMessage : string) :
  (forall now ev w,
      stats_step (searchStats w)
        (searchStats (step props abortMessage now ev w)))
  /\ (forall evs w,
         stats_le (searchStats w)
           (searchStats (run props abortMessage evs w))).
Proof.
  split; [apply step_stats|].
  induction evs as [|[now ev] evs IH]; intros w; cbn [run].
  - unfold stats_le. repeat split; lia.
  - pose proof (stats_step_le _ _ (step_stats props abortMessage now ev w))
      as (Ha & Hc & Hl).
    destruct (IH (step props abortMessage now ev w)) as (Ha' & Hc' & Hl').
    unfold stats_le. repeat split; lia.
Qed.

(* ------------------------------------------------------------------------ *)
(** ** Filtering users: [performLocalSearch] and [performApiSearch]           *)
(* ------------------------------------------------------------------------ *)

Section SliceFacts.
Context {A : Type}.

Lemma In_firstn (n : nat) (xs : list A) (x : A) :
  In x (firstn n xs) -> In x xs.
Proof.
  intros H. rewrite <- (firstn_skipn n xs). apply in_or_app. now left.
Qed.

Lemma slice0_In (n : Z) (xs : list A) (x : A) :
  In x (slice0 n xs) -> In x xs.
Proof. unfold slice0. destruct (n <? 0); apply In_firstn. Qed.

Lemma slice0_length (n : Z) (xs : list A) :
  0 <= n -> Z.of_nat (List.length (slice0 n xs)) <= n.
Proof.
  intros Hn. unfold slice0. destruct (Z.ltb_spec n 0); [lia|].
  rewrite length_firstn. lia.
Qed.

Lemma slice0_all (n : Z) (xs : list A) :
  Z.of_nat (List.length xs) <= n -> slice0 n xs = xs.
Proof.
  intros Hn. unfold slice0. destruct (Z.ltb_spec n 0); [lia|].
  apply firstn_all2. lia.
Qed.

Lemma slice0_NoDup_map {B : Type} (f : A -> B) (n : Z) (xs : list A) :
  NoDup (map f xs) -> NoDup (map f (slice0 n xs)).
Proof.
  intros H. unfold slice0.
  destruct (n <? 0);
    match goal with
    | |- NoDup (map f (firstn ?k xs)) =>
        rewrite <- (firstn_skipn k xs), map_app in H;
        exact (NoDup_app_remove_r _ _ H)
    end.
Qed.

Lemma fold_left_concat {B : Type} (g : B -> A -> B) (ls : list (list A))
    (b : B) :
  fold_left (fun acc xs => fold_left g xs acc) ls b
  = fold_left g (List.concat ls) b.
Proof.
  revert b. induction ls as [|xs ls IH]; intros b; [reflexivity|].
  cbn [fold_left List.concat]. now rewrite fold_left_app, IH.
Qed.

End SliceFacts.

Section LocalSearchFacts.
Variable props : Props.
Variable q : string.

Lemma set_add_In user acc u :
  In u (set_add user acc) -> In u acc \/ u = user.
Proof.
  unfold set_add. destruct (existsb _ acc); [now left|].
  intros H. apply in_app_or in H. destruct H as [H|[H|[]]]; auto.
Qed.

Lemma set_add_keeps user acc u : In u acc -> In u (set_add user acc).
Proof.
  unfold set_add. destruct (existsb _ acc); [easy|].
  intros H. apply in_or_app. now left.
Qed.

Lemma set_add_has user acc :
  exists u', In u' (set_add user acc) /\ ref u' = ref user.
Proof.
  unfold set_add.
  destruct (existsb (fun u => Nat.eqb (ref u) (ref user)) acc) eqn:E.
  - apply existsb_exists in E. destruct E as (u' & Hin & Heq).
    exists u'. split; [assumption|now apply Nat.eqb_eq].
  - exists user. split; [apply in_or_app; right; now left|reflexivity].
Qed.

Lemma set_add_NoDup user acc :
  NoDup (map ref acc) -> NoDup (map ref (set_add user acc)).
Proof.
  intros Hnd. unfold set_add.
  destruct (existsb (fun u => Nat.eqb (ref u) (ref user)) acc) eqn:E;
    [assumption|].
  rewrite map_app. cbn [map].
  apply NoDup_app; [assumption|repeat constructor; intros []|].
  intros r Hr [Heq|[]]. subst r.
  apply in_map_iff in Hr. destruct Hr as (u & Hu & Hin).
  assert (Hex : existsb (fun u => Nat.eqb (ref u) (ref user)) acc = true).
  { apply existsb_exists. exists u. split; [assumption|].
    now apply Nat.eqb_eq. }
  congruence.
Qed.

Lemma set_add_length user acc :
  (List.length (set_add user acc) <= S (List.length acc))%nat.
Proof.
  unfold set_add. destruct (existsb _ acc); [lia|].
  rewrite length_app. cbn. lia.
Qed.

(** The loop body of [performLocalSearch] over all remembered users. *)
Lemma resultsSet_spec (pool acc : list User) :
  let step acc user :=
    if userMatches props q user then set_add user acc else acc in
  let out := fold_left step pool acc in
  (NoDup (map ref acc) -> NoDup (map ref out))
  /\ (forall u, In u out ->
        In u acc \/ (In u pool /\ userMatches props q u = true))
  /\ (forall u,
         In u acc \/ (In u pool /\ userMatches props q u = true) ->
         exists u', In u' out /\ ref u' = ref u)
  /\ (List.length out <= List.length acc + List.length pool)%nat.
Proof.
  cbv zeta. revert acc.
  induction pool as [|user pool IH]; intros acc; cbn [fold_left].
  - repeat split; auto.
    + intros u [H|[[] _]]. now exists u.
    + cbn. lia.
  - destruct (IH (if userMatches props q user then set_add user acc
                  else acc)) as (Hnd & Hsound & Hcomplete & Hlen).
    repeat split.
    + intros H. apply Hnd.
      destruct (userMatches props q user); [now apply set_add_NoDup|exact H].
    + intros u Hu. destruct (Hsound u Hu) as [Hacc|[Hin Hm]].
      * destruct (userMatches props q user) eqn:Em; [|now left].
        destruct (set_add_In user acc u Hacc) as [H| ->]; [now left|].
        right. split; [now left|assumption].
      * right. split; [now right|assumption].
    + intros u [Hacc|[[<-|Hin] Hm]].
      * apply Hcomplete. left.
        destruct (userMatches props q user);
          [now apply set_add_keeps|assumption].
      * rewrite Hm in *.
        destruct (set_add_has user acc) as (u' & Hin' & Href).
        destruct (Hcomplete u' (or_introl Hin')) as (u'' & Hin'' & Href'').
        exists u''. split; [assumption|congruence].
      * apply Hcomplete. right. now split.
    + destruct (userMatches props q user);
        [pose proof (set_add_length user acc)|]; cbn [List.length]; lia.
Qed.

End LocalSearchFacts.

(** X15. The local search returns remembered users that match, each object
    once. Every user it returns is in the list of some history entry and
    matches the query in one of the search fields; no two of them are the
    same object; with [maxResults] not negative there are at most
    [maxResults]; and when [maxResults] is at least the number of
    remembered users, every remembered user that matches is returned. An
    empty history gives an empty list. *)
Theorem X15_local_search_sound_distinct_bounded (props : Props)
    (recent : JsMap.t (list User)) (q : string) :
  let out := performLocalSearch props recent q in
  let pool := List.concat (JsMap.values recent) in
  NoDup (map ref out)
  /\ (forall u,
         In u out ->
         userMatches props q u = true
         /\ exists k users, In (k, users) recent /\ In u users)
  /\ (0 <= maxResults props -> within (maxResults props) out)
  /\ (Z.of_nat (List.length pool) <= maxResults props ->
      forall u,
        In u pool -> userMatches props q u = true ->
        exists u', In u' out /\ ref u' = ref u)
  /\ (recent = [] -> out = []).
Proof.
  cbv zeta. unfold performLocalSearch.
  rewrite (fold_left_concat
             (fun acc user =>
                if userMatches props q user then set_add user acc else acc)).
  destruct (resultsSet_spec props q (List.concat (JsMap.values recent)) [])
    as (Hnd & Hsound & Hcomplete & Hlen).
  split; [|split; [|split; [|split]]].
  - apply slice0_NoDup_map, Hnd. constructor.
  - intros u Hu. apply slice0_In in Hu.
    destruct (Hsound u Hu) as [[]|[Hin Hm]]. split; [exact Hm|].
    apply in_concat in Hin. destruct Hin as (users & Husers & Hin).
    unfold JsMap.values in Husers. apply in_map_iff in Husers.
    destruct Husers as ([k users'] & Heq & Hk). cbn in Heq. subst users'.
    now exists k, users.
  - intros Hmax. now apply slice0_length.
  - intros Hbig u Hin Hm. rewrite slice0_all; [|cbn in Hlen; lia].
    apply Hcomplete. right. now split.
  - intros ->. cbn [JsMap.values map List.concat fold_left].
    unfold slice0. destruct (_ <? 0); apply firstn_nil.
Qed.

(** X15 on a history in which Alice is remembered under two queries. *)
Lemma X15_local_search_sound_distinct_bounded_witness :
  let recent := [("smith"%string, [alice]); ("alice"%string, [alice])] in
  performLocalSearch defaultProps recent "ALI"%string = [alice]
  /\ within (maxResults defaultProps)
       (performLocalSearch defaultProps recent "ALI"%string)
  /\ exists u',
       In u' (performLocalSearch defaultProps recent "ALI"%string)
       /\ ref u' = ref alice.
Proof.
  cbv zeta.
  destruct (X15_local_search_sound_distinct_bounded defaultProps
              [("smith"%string, [alice]); ("alice"%string, [alice])]
              "ALI"%string) as (_ & _ & Hbound & Hcomplete & _).
  split; [reflexivity|]. split.
  - apply Hbound. vm_compute. discriminate.
  - apply Hcomplete.
    + vm_compute. discriminate.
    + now left.
    + reflexivity.
Defined.

(** X16. What [performApiSearch] hands on. It resolves only for a response
    that is [ok] and whose body parses, and then with users of the body
    that match the query in one of the search fields, in the order of the
    body, at most [maxResults] of them when that is not negative. A
    response that is not [ok] is never data: the call rejects with the
    message ["HTTP "] followed by the status. *)
Theorem X16_api_search_filters_and_bounds (props : Props) (q : string)
    (o : FetchOutcome) :
  (forall items,
      performApiSearch_resume props q o = Resolved items ->
      exists status body,
        o = FetchResponse true status (inr body)
        /\ items = slice0 (maxResults props) (filter (userMatches props q) body)
        /\ (forall u, In u items -> In u body /\ userMatches props q u = true)
        /\ (0 <= maxResults props -> within (maxResults props) items))
  /\ (forall status json,
         o = FetchResponse false status json ->
         exists e,
           performApiSearch_resume props q o = Rejected e
           /\ err_message e = ("HTTP " ++ JsString.ofNat status)%string).
Proof.
  split.
  - intros items H. destruct o as [e|ok status [e|body]];
      cbn [performApiSearch_resume] in H; [discriminate| |].
    + destruct ok; discriminate.
    + destruct ok; cbn [negb] in H; [|discriminate].
      injection H as <-. exists status, body.
      split; [reflexivity|]. split; [reflexivity|]. split.
      * intros u Hu. apply slice0_In in Hu. now apply filter_In in Hu.
      * intros Hmax. now apply slice0_length.
  - intros status json ->. eexists. split; reflexivity.
Qed.

(** X16 on a body of two users of whom one matches. *)
Lemma X16_api_search_filters_and_bounds_witness :
  let bob := mkUser 2 2 "Bob Jones" "bob@example.com" (mkCompany "Smith Ltd") in
  exists status body,
    FetchResponse true 200 (inr [bob; alice])
    = FetchResponse true status (inr body)
    /\ [alice]
       = slice0 (maxResults defaultProps)
           (filter (userMatches defaultProps "smith"%string) body)
    /\ (forall u,
           In u [alice] ->
           In u body /\ userMatches defaultProps "smith"%string u = true)
    /\ (0 <= maxResults defaultProps ->
        within (maxResults defaultProps) [alice]).
Proof.
  cbv zeta.
  apply (proj1 (X16_api_search_filters_and_bounds defaultProps "smith"%string
                  (FetchResponse true 200
                     (inr [mkUser 2 2 "Bob Jones" "bob@example.com"
                             (mkCompany "Smith Ltd"); alice])))
           [alice]).
  reflexivity.
Defined.

(* ------------------------------------------------------------------------ *)
(** ** What every reachable world keeps                                       *)
(* ------------------------------------------------------------------------ *)

Section JsMapForall.
Context {V : Type}.
Implicit Types (m : JsMap.t V) (k : string) (v : V).

Lemma JsMap_keys_Forall_delete (P : string -> Prop) k m :
  Forall P (JsMap.keys m) -> Forall P (JsMap.keys (JsMap.delete k m)).
Proof.
  rewrite !Forall_forall. intros H x Hx. apply H.
  now apply (JsMap_keys_delete_incl k m).
Qed.

Lemma JsMap_keys_Forall_set (P : string -> Prop) k v m :
  P k -> Forall P (JsMap.keys m) -> Forall P (JsMap.keys (JsMap.set k v m)).
Proof.
  intros Hk H. rewrite JsMap_keys_set.
  destruct (JsMap.get k m); [assumption|].
  apply Forall_app. split; [assumption|now constructor].
Qed.

Lemma JsMap_values_Forall_delete (P : V -> Prop) k m :
  Forall P (JsMap.values m) -> Forall P (JsMap.values (JsMap.delete k m)).
Proof.
  induction m as [|[k' v'] m IH]; cbn [JsMap.delete]; [easy|].
  intros H. inversion H as [|? ? Hv Hm]; subst.
  destruct (String.eqb k k'); [exact Hm|].
  constructor; [exact Hv|now apply IH].
Qed.

Lemma JsMap_values_Forall_set (P : V -> Prop) k v m :
  P v -> Forall P (JsMap.values m) ->
  Forall P (JsMap.values (JsMap.set k v m)).
Proof.
  intros Hv. induction m as [|[k' v'] m IH]; cbn [JsMap.set].
  - intros _. now repeat constructor.
  - intros H. inversion H as [|? ? Hv' Hm]; subst.
    destruct (String.eqb k k'); constructor; auto.
Qed.

Lemma JsMap_values_Forall_get (P : V -> Prop) k v m :
  JsMap.get k m = Some v -> Forall P (JsMap.values m) -> P v.
Proof.
  induction m as [|[k' v'] m IH]; cbn [JsMap.get]; [discriminate|].
  intros Hg H. inversion H as [|? ? Hv' Hm]; subst.
  destruct (String.eqb k k'); [now injection Hg as <-|now apply IH].
Qed.

End JsMapForall.

Lemma find_task_In n fl t : find_task n fl = Some t -> In (n, t) fl.
Proof.
  induction fl as [|[k t'] fl IH]; cbn [find_task]; [discriminate|].
  destruct (Nat.eqb_spec n k) as [->|_].
  - intros [= ->]. now left.
  - intros H. right. now apply IH.
Qed.

Section HistoryKept.
Variable props : Props.
Variable abortMessage : string.

Lemma history_write_kept q items (recent : JsMap.t (list User)) :
  JsString.truthy q = true ->
  Forall (fun k => JsString.truthy k = true) (JsMap.keys recent) ->
  JsMap.size recent <= 20 ->
  Forall (fun k => JsString.truthy k = true)
    (JsMap.keys (history_write q items recent))
  /\ JsMap.size (history_write q items recent) <= 20.
Proof.
  intros Hq Hkeys Hsize. unfold history_write.
  pose proof (JsMap_keys_Forall_set _ q items recent Hq Hkeys) as Hkeys'.
  assert (Hlen : JsMap.size (JsMap.set q items recent) <= 21).
  { unfold JsMap.size in *. rewrite JsMap_set_length.
    destruct (JsMap.get q recent); lia. }
  destruct (Z.gtb_spec (JsMap.size (JsMap.set q items recent)) 20)
    as [Hover|Hfits]; [|split; [assumption|lia]].
  destruct (JsMap.set q items recent) as [|[k0 v0] m'].
  - split; [assumption|]. unfold JsMap.size in *. cbn in *. lia.
  - cbn [JsMap.keys map fst] in *.
    inversion Hkeys' as [|? ? Hk0 Hrest]; subst. rewrite Hk0.
    cbn [JsMap.delete]. rewrite String.eqb_refl.
    split; [exact Hrest|].
    unfold JsMap.size in *. cbn [List.length] in *. lia.
Qed.

Lemma history_kept_frame w w' :
  recentSearches w' = recentSearches w ->
  inflight w' = inflight w ->
  history_kept w -> history_kept w'.
Proof. unfold history_kept. now intros -> ->. Qed.

Lemma performSearch_finish_history mode q o w :
  recentSearches (performSearch_finish mode q o w) = recentSearches w
  \/ exists items,
       recentSearches (performSearch_finish mode q o w)
       = history_write q items (recentSearches w).
Proof.
  unfold performSearch_finish. destruct o as [e|r].
  - left. case_branches; reflexivity.
  - destruct (negb (SearchMode_eqb (currentStrategyRef w) mode));
      [now left|].
    destruct (0 <? List.length (data r))%nat; [right; eexists|left];
      reflexivity.
Qed.

Lemma performSearch_finish_kept mode q o w :
  JsString.truthy q = true ->
  history_kept w -> history_kept (performSearch_finish mode q o w).
Proof.
  intros Hq (Hkeys & Hsize & Hfl).
  destruct (performSearch_finish_control mode q o w) as (Hc & _).
  assert (Hi : inflight (performSearch_finish mode q o w) = inflight w)
    by exact (f_equal snd (control_fetches _ _ Hc)).
  unfold history_kept. rewrite Hi.
  destruct (performSearch_finish_history mode q o w) as [->|[items ->]];
    [now repeat split|].
  destruct (history_write_kept q items _ Hq Hkeys Hsize) as [Hk Hs].
  now repeat split.
Qed.

Lemma submit_resume_recent q o now w :
  recentSearches (submit_resume props q o now w) = recentSearches w.
Proof.
  unfold submit_resume. destruct o as [items|e]; case_branches; reflexivity.
Qed.

Lemma resume_task_kept t o now w :
  match t with
  | TaskSearch _ _ q => JsString.truthy q = true
  | TaskSubmit _ => True
  end ->
  history_kept w -> history_kept (resume_task props t o now w).
Proof.
  intros Ht Hw. destruct t as [caller mode q|q]; cbn [resume_task].
  - destruct (strategy_resume props caller q o now w) as [r w1] eqn:E.
    apply performSearch_finish_kept; [exact Ht|].
    pose proof (strategy_resume_frame props caller q o now w)
      as (Hc & Hr & _).
    rewrite E in Hc, Hr. cbn [snd] in Hc, Hr.
    apply (history_kept_frame w); [exact Hr| |exact Hw].
    exact (f_equal snd (control_fetches _ _ Hc)).
  - apply (history_kept_frame w); [apply submit_resume_recent| |exact Hw].
    pose proof (submit_resume_control props q o now w) as Hc.
    exact (f_equal snd (control_fetches _ _ Hc)).
Qed.

Lemma history_kept_remove n ctl next w :
  history_kept w ->
  history_kept (with_fetches ctl next (remove_task n (inflight w)) w).
Proof.
  intros (Hkeys & Hsize & Hfl). unfold history_kept.
  cbn [recentSearches inflight with_fetches]. repeat split; try assumption.
  unfold remove_task. rewrite Forall_forall in *.
  intros x Hx. apply filter_In in Hx. now apply Hfl.
Qed.

Lemma abort_kept now w :
  history_kept w -> history_kept (abort props abortMessage now w).
Proof.
  intros Hw. unfold abort.
  destruct (abortControllerRef w) as [n|]; [|exact Hw].
  destruct (find_task n (inflight w)) as [t|] eqn:Hfind; [|exact Hw].
  apply resume_task_kept; [|now apply history_kept_remove].
  destruct Hw as (_ & _ & Hfl). rewrite Forall_forall in Hfl.
  exact (Hfl (n, t) (find_task_In _ _ _ Hfind)).
Qed.

Lemma performApiSearch_kept t now w :
  match t with
  | TaskSearch _ _ q => JsString.truthy q = true
  | TaskSubmit _ => True
  end ->
  history_kept w ->
  history_kept (performApiSearch props abortMessage t now w).
Proof.
  intros Ht Hw. unfold performApiSearch.
  destruct (abort_kept now w Hw) as (Hkeys & Hsize & Hfl).
  unfold history_kept. cbn [recentSearches inflight with_fetches].
  repeat split; try assumption. now constructor.
Qed.

Lemma performSearch_kept q mode now w :
  history_kept w ->
  history_kept (performSearch props abortMessage q mode now w).
Proof.
  intros Hw. unfold performSearch.
  destruct (JsString.truthy (JsString.trim q)) eqn:Htruthy; cbn [negb orb];
    [|exact Hw].
  destruct (_ <? _); [exact Hw|].
  unfold strategy_execute. cbn [recentSearches shared setApiResult].
  destruct (Strategy.execute _ _ _ _ _ _ _ _) as [[r|q' caller] s] eqn:E.
  - apply performSearch_finish_kept; [exact Htruthy|exact Hw].
  - apply performApiSearch_kept; [|exact Hw].
    apply execute_await_query in E. now subst q'.
Qed.

Lemma step_kept now ev w :
  history_kept w -> history_kept (step props abortMessage now ev w).
Proof.
  intros Hw. destruct ev as [value| | | |mode|n o]; cbn [step].
  - unfold handleInputChange.
    destruct (negb _); [exact Hw|].
    destruct (SearchMode_eqb _ manual); [|exact Hw].
    destruct (_ >=? _); [|exact Hw].
    now apply performSearch_kept.
  - destruct (debounceTimer w) as [[q mode]|]; [|exact Hw].
    now apply performSearch_kept.
  - unfold handleKeyDown_Enter. destruct (_ && _)%bool.
    + now apply performApiSearch_kept.
    + destruct (results (apiResult w)); exact Hw.
  - unfold clearSearch. now apply abort_kept.
  - unfold handleStrategyChange.
    apply (history_kept_frame (abort props abortMessage now (with_mode mode w)));
      [reflexivity..|].
    now apply abort_kept.
  - destruct (find_task n (inflight w)) as [t|] eqn:Hfind; [|exact Hw].
    apply resume_task_kept; [|now apply history_kept_remove].
    destruct Hw as (_ & _ & Hfl). rewrite Forall_forall in Hfl.
    exact (Hfl (n, t) (find_task_In _ _ _ Hfind)).
Qed.

End HistoryKept.

(** X17. The local history stays small. In every world the component can
    reach, the history holds at most 20 queries and never one under the
    empty key (so a 21st entry always pushes the oldest one out). *)
Theorem X17_history_at_most_20_entries (props : Props)
    (abortMessage : string) (w : World) :
  reachable props abortMessage w ->
  JsMap.size (recentSearches w) <= 20
  /\ Forall (fun k => JsString.truthy k = true)
       (JsMap.keys (recentSearches w)).
Proof.
  intros Hreach.
  assert (Hkept : history_kept w).
  { induction Hreach as [|now ev w _ IH].
    - unfold history_kept, JsMap.size. cbn. repeat split; try constructor.
      lia.
    - now apply step_kept. }
  destruct Hkept as (Hkeys & Hsize & _). now split.
Qed.

(** X17 after one answered search. *)
Lemma X17_history_at_most_20_entries_witness :
  let props := propsWith balanced 60 in
  let w :=
    step props "aborted"%string 400
      (FetchSettled 0 (FetchResponse true 200 (inr [alice])))
      (step props "aborted"%string 300 DebounceFire
         (step props "aborted"%string 0 (InputChange "smith"%string)
            (initialWorld props))) in
  JsMap.size (recentSearches w) <= 20
  /\ Forall (fun k => JsString.truthy k = true)
       (JsMap.keys (recentSearches w)).
Proof.
  cbv zeta.
  apply (X17_history_at_most_20_entries (propsWith balanced 60)
           "aborted"%string).
  repeat apply reachable_step. apply reachable_init.
Defined.

Section ListsWithin.
Variable props : Props.
Variable abortMessage : string.
Hypothesis maxResults_nonneg : 0 <= maxResults props.

Let W (items : list User) : Prop := within (maxResults props) items.
Let cacheW (cache : SearchCache.t (T := User)) : Prop :=
  Forall (fun e => W (entry_data e)) (JsMap.values cache).

Lemma within_nil : W [].
Proof. unfold W, within. cbn. lia. Qed.

Lemma local_within recent q : W (performLocalSearch props recent q).
Proof. unfold W, within, performLocalSearch. now apply slice0_length. Qed.

Lemma cache_get_within duration q now cache :
  cacheW cache ->
  cacheW (snd (SearchCache.get duration q now cache))
  /\ (forall items,
         fst (SearchCache.get duration q now cache) = Some items -> W items).
Proof.
  intros Hc. unfold SearchCache.get.
  destruct (JsMap.get q cache) as [entry|] eqn:Hg;
    [|split; [exact Hc|discriminate]].
  destruct (SearchCache.expired duration now entry); cbn [fst snd].
  - split; [now apply JsMap_values_Forall_delete|discriminate].
  - split; [exact Hc|]. intros items [= <-].
    exact (JsMap_values_Forall_get _ q entry cache Hg Hc).
Qed.

Lemma cache_set_within maxSize q items now cache :
  W items -> cacheW cache ->
  cacheW (SearchCache.set maxSize q items now cache).
Proof.
  intros Hi Hc. unfold SearchCache.set.
  apply JsMap_values_Forall_set; [exact Hi|].
  unfold SearchCache.evict. destruct (_ >=? _); [|exact Hc].
  destruct (JsMap.keys cache) as [|k ks]; [exact Hc|].
  destruct (JsString.truthy k); [|exact Hc].
  now apply JsMap_values_Forall_delete.
Qed.

Lemma fuzzyMatch_within duration q now cache items :
  cacheW cache ->
  SearchCache.fuzzyMatch duration q now cache = Some items -> W items.
Proof.
  intros Hc H. unfold SearchCache.fuzzyMatch in H.
  destruct (fuzzyMatch_loop_sound duration _ now cache items H)
    as (k & entry & Hin & _ & -> & _).
  unfold cacheW in Hc. rewrite Forall_forall in Hc. apply Hc.
  unfold JsMap.values. apply in_map_iff. now exists (k, entry).
Qed.

Lemma tryApiSearch_within limit windowMs q now (s : Strategy.Shared User) :
  Strategy.cache (snd (Strategy.tryApiSearch limit windowMs q now s))
  = Strategy.cache s
  /\ (forall r,
         fst (Strategy.tryApiSearch limit windowMs q now s) = Ready r ->
         W (data r)).
Proof.
  unfold Strategy.tryApiSearch.
  destruct (Strategy.limiter_isLimited limit windowMs now s) as [b s']
    eqn:E.
  assert (Hs : Strategy.cache s' = Strategy.cache s).
  { unfold Strategy.limiter_isLimited in E.
    destruct (RateLimiter.isLimited limit windowMs now (Strategy.requests s)).
    now injection E as _ <-. }
  destruct b; cbn [fst snd]; split; try exact Hs; [|discriminate].
  intros r [= <-]. apply within_nil.
Qed.

Lemma balanced_finish_within localSearch q (r : SearchResult User) :
  W (localSearch q) -> W (data r) ->
  W (data (Strategy.balanced_finish localSearch q r)).
Proof.
  intros Hl Hr. unfold Strategy.balanced_finish.
  destruct (_ && _)%bool; [|exact Hr].
  destruct (0 <? _)%nat; [exact Hl|exact Hr].
Qed.

Lemma execute_within mode localSearch q now (s : Strategy.Shared User) :
  cacheW (Strategy.cache s) ->
  W (localSearch q) ->
  let out :=
    Strategy.execute (cacheDuration props) (rateLimit props)
      (rateLimitWindow props) mode localSearch q now s in
  cacheW (Strategy.cache (snd out))
  /\ (forall r, fst out = Ready r -> W (data r)).
Proof.
  intros Hc Hl. cbv zeta.
  pose proof (cache_get_within (cacheDuration props) q now
                (Strategy.cache s) Hc) as [Hc1 Hget].
  destruct mode; cbn [Strategy.execute].
  - unfold Strategy.instant_execute.
    destruct (tryApiSearch_within (rateLimit props) (rateLimitWindow props)
                q now s) as [-> Hr].
    now split.
  - unfold Strategy.balanced_execute, Strategy.cache_get.
    destruct (SearchCache.get (cacheDuration props) q now (Strategy.cache s))
      as [[cached|] c]; cbn [fst snd] in *.
    + split; [exact Hc1|]. intros r [= <-]. now apply Hget.
    + cbn [Strategy.cache].
      destruct (SearchCache.fuzzyMatch (cacheDuration props) q now c)
        as [fm|] eqn:Ef.
      * split; [exact Hc1|]. intros r [= <-].
        exact (fuzzyMatch_within _ q now c fm Hc1 Ef).
      * destruct (tryApiSearch_within (rateLimit props)
                    (rateLimitWindow props) q now
                    (Strategy.mkShared c (Strategy.requests s)))
          as [Hcache Hr].
        destruct (Strategy.tryApiSearch _ _ q now _) as [[r0|q' caller] s'];
          cbn [fst snd] in *; rewrite Hcache; cbn [Strategy.cache].
        -- split; [exact Hc1|]. intros r [= <-].
           apply balanced_finish_within; [exact Hl|now apply Hr].
        -- split; [exact Hc1|discriminate].
  - unfold Strategy.conservative_execute, Strategy.cache_get.
    destruct (JsString.strlen q <=? 3).
    { split; [exact Hc|]. now intros r [= <-]. }
    destruct (SearchCache.get (cacheDuration props) q now (Strategy.cache s))
      as [got c]; cbn [fst snd] in *. cbn [Strategy.cache].
    destruct (match got with
              | Some items => Some items
              | None => SearchCache.fuzzyMatch (cacheDuration props) q now c
              end) as [items|] eqn:Ecached.
    { split; [exact Hc1|]. intros r [= <-]. cbn [data].
      destruct got as [items'|].
      - injection Ecached as <-. now apply Hget.
      - exact (fuzzyMatch_within _ q now c items Hc1 Ecached). }
    unfold Strategy.limiter_isLimited. cbn [Strategy.requests Strategy.cache].
    destruct (RateLimiter.isLimited (rateLimit props) (rateLimitWindow props)
                now (Strategy.requests s)) as [[|] reqs].
    { split; [exact Hc1|]. now intros r [= <-]. }
    destruct (tryApiSearch_within (rateLimit props) (rateLimitWindow props)
                q now (Strategy.mkShared c reqs)) as [-> Hr].
    now split.
  - unfold Strategy.manual_execute, Strategy.cache_get.
    destruct (SearchCache.get (cacheDuration props) q now (Strategy.cache s))
      as [[cached|] c]; cbn [fst snd] in *.
    + split; [exact Hc1|]. intros r [= <-]. now apply Hget.
    + split; [exact Hc1|]. now intros r [= <-].
Qed.

Lemma execute_resume_within caller localSearch q o now
    (s : Strategy.Shared User) :
  match o with
  | Resolved items => W items
  | Rejected _ => True
  end ->
  cacheW (Strategy.cache s) ->
  W (localSearch q) ->
  let out :=
    Strategy.execute_resume (maxCacheSize props) caller localSearch q o now s
  in
  W (data (fst out)) /\ cacheW (Strategy.cache (snd out)).
Proof.
  intros Ho Hc Hl. cbv zeta.
  assert (Htry : W (data (fst (Strategy.tryApiSearch_resume
                                 (maxCacheSize props) q o now s)))
                 /\ cacheW (Strategy.cache
                              (snd (Strategy.tryApiSearch_resume
                                      (maxCacheSize props) q o now s)))).
  { destruct o as [items|e]; cbn [Strategy.tryApiSearch_resume fst snd data].
    - split; [exact Ho|]. now apply cache_set_within.
    - split; [apply within_nil|exact Hc]. }
  destruct caller; cbn [Strategy.execute_resume]; [exact Htry|].
  unfold Strategy.balanced_resume.
  destruct (Strategy.tryApiSearch_resume (maxCacheSize props) q o now s)
    as [r s']. cbn [fst snd] in *.
  split; [|apply Htry]. apply balanced_finish_within; [exact Hl|apply Htry].
Qed.

Lemma history_write_within q items (recent : JsMap.t (list User)) :
  W items -> Forall W (JsMap.values recent) ->
  Forall W (JsMap.values (history_write q items recent)).
Proof.
  intros Hi Hr. unfold history_write.
  pose proof (JsMap_values_Forall_set W q items recent Hi Hr) as Hset.
  destruct (_ >? 20); [|exact Hset].
  destruct (JsMap.keys (JsMap.set q items recent)) as [|k ks]; [exact Hset|].
  destruct (JsString.truthy k); [|exact Hset].
  now apply JsMap_values_Forall_delete.
Qed.

Lemma performSearch_finish_within mode q (r : SearchResult User) w :
  W (data r) ->
  lists_within props w ->
  lists_within props (performSearch_finish mode q (inr r) w).
Proof.
  intros Hr (Hres & Hcache & Hhist). unfold performSearch_finish.
  destruct (negb (SearchMode_eqb (currentStrategyRef w) mode));
    [now repeat split|].
  destruct (0 <? List.length (data r))%nat; repeat split; try assumption.
  now apply history_write_within.
Qed.

Lemma lists_within_frame w w' :
  results (apiResult w') = results (apiResult w) ->
  Strategy.cache (shared w') = Strategy.cache (shared w) ->
  recentSearches w' = recentSearches w ->
  lists_within props w -> lists_within props w'.
Proof. unfold lists_within. now intros -> -> ->. Qed.

Lemma resume_task_within t o now w :
  match o with
  | Resolved items => W items
  | Rejected _ => True
  end ->
  lists_within props w ->
  lists_within props (resume_task props t o now w).
Proof.
  intros Ho Hw. destruct t as [caller mode q|q]; cbn [resume_task].
  - pose proof (strategy_resume_frame props caller q o now w)
      as (_ & Hr & Ha & _ & Hs).
    destruct Hw as (Hres & Hcache & Hhist).
    destruct (execute_resume_within caller
                (performLocalSearch props (recentSearches w)) q o now
                (shared w) Ho Hcache (local_within _ _)) as [Hdata Hc'].
    unfold strategy_resume in *.
    destruct (Strategy.execute_resume (maxCacheSize props) caller
                (performLocalSearch props (recentSearches w)) q o now
                (shared w)) as [r s]. cbn [fst snd] in *.
    apply performSearch_finish_within; [exact Hdata|].
    now repeat split.
  - destruct Hw as (Hres & Hcache & Hhist). unfold submit_resume.
    destruct o as [items|e].
    + repeat split; try assumption.
      cbn. now apply cache_set_within.
    + destruct (negb _); now repeat split.
Qed.

Lemma abort_within now w :
  lists_within props w -> lists_within props (abort props abortMessage now w).
Proof.
  intros Hw. unfold abort.
  destruct (abortControllerRef w) as [n|]; [|exact Hw].
  destruct (find_task n (inflight w)) as [t|]; [|exact Hw].
  apply resume_task_within; [exact I|exact Hw].
Qed.

Lemma performApiSearch_within t now w :
  lists_within props w ->
  lists_within props (performApiSearch props abortMessage t now w).
Proof.
  intros Hw. unfold performApiSearch.
  apply (lists_within_frame (abort props abortMessage now w));
    [reflexivity..|now apply abort_within].
Qed.

Lemma performSearch_within q mode now w :
  lists_within props w ->
  lists_within props (performSearch props abortMessage q mode now w).
Proof.
  intros Hw. unfold performSearch.
  destruct (negb _ || _)%bool.
  { destruct Hw as (_ & Hcache & Hhist).
    repeat split; [apply within_nil|assumption..]. }
  unfold strategy_execute. cbn [recentSearches shared setApiResult].
  destruct Hw as (Hres & Hcache & Hhist).
  destruct (execute_within mode (performLocalSearch props (recentSearches w))
              (JsString.trim q) now (shared w) Hcache (local_within _ _))
    as [Hc' Hr].
  destruct (Strategy.execute _ _ _ _ _ _ _ _) as [[r|q' caller] s];
    cbn [fst snd] in *.
  - apply performSearch_finish_within; [now apply Hr|]. now repeat split.
  - apply performApiSearch_within. now repeat split.
Qed.

Lemma performApiSearch_resume_within q o :
  match performApiSearch_resume props q o with
  | Resolved items => W items
  | Rejected _ => True
  end.
Proof.
  destruct o as [e|ok status [e|body]]; cbn [performApiSearch_resume];
    [exact I|destruct (negb ok); exact I|].
  destruct (negb ok); [exact I|].
  unfold W, within. now apply slice0_length.
Qed.

Lemma step_within now ev w :
  lists_within props w ->
  lists_within props (step props abortMessage now ev w).
Proof.
  intros Hw. destruct ev as [value| | | |mode|n o]; cbn [step].
  - unfold handleInputChange.
    destruct (negb _).
    { destruct Hw as (_ & Hcache & Hhist).
      repeat split; [apply within_nil|assumption..]. }
    destruct (SearchMode_eqb _ manual); [|exact Hw].
    destruct (_ >=? _).
    + now apply performSearch_within.
    + destruct Hw as (_ & Hcache & Hhist).
      repeat split; [apply within_nil|assumption..].
  - destruct (debounceTimer w) as [[q mode]|]; [|exact Hw].
    now apply performSearch_within.
  - unfold handleKeyDown_Enter. destruct (_ && _)%bool.
    + now apply performApiSearch_within.
    + destruct (results (apiResult w)); exact Hw.
  - unfold clearSearch. apply abort_within.
    destruct Hw as (_ & Hcache & Hhist).
    repeat split; [apply within_nil|assumption..].
  - unfold handleStrategyChange.
    apply (lists_within_frame
             (abort props abortMessage now (with_mode mode w)));
      [reflexivity..|].
    now apply abort_within.
  - destruct (find_task n (inflight w)) as [t|]; [|exact Hw].
    apply resume_task_within; [apply performApiSearch_resume_within|].
    exact Hw.
Qed.

Lemma reachable_within w :
  reachable props abortMessage w -> lists_within props w.
Proof.
  induction 1 as [|now ev w _ IH]; [|now apply step_within].
  unfold lists_within. cbn. repeat split; try constructor.
  apply within_nil.
Qed.

End ListsWithin.

(** X18. [maxResults] bounds every list the component keeps. With
    [maxResults] not negative, in every world the component can reach the
    results on display, every list in the cache and every list in the
    local history hold at most [maxResults] users, whichever source they
    came from. *)
Theorem X18_result_lists_within_maxResults (props : Props)
    (abortMessage : string) (w : World) :
  0 <= maxResults props ->
  reachable props abortMessage w ->
  within (maxResults props) (results (apiResult w))
  /\ Forall (fun e => within (maxResults props) (entry_data e))
       (JsMap.values (Strategy.cache (shared w)))
  /\ Forall (within (maxResults props)) (JsMap.values (recentSearches w)).
Proof.
  intros Hmax Hreach.
  assert (Hinv : lists_within props w).
  { induction Hreach as [|now ev w _ IH].
    - unfold lists_within, within. cbn. repeat split; try constructor.
      exact Hmax.
    - now apply (step_within props abortMessage Hmax). }
  exact Hinv.
Qed.

(** X18 with [maxResults] 1 after a response of two matching users. *)
Lemma X18_result_lists_within_maxResults_witness :
  let props :=
    mkProps 300 2 1 instant 60 60000 300000 50 [key_name; key_email] in
  let twin := mkUser 2 2 "Al Smith" "al@example.com" (mkCompany "Acme") in
  let w :=
    step props "aborted"%string 400
      (FetchSettled 0 (FetchResponse true 200 (inr [alice; twin])))
      (step props "aborted"%string 300 DebounceFire
         (step props "aborted"%string 0 (InputChange "smith"%string)
            (initialWorld props))) in
  results (apiResult w) = [alice]
  /\ within (maxResults props) (results (apiResult w)).
Proof.
  cbv zeta. split; [reflexivity|].
  apply (X18_result_lists_within_maxResults
           (mkProps 300 2 1 instant 60 60000 300000 50 [key_name; key_email])
           "aborted"%string).
  - vm_compute. discriminate.
  - repeat apply reachable_step. apply reachable_init.
Defined.

(* ------------------------------------------------------------------------ *)
(** ** Debounce, strategy change and clearing                                 *)
(* ------------------------------------------------------------------------ *)

Section ControlFacts.
Variable props : Props.
Variable abortMessage : string.

Lemma performSearch_modes q mode now w :
  modes (performSearch props abortMessage q mode now w) = modes w.
Proof.
  unfold performSearch.
  destruct (negb _ || _)%bool; [reflexivity|].
  unfold strategy_execute. cbn [recentSearches shared setApiResult].
  destruct (Strategy.execute _ _ _ _ _ _ _ _) as [[r|q' caller] s].
  - match goal with
    | |- context [performSearch_finish ?m ?tq ?o ?w0] =>
        destruct (performSearch_finish_control m tq o w0) as (Hc & _)
    end.
    exact (f_equal fst Hc).
  - unfold performApiSearch.
    match goal with
    | |- context [abort props abortMessage now ?w0] =>
        exact (abort_modes props abortMessage now w0)
    end.
Qed.

End ControlFacts.

(** X19. The debounce fires once, for the last keystroke. Outside manual
    mode, a keystroke that leaves non-blank text replaces the pending timer:
    two such keystrokes in a row leave the component as the second alone
    would. When the timer then fires, [performSearch] runs for the last
    text under the strategy of that keystroke, and the timer is spent: a
    further expiry does nothing. *)
Theorem X19_debounce_keeps_last_keystroke (props : Props)
    (abortMessage v1 v2 : string) (now1 now2 now3 : Z) (w : World) :
  searchMode w <> manual ->
  JsString.truthy (JsString.trim v1) = true ->
  JsString.truthy (JsString.trim v2) = true ->
  let w2 := handleInputChange props abortMessage v2 now2 w in
  handleInputChange props abortMessage v2 now2
    (handleInputChange props abortMessage v1 now1 w) = w2
  /\ debounceTimer w2 = Some (v2, searchMode w)
  /\ step props abortMessage now3 DebounceFire w2
     = performSearch props abortMessage v2 (searchMode w) now3
         (with_timer None w2)
  /\ (forall now4,
         step props abortMessage now4 DebounceFire
           (step props abortMessage now3 DebounceFire w2)
         = step props abortMessage now3 DebounceFire w2).
Proof.
  intros Hmode H1 H2. cbv zeta.
  assert (Hm : SearchMode_eqb (searchMode w) manual = false).
  { destruct (SearchMode_eqb (searchMode w) manual) eqn:E; [|reflexivity].
    apply SearchMode_eqb_eq in E. contradiction. }
  assert (Hin : forall v now0 w0,
             JsString.truthy (JsString.trim v) = true ->
             SearchMode_eqb (searchMode w0) manual = false ->
             handleInputChange props abortMessage v now0 w0
             = with_timer (Some (v, searchMode w0))
                 (setApiResult
                    (fun prev =>
                       mkApiResult true None (results prev)
                         (isDropdownOpen prev))
                    (setQuery v w0))).
  { intros v now0 w0 Hv Hw0. unfold handleInputChange. rewrite Hv.
    cbn [negb searchMode setApiResult setQuery]. rewrite Hw0.
    reflexivity. }
  rewrite (Hin v1 now1 w H1 Hm).
  rewrite !(Hin v2) by assumption.
  split; [reflexivity|]. split; [reflexivity|]. split; [reflexivity|].
  intros now4. cbn [step debounceTimer with_timer].
  match goal with
  | |- context [performSearch props abortMessage v2 ?m now3 ?w0] =>
      pose proof (performSearch_modes props abortMessage v2 m now3 w0) as Hp
  end.
  apply (f_equal snd) in Hp. cbn [modes snd debounceTimer] in Hp.
  match goal with
  | |- match debounceTimer ?x with _ => _ end = _ =>
      change (debounceTimer x = None) in Hp; rewrite Hp
  end.
  reflexivity.
Qed.

(** X19 in balanced mode: "sm" and then "smith" are typed. *)
Lemma X19_debounce_keeps_last_keystroke_witness :
  let w := initialWorld defaultProps in
  let w2 := handleInputChange defaultProps "aborted"%string "smith"%string 50
              w in
  handleInputChange defaultProps "aborted"%string "smith"%string 50
    (handleInputChange defaultProps "aborted"%string "sm"%string 0 w) = w2
  /\ debounceTimer w2 = Some ("smith"%string, balanced).
Proof.
  cbv zeta.
  destruct (X19_debounce_keeps_last_keystroke defaultProps "aborted"%string
              "sm"%string "smith"%string 0 50 350
              (initialWorld defaultProps)) as (H1 & H2 & _).
  - discriminate.
  - reflexivity.
  - reflexivity.
  - split; [exact H1|exact H2].
Defined.

(** X20. Changing the strategy and clearing the input cancel the fetch in
    flight and keep what was learnt. After [handleStrategyChange] the new
    strategy is the active one and the spinner is off; after it and after
    [clearSearch] no fetch is in flight, so a response that still arrives
    changes nothing, and the cache and the rate limiter are as before. *)
Theorem X20_strategy_change_and_clear_cancel (props : Props)
    (abortMessage : string) (mode : SearchMode) (now : Z) (w : World) :
  single_flight w ->
  (let w' := handleStrategyChange props abortMessage mode now w in
   searchMode w' = mode
   /\ currentStrategyRef w' = mode
   /\ isLoading (apiResult w') = false
   /\ inflight w' = []
   /\ shared w' = shared w
   /\ forall n o later,
        step props abortMessage later (FetchSettled n o) w' = w')
  /\ (let w' := clearSearch props abortMessage now w in
      inflight w' = []
      /\ shared w' = shared w
      /\ modes w' = modes w
      /\ forall n o later,
           step props abortMessage later (FetchSettled n o) w' = w').
Proof.
  intros Hsf. split; cbv zeta.
  - unfold handleStrategyChange.
    assert (Hsf' : single_flight (with_mode mode w)) by exact Hsf.
    pose proof (abort_fetches props abortMessage now _ Hsf') as Hf.
    pose proof (abort_modes props abortMessage now (with_mode mode w)) as Hm.
    pose proof (abort_shared props abortMessage now (with_mode mode w)) as Hs.
    assert (Hi : inflight (abort props abortMessage now (with_mode mode w))
                 = []) by exact (f_equal snd Hf).
    split; [exact (f_equal (fun m => fst (fst m)) Hm)|].
    split; [exact (f_equal (fun m => snd (fst m)) Hm)|].
    split; [reflexivity|]. split; [exact Hi|]. split; [exact Hs|].
    intros n o later. apply step_settle_unknown.
    cbn [inflight setApiResult]. now rewrite Hi.
  - unfold clearSearch.
    match goal with
    | |- context [abort props abortMessage now ?w0] =>
        assert (Hsf' : single_flight w0) by exact Hsf;
        pose proof (abort_fetches props abortMessage now w0 Hsf') as Hf;
        pose proof (abort_modes props abortMessage now w0) as Hm;
        pose proof (abort_shared props abortMessage now w0) as Hs;
        assert (Hi : inflight (abort props abortMessage now w0) = [])
          by exact (f_equal snd Hf)
    end.
    split; [exact Hi|]. split; [exact Hs|]. split; [exact Hm|].
    intros n o later. apply step_settle_unknown. now rewrite Hi.
Qed.

(** X20 with the fetch of "smith" in flight. *)
Lemma X20_strategy_change_and_clear_cancel_witness :
  let props := propsWith instant 60 in
  let w :=
    run props "aborted"%string
      [(0, InputChange "smith"%string); (300, DebounceFire)]
      (initialWorld props) in
  inflight w = [(0%nat, TaskSearch ReturnsIt instant "smith"%string)]
  /\ inflight (handleStrategyChange props "aborted"%string manual 400 w) = []
  /\ inflight (clearSearch props "aborted"%string 400 w) = [].
Proof.
  cbv zeta. split; [reflexivity|].
  destruct (X20_strategy_change_and_clear_cancel (propsWith instant 60)
              "aborted"%string manual 400
              (run (propsWith instant 60) "aborted"%string
                 [(0, InputChange "smith"%string); (300, DebounceFire)]
                 (initialWorld (propsWith instant 60))))
    as ((_ & _ & _ & Hi & _) & (Hc & _)).
  - right. now exists 0%nat, (TaskSearch ReturnsIt instant "smith"%string).
  - split; [exact Hi|exact Hc].
Defined.

(* ------------------------------------------------------------------------ *)
(** ** [FilterPanel] and [Table]                                              *)
(* ------------------------------------------------------------------------ *)

Lemma JsMap_delete_In {V : Type} (k : string) (m : JsMap.t V)
    (kv : string * V) :
  In kv (JsMap.delete k m) -> In kv m.
Proof.
  induction m as [|[k' v'] m IH]; cbn [JsMap.delete]; [easy|].
  destruct (String.eqb k k'); [now right|].
  intros [H|H]; [now left|right; now apply IH].
Qed.

Lemma rowMatches_set_empty (key : string) (filters : Filters) (item : Item) :
  rowMatches (JsMap.set key EmptyString filters) item
  = rowMatches (JsMap.delete key filters) item.
Proof.
  unfold rowMatches.
  induction filters as [|[k v] filters IH]; [reflexivity|].
  cbn [JsMap.set JsMap.delete].
  destruct (String.eqb key k); [reflexivity|].
  cbn [forallb]. now rewrite IH.
Qed.

(** X21. Removing a filter chip never hides a row: every row that the table
    shows before [handleDelete] is still shown after it, and afterwards the
    panel's local selection and the applied filters are the same object
    without the deleted key. *)
Theorem X21_deleting_a_filter_never_hides_rows (key : string)
    (st : FilterState) (rows : list Item) :
  (forall item,
      In item (filteredData (appliedFilters st) rows) ->
      In item (filteredData (appliedFilters (handleDelete key st)) rows))
  /\ localFilters (handleDelete key st) = appliedFilters (handleDelete key st)
  /\ (JsMap.wf (appliedFilters st) ->
      JsMap.get key (appliedFilters (handleDelete key st)) = None).
Proof.
  split; [|split; [reflexivity|]].
  - intros item Hin. unfold filteredData in *. cbn [handleDelete appliedFilters].
    apply filter_In in Hin. destruct Hin as [Hin Hm].
    apply filter_In. split; [exact Hin|].
    unfold rowMatches in *. rewrite forallb_forall in *.
    intros kv Hkv. apply Hm. now apply (JsMap_delete_In key).
  - intros Hwf. cbn [handleDelete appliedFilters].
    now apply JsMap_get_delete_same.
Qed.

(** X21 on two rows filtered by category and brand. *)
Lemma X21_deleting_a_filter_never_hides_rows_witness :
  let filters := [("category"%string, "A"%string); ("brand"%string, "Nike"%string)] in
  let row1 : Item :=
    [("id"%string, VNumber 1); ("category"%string, VString "A");
     ("brand"%string, VString "Nike")] in
  let row2 : Item :=
    [("id"%string, VNumber 2); ("category"%string, VString "B");
     ("brand"%string, VString "Nike")] in
  filteredData filters [row1; row2] = [row1]
  /\ filteredData
       (appliedFilters
          (handleDelete "category"%string (mkFilterState filters filters)))
       [row1; row2] = [row1; row2]
  /\ JsMap.get "category"%string
       (appliedFilters
          (handleDelete "category"%string (mkFilterState filters filters)))
     = None.
Proof.
  cbv zeta. split; [reflexivity|]. split; [reflexivity|].
  apply (proj2 (proj2 (X21_deleting_a_filter_never_hides_rows
                         "category"%string
                         (mkFilterState
                            [("category"%string, "A"%string);
                             ("brand"%string, "Nike"%string)]
                            [("category"%string, "A"%string);
                             ("brand"%string, "Nike"%string)])
                         []))).
  repeat constructor; cbn; intuition discriminate.
Defined.

(** X22. Applying a category. After a category is chosen in the dropdown
    and applied, every row the table shows has exactly that category, as a
    string, when the choice is not the empty option; choosing the empty
    option and applying shows the same rows as deleting the category
    filter, when nothing else was pending in the panel. *)
Theorem X22_applied_category_selects_rows (value : string)
    (st : FilterState) (rows : list Item) :
  let applied :=
    appliedFilters (handleApply (selectCategory value st)) in
  (JsString.truthy value = true ->
   forall item,
     In item (filteredData applied rows) ->
     JsMap.get "category"%string item = Some (VString value))
  /\ (value = EmptyString ->
      localFilters st = appliedFilters st ->
      filteredData applied rows
      = filteredData
          (appliedFilters (handleDelete "category"%string st)) rows).
Proof.
  cbv zeta. cbn [handleApply selectCategory appliedFilters localFilters].
  split.
  - intros Hv item Hin. unfold filteredData in Hin.
    apply filter_In in Hin. destruct Hin as [_ Hm].
    unfold rowMatches in Hm. rewrite forallb_forall in Hm.
    assert (Hkv : In ("category"%string, value)
                    (JsMap.set "category"%string value (localFilters st))).
    { generalize (localFilters st). intros m.
      induction m as [|[k v] m IH]; cbn [JsMap.set]; [now left|].
      destruct (String.eqb_spec "category"%string k); [now left|now right]. }
    specialize (Hm _ Hkv). cbn [fst snd] in Hm. rewrite Hv in Hm.
    cbn [negb] in Hm. unfold strictEqualsString in Hm.
    destruct (JsMap.get "category"%string item) as [[s|n|]|];
      try discriminate.
    apply String.eqb_eq in Hm. now subst s.
  - intros -> Hsync. rewrite Hsync. cbn [handleDelete appliedFilters].
    unfold filteredData. apply filter_ext.
    intros item. apply rowMatches_set_empty.
Qed.

(** X22 on two rows, choosing category B and choosing the empty option. *)
Lemma X22_applied_category_selects_rows_witness :
  let filters := [("category"%string, "A"%string)] in
  let st := mkFilterState filters filters in
  let row1 : Item := [("category"%string, VString "A")] in
  let row2 : Item := [("category"%string, VString "B")] in
  (forall item,
      In item
        (filteredData
           (appliedFilters (handleApply (selectCategory "B"%string st)))
           [row1; row2]) ->
      JsMap.get "category"%string item = Some (VString "B"%string))
  /\ filteredData
       (appliedFilters (handleApply (selectCategory EmptyString st)))
       [row1; row2]
     = filteredData (appliedFilters (handleDelete "category"%string st))
         [row1; row2].
Proof.
  cbv zeta. split.
  - apply (proj1 (X22_applied_category_selects_rows "B"%string
                    (mkFilterState [("category"%string, "A"%string)]
                       [("category"%string, "A"%string)])
                    [[("category"%string, VString "A")];
                     [("category"%string, VString "B")]])).
    reflexivity.
  - apply (proj2 (X22_applied_category_selects_rows EmptyString
                    (mkFilterState [("category"%string, "A"%string)]
                       [("category"%string, "A"%string)])
                    [[("category"%string, VString "A")];
                     [("category"%string, VString "B")]]));
      reflexivity.
Defined.

(* ------------------------------------------------------------------------ *)
(** ** A remote search that comes back                                        *)
(* ------------------------------------------------------------------------ *)

(** X23. The conservative strategy under a rate limit. For a query longer
    than 3 that misses the cache (exact and fuzzy) while the limiter
    reports limited, a dispatched search shows what the local history
    matches, empty or not, with the message "Rate limited. Showing local
    results."; no statistic changes and no fetch is issued. *)
Theorem X23_conservative_rate_limited_shows_history (props : Props)
    (abortMessage q : string) (now : Z) (w : World) :
  let tq := JsString.trim q in
  let w' := performSearch props abortMessage q conservative now w in
  JsString.truthy tq = true ->
  minQueryLength props <= JsString.strlen tq ->
  JsString.strlen tq > 3 ->
  currentStrategyRef w = conservative ->
  fst (SearchCache.get (cacheDuration props) tq now
         (Strategy.cache (shared w))) = None ->
  SearchCache.fuzzyMatch (cacheDuration props) tq now
    (Strategy.cache (shared w)) = None ->
  fst (RateLimiter.isLimited (rateLimit props) (rateLimitWindow props) now
         (Strategy.requests (shared w))) = true ->
  results (apiResult w') = performLocalSearch props (recentSearches w) tq
  /\ api_error (apiResult w')
     = Some "Rate limited. Showing local results."%string
  /\ searchStats w' = searchStats w
  /\ fetches w' = fetches w.
Proof.
  intros tq w' Htruthy Hmin Hlong Href Hget Hfuzzy Hlim. subst w'.
  rewrite (performSearch_dispatched props abortMessage q conservative now w
             Htruthy Hmin).
  fold tq. cbn [Strategy.execute]. unfold Strategy.conservative_execute.
  destruct (Z.leb_spec (JsString.strlen tq) 3); [lia|].
  unfold Strategy.cache_get.
  rewrite <- (fuzzyMatch_after_get (cacheDuration props) tq now) in Hfuzzy.
  destruct (SearchCache.get (cacheDuration props) tq now
              (Strategy.cache (shared w))) as [got c].
  cbn [fst snd] in *. subst got. cbn [Strategy.cache]. rewrite Hfuzzy.
  unfold Strategy.limiter_isLimited. cbn [Strategy.requests].
  destruct (RateLimiter.isLimited (rateLimit props) (rateLimitWindow props)
              now (Strategy.requests (shared w))) as [limited reqs].
  cbn [fst] in Hlim. subst limited.
  match goal with
  | |- context [performSearch_finish ?m ?x (inr ?r) ?w0] =>
      destruct (performSearch_finish_control m x (inr r) w0) as (Hc & _);
      destruct (performSearch_finish_applied m x r w0 Href)
        as (Hres & Herr & _ & _ & Hstats)
  end.
  split; [exact Hres|]. split; [exact Herr|]. split; [exact Hstats|].
  exact (control_fetches _ _ Hc).
Qed.

(** X23 with a limit of one call per minute, used up by "smith". *)
Lemma X23_conservative_rate_limited_shows_history_witness :
  let props := propsWith conservative 1 in
  let w :=
    run props "aborted"%string
      [(0, InputChange "smith"%string); (300, DebounceFire);
       (400, FetchSettled 0 (FetchResponse true 200 (inr [alice])))]
      (initialWorld props) in
  let w' := performSearch props "aborted"%string "alice"%string conservative
              800 w in
  results (apiResult w') = [alice]
  /\ api_error (apiResult w')
     = Some "Rate limited. Showing local results."%string
  /\ searchStats w' = searchStats w
  /\ fetches w' = fetches w.
Proof.
  cbv zeta.
  apply (X23_conservative_rate_limited_shows_history
           (propsWith conservative 1) "aborted"%string "alice"%string 800
           (run (propsWith conservative 1) "aborted"%string
              [(0, InputChange "smith"%string); (300, DebounceFire);
               (400, FetchSettled 0 (FetchResponse true 200 (inr [alice])))]
              (initialWorld (propsWith conservative 1)))).
  - reflexivity.
  - vm_compute. discriminate.
  - vm_compute. reflexivity.
  - reflexivity.
  - reflexivity.
  - reflexivity.
  - reflexivity.
Defined.

(** X24. A remote search that comes back with data, while its strategy is
    still the active one, is shown, counted, charged, cached and
    remembered: the data are displayed without a message, [apiCalls] grows
    by one, the time of the answer is appended to the rate limiter's
    timestamps, the cache holds the data under the query with that time,
    and the local history holds them under the query when they are not
    empty (the history having at most 20 entries). *)
Theorem X24_resolved_search_is_applied_everywhere (props : Props)
    (caller : Caller) (mode : SearchMode) (q : string) (items : list User)
    (now : Z) (w : World) :
  let w' :=
    resume_task props (TaskSearch caller mode q) (Resolved items) now w in
  currentStrategyRef w = mode ->
  results (apiResult w') = items
  /\ api_error (apiResult w') = None
  /\ searchStats w'
     = mkSearchStats (apiCalls (searchStats w) + 1)
         (cacheHits (searchStats w)) (localSearches (searchStats w))
  /\ Strategy.requests (shared w') = Strategy.requests (shared w) ++ [now]
  /\ JsMap.get q (Strategy.cache (shared w')) = Some (mkCacheEntry items now)
  /\ (items <> [] ->
      JsMap.size (recentSearches w) <= 20 ->
      JsMap.get q (recentSearches w') = Some items).
Proof.
  intros w' Href.
  assert (Hshape :
            strategy_resume props caller q (Resolved items) now w
            = (mkResult items src_api None,
               with_shared
                 (Strategy.cache_set (maxCacheSize props) q items now
                    (Strategy.limiter_record now (shared w))) w)).
  { unfold strategy_resume. destruct caller; reflexivity. }
  assert (Hshared : shared w'
                    = Strategy.cache_set (maxCacheSize props) q items now
                        (Strategy.limiter_record now (shared w)))
    by (subst w'; apply (resume_task_resolved_shared props
                           (TaskSearch caller mode q))).
  subst w'. cbn [resume_task] in *. rewrite Hshape in *.
  match goal with
  | |- context [performSearch_finish mode q (inr ?r) ?w0] =>
      destruct (performSearch_finish_applied mode q r w0 Href)
        as (Hres & Herr & _ & _ & Hstats);
      pose proof (history_write_get q items (recentSearches w0)) as Hhist;
      assert (Hw : items <> [] ->
                   recentSearches (performSearch_finish mode q (inr r) w0)
                   = history_write q items (recentSearches w0))
  end.
  { intros Hne. unfold performSearch_finish.
    cbn [currentStrategyRef with_shared].
    rewrite (proj2 (SearchMode_eqb_eq _ _) Href). cbn [negb data].
    destruct items as [|u us]; [contradiction|reflexivity]. }
  split; [exact Hres|]. split; [exact Herr|]. split; [exact Hstats|].
  rewrite Hshared.
  split; [reflexivity|]. split.
  - cbn [Strategy.cache_set Strategy.cache]. unfold SearchCache.set.
    apply JsMap_get_set_same.
  - intros Hne Hsize. rewrite (Hw Hne). now apply Hhist.
Qed.

(** X24 on the initial world in instant mode. *)
Lemma X24_resolved_search_is_applied_everywhere_witness :
  let props := propsWith instant 60 in
  let w' :=
    resume_task props (TaskSearch ReturnsIt instant "smith"%string)
      (Resolved [alice]) 400 (initialWorld props) in
  results (apiResult w') = [alice]
  /\ api_error (apiResult w') = None
  /\ searchStats w' = mkSearchStats 1 0 0
  /\ Strategy.requests (shared w') = [400]
  /\ JsMap.get "smith"%string (Strategy.cache (shared w'))
     = Some (mkCacheEntry [alice] 400)
  /\ JsMap.get "smith"%string (recentSearches w') = Some [alice].
Proof.
  cbv zeta.
  destruct (X24_resolved_search_is_applied_everywhere (propsWith instant 60)
              ReturnsIt instant "smith"%string [alice] 400
              (initialWorld (propsWith instant 60)) eq_refl)
    as (H1 & H2 & H3 & H4 & H5 & H6).
  split; [exact H1|]. split; [exact H2|]. split; [exact H3|].
  split; [exact H4|]. split; [exact H5|].
  apply H6; [discriminate|vm_compute; discriminate].
Defined.

(** X25. A remote search that comes back after the strategy was changed is
    not shown, yet it was paid for: the results, the message, the
    statistics and the local history stay as they are (only the spinner is
    switched off), but the answer is cached under the query and its time is
    appended to the rate limiter's timestamps. *)
Theorem X25_superseded_search_is_cached_not_shown (props : Props)
    (caller : Caller) (mode : SearchMode) (q : string) (items : list User)
    (now : Z) (w : World) :
  let w' :=
    resume_task props (TaskSearch caller mode q) (Resolved items) now w in
  currentStrategyRef w <> mode ->
  apiResult w'
  = mkApiResult false (api_error (apiResult w)) (results (apiResult w))
      (isDropdownOpen (apiResult w))
  /\ searchStats w' = searchStats w
  /\ recentSearches w' = recentSearches w
  /\ Strategy.requests (shared w') = Strategy.requests (shared w) ++ [now]
  /\ JsMap.get q (Strategy.cache (shared w'))
     = Some (mkCacheEntry items now).
Proof.
  intros w' Href.
  assert (Hshared : shared w'
                    = Strategy.cache_set (maxCacheSize props) q items now
                        (Strategy.limiter_record now (shared w)))
    by (subst w'; apply (resume_task_resolved_shared props
                           (TaskSearch caller mode q))).
  rewrite Hshared. subst w'. cbn [resume_task].
  destruct (strategy_resume props caller q (Resolved items) now w)
    as [r w1] eqn:E.
  pose proof (strategy_resume_frame props caller q (Resolved items) now w)
    as (Hc & Hr & Ha & Hs & _).
  rewrite E in Hc, Hr, Ha, Hs. cbn [snd] in Hc, Hr, Ha, Hs.
  assert (Href1 : currentStrategyRef w1 <> mode).
  { intros H. apply Href. rewrite <- H.
    symmetry. exact (f_equal (fun c => snd (fst (fst c))) Hc). }
  rewrite (performSearch_finish_superseded mode q r w1 Href1).
  cbn [apiResult searchStats recentSearches setApiResult].
  rewrite Ha, Hs, Hr.
  split; [reflexivity|]. split; [reflexivity|]. split; [reflexivity|].
  split; [reflexivity|].
  cbn [Strategy.cache_set Strategy.cache]. unfold SearchCache.set.
  apply JsMap_get_set_same.
Qed.

(** X25 for a search dispatched in instant mode that comes back in
    balanced mode. *)
Lemma X25_superseded_search_is_cached_not_shown_witness :
  let props := propsWith balanced 60 in
  let w' :=
    resume_task props (TaskSearch ReturnsIt instant "smith"%string)
      (Resolved [alice]) 400 (initialWorld props) in
  apiResult w' = mkApiResult false None [] false
  /\ searchStats w' = mkSearchStats 0 0 0
  /\ recentSearches w' = []
  /\ Strategy.requests (shared w') = [400]
  /\ JsMap.get "smith"%string (Strategy.cache (shared w'))
     = Some (mkCacheEntry [alice] 400).
Proof.
  cbv zeta.
  apply (X25_superseded_search_is_cached_not_shown (propsWith balanced 60)
           ReturnsIt instant "smith"%string [alice] 400
           (initialWorld (propsWith balanced 60))).
  discriminate.
Defined.
